(** * TessNode: the OCR request handlers of [src/index.js]

    A shallow embedding of the Express server in [src/index.js]: the image
    validator, the staging paths, the cleanup helper, the two POST handlers,
    the TSV parser of [/api/get-bboxes], the directories made at startup and
    the sweep at shutdown, together with the properties the specification
    states about them.

    JavaScript strings are sequences of UTF-16 code units; a code unit is a
    natural number here.  The file system, the clock and the external
    recognizer are the environment of a request: the file system is a finite
    map threaded through the handler, the others are oracles, as are the
    refusals of the system (a file it will not unlink, a directory it will
    not make or list) and a recognizer that never exits.  A handler and
    its callbacks are followed from the request to the response as one
    sequence of steps; what other requests do in between is not part of the
    model. *)

From Stdlib Require Import ZArith NArith Strings.Byte.
From stdpp Require Import base option list strings gmap fin_maps pretty.

Set Warnings "-register-all".
Local Open Scope Z_scope.

(** ** JavaScript strings *)

Abbreviation jsstring := (list N).

(** A string literal of the source, one code unit per character. *)
Fixpoint lit (s : string) : jsstring :=
  match s with
  | EmptyString => []
  | String c s' => Ascii.N_of_ascii c :: lit s'
  end.
Arguments lit : simpl never.

Definition TAB : N := 9%N.
Definition LF : N := 10%N.

(** [WhiteSpace] and [LineTerminator] of ECMAScript, the characters that
    [String.prototype.trim], [parseInt] and [parseFloat] strip. *)
Definition is_white (c : N) : bool :=
  (   (c =? 9) || (c =? 10) || (c =? 11) || (c =? 12) || (c =? 13)
   || (c =? 32) || (c =? 160) || (c =? 5760)
   || ((8192 <=? c) && (c <=? 8202))
   || (c =? 8232) || (c =? 8233) || (c =? 8239) || (c =? 8287)
   || (c =? 12288) || (c =? 65279))%N.

Fixpoint trimStart (s : jsstring) : jsstring :=
  match s with
  | c :: s' => if is_white c then trimStart s' else s
  | [] => []
  end.

Definition trimEnd (s : jsstring) : jsstring :=
  rev (trimStart (rev s)).

(** [s.trim()] *)
Definition trim (s : jsstring) : jsstring := trimEnd (trimStart s).

(** [s.split(sep)] for a separator of one code unit. The empty string splits
    into one empty field. *)
Fixpoint split (sep : N) (s : jsstring) : list jsstring :=
  match s with
  | [] => [[]]
  | c :: s' =>
      if (c =? sep)%N then [] :: split sep s'
      else match split sep s' with
           | f :: fs => (c :: f) :: fs
           | [] => [[c]]
           end
  end.

(** [fields.join(sep)], the inverse of [split] used to write inputs. *)
Fixpoint join (sep : N) (fs : list jsstring) : jsstring :=
  match fs with
  | [] => []
  | [f] => f
  | f :: fs' => f ++ sep :: join sep fs'
  end.

(** [s.startsWith(p)] *)
Fixpoint startsWith (s p : jsstring) {struct p} : bool :=
  match p, s with
  | [], _ => true
  | a :: p', b :: s' => (a =? b)%N && startsWith s' p'
  | _ :: _, [] => false
  end.

(** [s.toLowerCase()] on the Basic Latin block, which holds every character
    that [buffer.toString('hex')] produces. *)
Definition toLowerCase (s : jsstring) : jsstring :=
  map (fun c => if ((65 <=? c) && (c <=? 90))%N then (c + 32)%N else c) s.

(** ** JavaScript numbers read from text

    A Number is a binary64 value. [parseInt] yields NaN, an infinity or an
    integer that binary64 holds exactly; [parseFloat] yields NaN, an
    infinity or a finite binary64 value, written [m * 2 ^ e] with [m] odd
    (or [m = 0]). Where ECMAScript lets an engine approximate digits after
    the twentieth, the nearest value is taken. The sign of a zero is not
    kept for integers: [JSON.stringify] writes both zeros as [0]. *)

(** The integer nearest to [p / q], the even one of the two when they are
    equally near ([0 ≤ p], [0 < q]). *)
Definition round_half_even (p q : Z) : Z :=
  let n := p / q in
  match 2 * (p mod q) ?= q with
  | Lt => n
  | Gt => n + 1
  | Eq => if Z.even n then n else n + 1
  end.

Inductive jsint :=
| INaN
| IInf (negative : bool)
| Int (z : Z).

(** The Number value for an integer: itself below 2^53 in magnitude, above
    that the nearest multiple of the spacing of its binade, and an infinity
    from 2^1024 on. *)
Definition round64 (z : Z) : jsint :=
  let a := Z.abs z in
  if a <? 2 ^ 53 then Int z
  else
    let e := Z.log2 a - 52 in
    let m := round_half_even a (2 ^ e) in
    if 2 ^ 1024 <=? m * 2 ^ e then IInf (z <? 0)
    else Int (Z.sgn z * (m * 2 ^ e)).

Inductive jsfloat :=
| FNaN
| FInfinity (negative : bool)
| FBin (negative : bool) (m : N) (e : Z).

(** An even number as an odd number times a power of two. *)
Fixpoint odd_part (p : positive) : positive * Z :=
  match p with
  | xO p' => let '(o, k) := odd_part p' in (o, k + 1)
  | _ => (p, 0)
  end.

(** [p / (q * 2 ^ e)] as a fraction of integers. *)
Definition scaled (p q e : Z) : Z * Z :=
  if 0 <=? e then (p, q * 2 ^ e) else (p * 2 ^ (- e), q).

(** The Number value for the rational [p / q] with the given sign
    ([0 ≤ p], [0 < q]): the nearest [m * 2 ^ e] with [m ≤ 2 ^ 53] and
    [-1074 ≤ e], ties to the even [m], and an infinity from 2^1024 on. *)
Definition binary64 (negative : bool) (p q : Z) : jsfloat :=
  match p with
  | Z.pos _ =>
      let e0 := Z.log2 p - Z.log2 q - 53 in
      let e1 := if 2 ^ 53 <=? (scaled p q e0).1 / (scaled p q e0).2
                then e0 + 1 else e0 in
      let e := Z.max e1 (-1074) in
      let m := round_half_even (scaled p q e).1 (scaled p q e).2 in
      if 2 ^ 1024 <=? m * 2 ^ e then FInfinity negative
      else match m with
           | Z.pos m' =>
               let '(o, k) := odd_part m' in FBin negative (N.pos o) (e + k)
           | _ => FBin negative 0 0
           end
  | _ => FBin negative 0 0
  end.

(** The Number value for the decimal [m * 10 ^ e]. *)
Definition decimal64 (negative : bool) (m : N) (e : Z) : jsfloat :=
  if 0 <=? e then binary64 negative (Z.of_N m * 10 ^ e) 1
  else binary64 negative (Z.of_N m) (10 ^ (- e)).

(** [a + b] on the numbers [parseInt] returns: NaN is absorbing, opposite
    infinities give NaN, and a finite sum is rounded. *)
Definition jsadd (a b : jsint) : jsint :=
  match a, b with
  | Int x, Int y => round64 (x + y)
  | IInf s, Int _ | Int _, IInf s => IInf s
  | IInf s, IInf t => if Bool.eqb s t then IInf s else INaN
  | INaN, _ | _, INaN => INaN
  end.

(** The value of a digit in a radix, if it is one. *)
Definition digit_value (radix : N) (c : N) : option N :=
  let v :=
    if ((48 <=? c) && (c <=? 57))%N then Some (c - 48)%N
    else if ((97 <=? c) && (c <=? 122))%N then Some (c - 87)%N
    else if ((65 <=? c) && (c <=? 90))%N then Some (c - 55)%N
    else None in
  match v with
  | Some d => if (d <? radix)%N then Some d else None
  | None => None
  end.

Definition is_digit (c : N) : bool := ((48 <=? c) && (c <=? 57))%N.

(** The longest prefix of digits of the radix, read as a number, and how
    many digits were read. *)
Fixpoint read_digits (radix : N) (acc : N) (n : nat) (s : jsstring)
  : N * nat * jsstring :=
  match s with
  | c :: s' =>
      match digit_value radix c with
      | Some d => read_digits radix (acc * radix + d)%N (S n) s'
      | None => (acc, n, s)
      end
  | [] => (acc, n, s)
  end.

(** An optional sign: whether it is a minus, and the rest. *)
Definition read_sign (s : jsstring) : bool * jsstring :=
  match s with
  | c :: s' =>
      if (c =? 45)%N then (true, s')
      else if (c =? 43)%N then (false, s')
      else (false, s)
  | [] => (false, [])
  end.

(** [parseInt(s)] with no radix argument (ECMAScript 19.2.5). *)
Definition parseInt (s : jsstring) : jsint :=
  let '(neg, s1) := read_sign (trimStart s) in
  let '(radix, s2) :=
    if startsWith s1 (lit "0x") || startsWith s1 (lit "0X")
    then (16%N, drop 2 s1)
    else (10%N, s1) in
  let '(v, n, _) := read_digits radix 0 0 s2 in
  match n with
  | O => INaN
  | S _ => round64 (if neg then - Z.of_N v else Z.of_N v)
  end.

(** [parseFloat(s)] (ECMAScript 19.2.4): the longest prefix that is a
    [StrDecimalLiteral]. *)
Definition parseFloat (s : jsstring) : jsfloat :=
  let '(neg, s1) := read_sign (trimStart s) in
  if startsWith s1 (lit "Infinity") then FInfinity neg
  else
    let '(ip, ni, r1) := read_digits 10 0 0 s1 in
    let '(m, nf, r2) :=
      if startsWith r1 (lit ".") then read_digits 10 ip 0 (drop 1 r1)
      else (ip, O, r1) in
    match ni, nf with
    | O, O => FNaN
    | _, _ =>
        let e :=
          match r2 with
          | c :: r =>
              if ((c =? 101) || (c =? 69))%N then
                let '(eneg, r') := read_sign r in
                let '(ev, ne, _) := read_digits 10 0 0 r' in
                match ne with
                | O => 0
                | S _ => if eneg then - Z.of_N ev else Z.of_N ev
                end
              else 0
          | [] => 0
          end in
        decimal64 neg m (e - Z.of_nat nf)
    end.

(** ** Exceptions and results *)

Inductive exn :=
| TypeError (message : string)
| SystemError (code : string).

Inductive result (A : Type) :=
| Ok (a : A)
| Throw (e : exn).
Arguments Ok {A} a.
Arguments Throw {A} e.

(** [l.map(f)] for a callback that may throw: elements are visited in
    order and the first exception ends the traversal. *)
Fixpoint map_result {A B : Type} (f : A -> result B) (l : list A)
  : result (list B) :=
  match l with
  | [] => Ok []
  | a :: l' =>
      match f a with
      | Throw e => Throw e
      | Ok b =>
          match map_result f l' with
          | Throw e => Throw e
          | Ok bs => Ok (b :: bs)
          end
      end
  end.

(** ** The TSV parser of [/api/get-bboxes] (lines 122-136) *)

Record BoundingBox := {
  text : jsstring;
  confidence : jsfloat;
  x_min : jsint;
  y_min : jsint;
  x_max : jsint;
  y_max : jsint
}.

(** [ToString] of a destructured array element: a missing element is
    [undefined]. *)
Definition ToString (v : option jsstring) : jsstring :=
  match v with
  | Some s => s
  | None => lit "undefined"
  end.

(** A string is truthy when it is not empty. *)
Definition truthy_string (s : jsstring) : bool :=
  match s with
  | [] => false
  | _ :: _ => true
  end.

(** What [text.trim()] throws when [text] is [undefined]. *)
Definition trim_of_undefined : exn :=
  TypeError "Cannot read properties of undefined (reading 'trim')".

(** The callback of [.map]: the twelve destructured fields of the line, of
    which [left], [top], [width], [height], [conf] and [text] are used.
    [text.trim()] is the first property evaluated and throws a TypeError when
    [text] is [undefined]. *)
Definition parse_line (line : jsstring) : result BoundingBox :=
  let fields := split TAB line in
  let left := fields !! 6%nat in
  let top := fields !! 7%nat in
  let width := fields !! 8%nat in
  let height := fields !! 9%nat in
  let conf := fields !! 10%nat in
  match fields !! 11%nat with
  | None => Throw trim_of_undefined
  | Some txt =>
      Ok {| text := trim txt;
            confidence := parseFloat (ToString conf);
            x_min := parseInt (ToString left);
            y_min := parseInt (ToString top);
            x_max := jsadd (parseInt (ToString left))
                           (parseInt (ToString width));
            y_max := jsadd (parseInt (ToString top))
                           (parseInt (ToString height)) |}
  end.

(** [data.split('\n').slice(1)] then [.filter(line => line.trim())] then
    [.map(...)]. *)
Definition parse_tsv (data : jsstring) : result (list BoundingBox) :=
  let lines := drop 1 (split LF data) in
  map_result parse_line
    (List.filter (fun line => truthy_string (trim line)) lines).

(** ** Request bodies and buffers *)

(** The values [bodyParser.json] can put in a field of [req.body];
    [JUndefined] is an absent field. *)
Inductive jsvalue :=
| JUndefined
| JNull
| JBool (b : bool)
| JNumber (x : jsfloat)
| JString (s : jsstring)
| JArray (items : list jsvalue)
| JObject (members : list (jsstring * jsvalue)).

(** [!v] is [negb (truthy v)]. *)
Definition truthy (v : jsvalue) : bool :=
  match v with
  | JUndefined | JNull => false
  | JBool b => b
  | JNumber FNaN => false
  | JNumber (FInfinity _) => true
  | JNumber (FBin _ m _) => negb (m =? 0)%N
  | JString s => truthy_string s
  | JArray _ | JObject _ => true
  end.

Definition hex_digit (n : N) : N :=
  if (n <? 10)%N then (48 + n)%N else (87 + n)%N.

Definition hex_of_byte (b : byte) : jsstring :=
  let n := Byte.to_N b in [hex_digit (n / 16); hex_digit (n mod 16)].

(** [buffer.toString('hex', start, end)] *)
Definition toString_hex (buffer : list byte) (start stop : nat) : jsstring :=
  flat_map hex_of_byte (take (stop - start) (drop start buffer)).

(** [const VALID_BBOX_TYPES = new Set([...])] *)
Definition VALID_BBOX_TYPES : gset jsstring :=
  {[ lit "word"; lit "line"; lit "paragraph"; lit "block"; lit "page" ]}.

(** [set.has(v)]: only a string can equal a member of a set of strings. *)
Definition Set_has (set : gset jsstring) (v : jsvalue) : bool :=
  match v with
  | JString s => bool_decide (s ∈ set)
  | _ => false
  end.

(** The two fields the handlers destructure from [req.body], the object
    [bodyParser.json] made of the request. *)
Record Request := {
  base64_image : jsvalue;
  bbox_type : jsvalue
}.

(** The JSON bodies the handlers send. *)
Inductive Body :=
| BodyError (message : jsstring)
| BodyText (txt : jsstring)
| BodyBboxes (bboxes : list BoundingBox) (bbox_type : jsvalue).

(** ** The file system, the clock and the recognizer *)

Inductive entry :=
| File (content : list byte)
| Dir.

(** What a request does that the outside can see, in order. *)
Inductive event :=
| EvWriteFile (path : jsstring)
| EvExec (command : jsstring)
| EvReadFile (path : jsstring)
| EvUnlink (path : jsstring)
| EvLog (message : jsstring)
| EvRespond (status : Z) (body : Body).

(** The file system maps the paths that exist to what is there; the empty
    string is no path, and a file system holds nothing at it. *)
Record World := {
  fs : gmap jsstring entry;
  ticks : nat;
  trace : list event
}.

(** How [fs.writeFile] ends: the file is written; the file could not be
    opened; or the file was opened and the write stopped after [n] bytes
    (disk full, I/O error), which leaves the truncated file behind. *)
Inductive write_outcome :=
| WriteDone
| WriteRefused
| WriteTorn (n : nat).

(** What the callback of [exec] receives and the file system the child
    process leaves. [exec_failed] tells whether the callback receives an
    [err]; it is [None] for a child that never exits: [exec] is given no
    timeout, so its callback is then never called. *)
Record ExecResult := {
  exec_failed : option bool;
  exec_stderr : jsstring;
  exec_fs : gmap jsstring entry
}.

(** The part of a request the server does not decide: the clock, how the
    write of the image ends, what the recognizer does, and the paths on
    which the system refuses to read a file, to unlink a file, to make a
    directory or to list a directory (permissions, a file in use, a
    read-only volume). *)
Record Env := {
  clock : nat -> Z;
  write_result : write_outcome;
  run_command : jsstring -> gmap jsstring entry -> ExecResult;
  read_denied : jsstring -> bool;
  unlink_denied : jsstring -> bool;
  mkdir_denied : jsstring -> bool;
  readdir_denied : jsstring -> bool
}.

(** Computations over the world that may throw. *)
Definition M (A : Type) : Type := World -> result A * World.

Definition ret {A : Type} (a : A) : M A := fun w => (Ok a, w).

Definition throw {A : Type} (e : exn) : M A := fun w => (Throw e, w).

Definition bind {A B : Type} (m : M A) (k : A -> M B) : M B :=
  fun w =>
    match m w with
    | (Ok a, w') => k a w'
    | (Throw e, w') => (Throw e, w')
    end.

(** [try { m } catch (error) { h error }]: what [m] did before it threw
    stays done. *)
Definition try_catch {A : Type} (m : M A) (h : exn -> M A) : M A :=
  fun w =>
    match m w with
    | (Ok a, w') => (Ok a, w')
    | (Throw e, w') => h e w'
    end.

#[global] Instance M_ret : MRet M := @ret.
#[global] Instance M_bind : MBind M := fun A B k m => bind m k.

Notation "'let!' x ':=' m 'in' k" := (bind m (fun x => k))
  (at level 10, x name, m at level 100, k at level 200,
   format "'[v' 'let!'  x  ':='  m  'in' '/' k ']'").

Definition emit (e : event) : M unit :=
  fun w => (Ok tt, {| fs := fs w; ticks := ticks w; trace := trace w ++ [e] |}).

Definition set_fs (m : gmap jsstring entry) : M unit :=
  fun w => (Ok tt, {| fs := m; ticks := ticks w; trace := trace w |}).

Definition get_fs : M (gmap jsstring entry) := fun w => (Ok (fs w), w).

(** The responses sent in a trace, in order. *)
Definition responses (tr : list event) : list (Z * Body) :=
  omap (fun ev => match ev with
                  | EvRespond status body => Some (status, body)
                  | _ => None
                  end) tr.

(** [console.error(...)] *)
Definition console_error (message : jsstring) : M unit :=
  emit (EvLog message).

(** [res.status(status).json(body)] *)
Definition respond (status : Z) (body : Body) : M unit :=
  emit (EvRespond status body).

(** [fs.existsSync(path)] *)
Definition fs_existsSync (path : jsstring) : M bool :=
  let! m := get_fs in
  ret (match m !! path with Some _ => true | None => false end).

(** [fs.unlinkSync(path)]: removes a file, and throws on a file the system
    refuses to unlink, on a directory and on a path that does not exist. *)
Definition fs_unlinkSync (env : Env) (path : jsstring) : M unit :=
  emit (EvUnlink path);;
  let! m := get_fs in
  match m !! path with
  | Some (File _) =>
      if unlink_denied env path then throw (SystemError "EPERM")
      else set_fs (delete path m)
  | Some Dir => throw (SystemError "EISDIR")
  | None => throw (SystemError "ENOENT")
  end.

(** [if (b) m;] *)
Definition when (b : bool) (m : M unit) : M unit :=
  if b then m else ret tt.

(** [cleanupFiles] (lines 25-33) *)
Definition cleanupFiles (env : Env) (imagePath outputBase : jsstring)
  : M unit :=
  try_catch
    (let! e1 := fs_existsSync imagePath in
     when e1 (fs_unlinkSync env imagePath);;
     let! e2 := fs_existsSync (outputBase ++ lit ".txt") in
     when e2 (fs_unlinkSync env (outputBase ++ lit ".txt"));;
     let! e3 := fs_existsSync (outputBase ++ lit ".tsv") in
     when e3 (fs_unlinkSync env (outputBase ++ lit ".tsv")))
    (fun error => console_error (lit "Cleanup error:")).

(** [Date.now()]: the next reading of the clock. *)
Definition Date_now (env : Env) : M Z :=
  fun w => (Ok (clock env (ticks w)),
            {| fs := fs w; ticks := S (ticks w); trace := trace w |}).

(** [fs.writeFile(path, data, callback)]: the [err] the callback receives. *)
Definition fs_writeFile (env : Env) (path : jsstring) (data : list byte)
  : M (option exn) :=
  emit (EvWriteFile path);;
  let! m := get_fs in
  match m !! path with
  | Some Dir => ret (Some (SystemError "EISDIR"))
  | _ =>
      match write_result env with
      | WriteDone => set_fs (<[path := File data]> m);; ret None
      | WriteRefused => ret (Some (SystemError "EACCES"))
      | WriteTorn n =>
          set_fs (<[path := File (take n data)]> m);;
          ret (Some (SystemError "ENOSPC"))
      end
  end.

(** [exec(command, callback)]: the callback is called, once the child has
    exited, with whether there is an [err] and with the [stderr] of the
    child; for a child that never exits it is not called. *)
Definition exec (env : Env) (command : jsstring)
    (callback : bool -> jsstring -> M unit) : M unit :=
  emit (EvExec command);;
  let! m := get_fs in
  let r := run_command env command m in
  set_fs (exec_fs r);;
  match exec_failed r with
  | Some err => callback err (exec_stderr r)
  | None => ret tt
  end.

(** [`${n}`] for an integer [n]. *)
Definition number_to_string (n : Z) : jsstring := lit (pretty n).

Definition QUOTE : N := 34%N.

Definition quoted (s : jsstring) : jsstring := QUOTE :: s ++ [QUOTE].

Definition TESSERACT_PATH : jsstring :=
  lit "C:\Program Files\Tesseract-OCR\tesseract.exe".

(** [lift r] runs a pure computation that may throw. *)
Definition lift {A : Type} (r : result A) : M A := fun w => (r, w).

Section Server.

(** The platform: the separator [path.join] inserts, what
    [Buffer.from(v, 'base64')] returns ([None] when it throws) and the
    decoding of a file read with the ['utf8'] encoding. *)
Variable path_sep : N.
Variable Buffer_from_base64 : jsvalue -> option (list byte).
Variable utf8_decode : list byte -> jsstring.

(** [path.join(dir, name)] for a directory name and a file name. *)
Definition path_join (dir name : jsstring) : jsstring :=
  dir ++ path_sep :: name.

(** [Buffer.from(v, 'base64')] *)
Definition Buffer_from (v : jsvalue) : M (list byte) :=
  match Buffer_from_base64 v with
  | Some buffer => ret buffer
  | None => throw (TypeError "The first argument must be of type string")
  end.

(** [fs.readFile(path, 'utf8', callback)]: [None] is an [err]. *)
Definition fs_readFile (env : Env) (path : jsstring) : M (option jsstring) :=
  emit (EvReadFile path);;
  let! m := get_fs in
  match m !! path with
  | Some (File content) =>
      if read_denied env path then ret None
      else ret (Some (utf8_decode content))
  | _ => ret None
  end.

(** [isValidBase64Image] (lines 35-43) *)
Definition isValidBase64Image (base64String : jsvalue) : bool :=
  match Buffer_from_base64 base64String with
  | Some buffer =>
      let firstBytes := toLowerCase (toString_hex buffer 0 4) in
      existsb (fun sig => startsWith firstBytes sig)
              [lit "ffd8"; lit "8950"; lit "4749"]
  | None => false
  end.

(** The two paths of a request (lines 56-57 and 99-100): each reads the
    clock. *)
Definition stage (env : Env) : M (jsstring * jsstring) :=
  let! t1 := Date_now env in
  let imagePath :=
    path_join (lit "uploads") (lit "image_" ++ number_to_string t1 ++ lit ".png") in
  let! t2 := Date_now env in
  let outputPath :=
    path_join (lit "output") (lit "image_" ++ number_to_string t2) in
  ret (imagePath, outputPath).

(** [app.post('/api/get-text', ...)] (lines 48-84) *)
Definition get_text (env : Env) (req : Request) : M unit :=
  if negb (truthy (base64_image req))
     || negb (isValidBase64Image (base64_image req))
  then respond 400 (BodyError (lit "Invalid base64_image."))
  else
    let! buffer := Buffer_from (base64_image req) in
    let! paths := stage env in
    let imagePath := paths.1 in
    let outputPath := paths.2 in
    let! err := fs_writeFile env imagePath buffer in
    match err with
    | Some _ =>
        console_error (lit "Write File Error:");;
        respond 500 (BodyError (lit "Error saving image."))
    | None =>
        exec env (quoted TESSERACT_PATH ++ lit " " ++ quoted imagePath
                  ++ lit " " ++ quoted outputPath)
          (fun err stderr =>
             if err then
               console_error (lit "Tesseract Error:");;
               cleanupFiles env imagePath outputPath;;
               respond 500 (BodyError (lit "Error processing image: " ++ stderr))
             else
               let! data := fs_readFile env (outputPath ++ lit ".txt") in
               match data with
               | None =>
                   console_error (lit "Read File Error:");;
                   cleanupFiles env imagePath outputPath;;
                   respond 500 (BodyError (lit "Error reading output file."))
               | Some data =>
                   cleanupFiles env imagePath outputPath;;
                   respond 200 (BodyText (trim data))
               end)
    end.

(** [app.post('/api/get-bboxes', ...)] (lines 87-143) *)
Definition get_bboxes (env : Env) (req : Request) : M unit :=
  if negb (truthy (base64_image req))
     || negb (isValidBase64Image (base64_image req))
  then respond 400 (BodyError (lit "Invalid base64_image."))
  else if negb (truthy (bbox_type req))
          || negb (Set_has VALID_BBOX_TYPES (bbox_type req))
  then respond 400 (BodyError (lit "Invalid bbox_type."))
  else
    let! buffer := Buffer_from (base64_image req) in
    let! paths := stage env in
    let imagePath := paths.1 in
    let outputPath := paths.2 in
    let! err := fs_writeFile env imagePath buffer in
    match err with
    | Some _ =>
        console_error (lit "Write File Error:");;
        respond 500 (BodyError (lit "Error saving image."))
    | None =>
        exec env (quoted TESSERACT_PATH ++ lit " " ++ quoted imagePath
                  ++ lit " " ++ quoted outputPath
                  ++ lit " -c tessedit_create_tsv=1")
          (fun err stderr =>
             if err then
               console_error (lit "Tesseract Error:");;
               cleanupFiles env imagePath outputPath;;
               respond 500 (BodyError (lit "Error processing image: " ++ stderr))
             else
               let! data := fs_readFile env (outputPath ++ lit ".tsv") in
               match data with
               | None =>
                   console_error (lit "Read File Error:");;
                   cleanupFiles env imagePath outputPath;;
                   respond 500 (BodyError (lit "Error reading output file."))
               | Some data =>
                   let! bboxes := lift (parse_tsv data) in
                   cleanupFiles env imagePath outputPath;;
                   respond 200 (BodyBboxes bboxes (bbox_type req))
               end)
    end.

End Server.

(** ** A concrete platform and recognizer

    Instances of the parameters above, on which the handlers run: a base64
    decoder for strings in the lenient manner of Node (characters outside
    the alphabet are skipped, padding ends the input, a trailing group of
    two or three characters gives one or two bytes), which is used on
    requests whose image is a string and refuses every other value, the
    UTF-8 decoding of a file, and a recognizer that writes given outputs
    next to a given basename. *)

Definition sextet (c : N) : option N :=
  if ((65 <=? c) && (c <=? 90))%N then Some (c - 65)%N
  else if ((97 <=? c) && (c <=? 122))%N then Some (c - 71)%N
  else if ((48 <=? c) && (c <=? 57))%N then Some (c + 4)%N
  else if ((c =? 43) || (c =? 45))%N then Some 62%N
  else if ((c =? 47) || (c =? 95))%N then Some 63%N
  else None.

Fixpoint sextets (s : jsstring) : list N :=
  match s with
  | [] => []
  | c :: s' =>
      if (c =? 61)%N then []
      else match sextet c with
           | Some v => v :: sextets s'
           | None => sextets s'
           end
  end.

Definition byte_of_N (n : N) : byte :=
  match Byte.of_N (n mod 256) with
  | Some b => b
  | None => x00
  end.

Fixpoint bytes_of_sextets (l : list N) : list byte :=
  match l with
  | a :: b :: c :: d :: r =>
      byte_of_N (a * 4 + b / 16) :: byte_of_N (b * 16 + c / 4)
        :: byte_of_N (c * 64 + d) :: bytes_of_sextets r
  | [a; b; c] => [byte_of_N (a * 4 + b / 16); byte_of_N (b * 16 + c / 4)]
  | [a; b] => [byte_of_N (a * 4 + b / 16)]
  | _ => []
  end.

Definition base64_lenient (v : jsvalue) : option (list byte) :=
  match v with
  | JString s => Some (bytes_of_sextets (sextets s))
  | _ => None
  end.

(** [buffer.toString('utf8')], which [fs.readFile] applies with the
    ['utf8'] encoding: UTF-8 decoded to UTF-16 code units, with U+FFFD for
    every ill-formed sequence; a byte order mark is kept. The state inside
    a multi-byte sequence is the code point so far, the number of bytes
    still needed and the range the next byte must be in. *)
Record utf8_state := {
  code_point : N;
  bytes_needed : nat;
  lower : N;
  upper : N
}.

(** A code point as UTF-16 code units. *)
Definition utf16_units (cp : N) : jsstring :=
  if (cp <? 65536)%N then [cp]
  else [(55296 + (cp - 65536) / 1024)%N; (56320 + (cp - 65536) mod 1024)%N].

Definition REPLACEMENT : N := 65533%N.

(** A byte that starts a sequence: what it emits and the state it
    leaves. *)
Definition utf8_lead (b : N) : jsstring * option utf8_state :=
  if (b <=? 127)%N then ([b], None)
  else if ((194 <=? b) && (b <=? 223))%N then
    ([], Some {| code_point := N.land b 31; bytes_needed := 1;
                 lower := 128; upper := 191 |})
  else if ((224 <=? b) && (b <=? 239))%N then
    ([], Some {| code_point := N.land b 15; bytes_needed := 2;
                 lower := if (b =? 224)%N then 160%N else 128%N;
                 upper := if (b =? 237)%N then 159%N else 191%N |})
  else if ((240 <=? b) && (b <=? 244))%N then
    ([], Some {| code_point := N.land b 7; bytes_needed := 3;
                 lower := if (b =? 240)%N then 144%N else 128%N;
                 upper := if (b =? 244)%N then 143%N else 191%N |})
  else ([REPLACEMENT], None).

Fixpoint utf8_run (st : option utf8_state) (bytes : list N) : jsstring :=
  match bytes with
  | [] => match st with Some _ => [REPLACEMENT] | None => [] end
  | b :: rest =>
      match st with
      | None => (utf8_lead b).1 ++ utf8_run (utf8_lead b).2 rest
      | Some s =>
          if ((lower s <=? b) && (b <=? upper s))%N then
            let cp := (code_point s * 64 + N.land b 63)%N in
            match bytes_needed s with
            | S (S n) =>
                utf8_run (Some {| code_point := cp; bytes_needed := S n;
                                  lower := 128; upper := 191 |}) rest
            | _ => utf16_units cp ++ utf8_run None rest
            end
          else
            REPLACEMENT :: (utf8_lead b).1 ++ utf8_run (utf8_lead b).2 rest
      end
  end.

Definition toString_utf8 (content : list byte) : jsstring :=
  utf8_run None (map Byte.to_N content).

(** The bytes a recognizer writes for a text of ASCII characters. *)
Definition ascii_encode (s : jsstring) : list byte :=
  map byte_of_N s.

Definition put_output (path : jsstring) (content : option jsstring)
  (m : gmap jsstring entry) : gmap jsstring entry :=
  match content with
  | Some s => <[path := File (ascii_encode s)]> m
  | None => m
  end.

(** A recognizer that writes [txt] to [<outputBase>.txt] and [tsv] to
    [<outputBase>.tsv], when given, and then ends as [failed] says, with
    [stderr]. *)
Definition recognizer (outputBase : jsstring) (txt tsv : option jsstring)
  (failed : option bool) (stderr : jsstring)
  : jsstring -> gmap jsstring entry -> ExecResult :=
  fun _ m =>
    {| exec_failed := failed;
       exec_stderr := stderr;
       exec_fs := put_output (outputBase ++ lit ".tsv") tsv
                    (put_output (outputBase ++ lit ".txt") txt m) |}.

Definition SLASH : N := 47%N.

(** One request arriving at clock reading 1000 on an empty staging area. *)
Definition steady_clock : nat -> Z := fun _ => 1000.

Definition ticking_clock : nat -> Z := fun n => 1000 + Z.of_nat n.

(** An environment that refuses nothing and whose recognizer exits. *)
Definition env_of (clk : nat -> Z) (wr : write_outcome)
  (txt tsv : option jsstring) (failed : bool) : Env :=
  {| clock := clk;
     write_result := wr;
     run_command := recognizer (lit "output/image_1000") txt tsv (Some failed)
                      (lit "tesseract: failed");
     read_denied := fun _ => false;
     unlink_denied := fun _ => false;
     mkdir_denied := fun _ => false;
     readdir_denied := fun _ => false |}.

Definition empty_world : World :=
  {| fs := {[ lit "uploads" := Dir; lit "output" := Dir ]};
     ticks := 0;
     trace := [] |}.

(** The first bytes of a PNG file, in base64. *)
Definition png_request (bt : jsvalue) : Request :=
  {| base64_image := JString (lit "iVBORw0KGgo="); bbox_type := bt |}.

Definition tsv_header : jsstring :=
  join TAB [lit "level"; lit "page_num"; lit "block_num"; lit "par_num";
            lit "line_num"; lit "word_num"; lit "left"; lit "top";
            lit "width"; lit "height"; lit "conf"; lit "text"].

Definition tsv_row_hello : jsstring :=
  join TAB [lit "5"; lit "1"; lit "1"; lit "1"; lit "1"; lit "1"; lit "10";
            lit "20"; lit "30"; lit "8"; lit "95.5"; lit "hello"].

(** * Specification-side definitions and sample data *)

(** A line that consists only of whitespace; the empty line is one. *)
Definition blank (s : jsstring) : bool := forallb is_white s.

(** A string with no whitespace at either end. *)
Definition unpadded (s : jsstring) : Prop :=
  (∀ c r, s = c :: r → is_white c = false)
  ∧ (∀ c r, s = r ++ [c] → is_white c = false).

(** The rows the specification describes: whitespace-only lines give
    nothing, and a line of twelve tab-separated fields (and possibly more)
    gives the record built from [left], [top], [width], [height], [conf]
    and [text]. *)
Inductive tsv_rows : list jsstring → list BoundingBox → Prop :=
| rows_nil : tsv_rows [] []
| rows_blank l ls bs :
    blank l = true → tsv_rows ls bs → tsv_rows (l :: ls) bs
| rows_row level page_num block_num par_num line_num word_num
           left top width height conf txt extra ls bs :
    let fields := [level; page_num; block_num; par_num; line_num; word_num;
                   left; top; width; height; conf; txt] ++ extra in
    Forall (λ f, TAB ∉ f) fields →
    blank (join TAB fields) = false →
    tsv_rows ls bs →
    tsv_rows (join TAB fields :: ls)
             ({| text := trim txt;
                 confidence := parseFloat conf;
                 x_min := parseInt left;
                 y_min := parseInt top;
                 x_max := jsadd (parseInt left) (parseInt width);
                 y_max := jsadd (parseInt top) (parseInt height) |} :: bs).

Definition hello_box : BoundingBox :=
  {| text := lit "hello";
     confidence := FBin false 191 (-1);
     x_min := Int 10;
     y_min := Int 20;
     x_max := Int 40;
     y_max := Int 28 |}.

(** A data line the parser cannot turn into a record: it is not blank and
    has fewer than twelve fields. *)
Definition short_line (l : jsstring) : Prop :=
  blank l = false ∧ (length (split TAB l) < 12)%nat.

(** A recognizer output whose only data line has two fields. *)
Definition tsv_short : jsstring :=
  join LF [tsv_header; join TAB [lit "5"; lit "1"]].

(** Whether a string begins with a digit of the radix. *)
Definition leading_digit (radix : N) (s : jsstring) : bool :=
  match s with
  | c :: _ => match digit_value radix c with Some _ => true | None => false end
  | [] => false
  end.

(** What [parseInt] can read: after leading whitespace and an optional
    sign, a decimal digit, or [0x] or [0X] followed by a hexadecimal digit. *)
Definition has_int_prefix (s : jsstring) : bool :=
  let s1 := (read_sign (trimStart s)).2 in
  if startsWith s1 (lit "0x") || startsWith s1 (lit "0X")
  then leading_digit 16 (drop 2 s1)
  else leading_digit 10 s1.

(** What [parseFloat] can read: after leading whitespace and an optional
    sign, [Infinity], a decimal digit, or a dot followed by a decimal
    digit. *)
Definition has_float_prefix (s : jsstring) : bool :=
  let s1 := (read_sign (trimStart s)).2 in
  startsWith s1 (lit "Infinity")
  || leading_digit 10 s1
  || (startsWith s1 (lit ".") && leading_digit 10 (drop 1 s1)).

(** A well-formed integer field: an optional minus sign and decimal digits,
    nothing else. *)
Definition integer_text (s : jsstring) : bool :=
  match s with
  | [] => false
  | c :: r =>
      if (c =? 45)%N
      then match r with [] => false | _ :: _ => forallb is_digit r end
      else forallb is_digit s
  end.

(** A row whose [left] is [12px] and whose [conf] is [9e1%], and a row that
    stops after its second field. *)
Definition tsv_row_malformed : jsstring :=
  join TAB [lit "5"; lit "1"; lit "1"; lit "1"; lit "1"; lit "1"; lit "12px";
            lit "20"; lit "30"; lit "8"; lit "9e1%"; lit "hello"].

Definition tsv_row_missing : jsstring := join TAB [lit "5"; lit "1"].

(** A row whose [left] is 1 followed by 309 zeros and whose [width] is the
    negative of it. *)
Definition tsv_row_overflow : jsstring :=
  join TAB [lit "5"; lit "1"; lit "1"; lit "1"; lit "1"; lit "1";
            lit "1" ++ replicate 309 48%N; lit "20";
            lit "-1" ++ replicate 309 48%N; lit "8"; lit "95.5"; lit "hello"].

Definition tsv_row_nan : jsstring :=
  join TAB [lit "5"; lit "1"; lit "1"; lit "1"; lit "1"; lit "1"; [];
            lit "x20"; lit "30"; lit "-"; lit "n/a"; lit "word"].

(** [buffer.toString('hex')]: the whole buffer in lowercase hexadecimal. *)
Definition hex (buffer : list byte) : jsstring :=
  toString_hex buffer 0 (length buffer).

(** The buffer begins with the two bytes [a] and [b]. *)
Definition begins_with (a b : byte) (buffer : list byte) : Prop :=
  ∃ rest, buffer = a :: b :: rest.

(** The deletion of [p] fails: [p] is a directory, or a file the system
    refuses to unlink. *)
Definition unlink_fails (env : Env) (p : jsstring) (m : gmap jsstring entry)
  : bool :=
  match m !! p with
  | Some Dir => true
  | Some (File _) => unlink_denied env p
  | None => false
  end.

(** What one [if (fs.existsSync(p)) fs.unlinkSync(p)] does to the file
    system: [None] when the deletion throws. *)
Definition remove_file (env : Env) (p : jsstring) (m : gmap jsstring entry)
  : option (gmap jsstring entry) :=
  if unlink_fails env p m then None else Some (delete p m).

(** The three deletions in order, up to the first that throws. *)
Definition cleaned (env : Env) (p1 p2 p3 : jsstring)
    (m : gmap jsstring entry) : gmap jsstring entry :=
  match remove_file env p1 m with
  | None => m
  | Some m1 =>
      match remove_file env p2 m1 with
      | None => m1
      | Some m2 =>
          match remove_file env p3 m2 with
          | None => m2
          | Some m3 => m3
          end
      end
  end.

(** What one [if (fs.existsSync(p)) fs.unlinkSync(p)] writes to the trace:
    nothing for a path that does not exist. *)
Definition unlink_attempt (p : jsstring) (m : gmap jsstring entry)
  : list event :=
  match m !! p with
  | Some _ => [EvUnlink p]
  | None => []
  end.

(** The trace of [cleanupFiles]: the unlinks in order up to the first that
    fails, and then the log of the [catch] block. *)
Definition cleanup_events (env : Env) (p1 p2 p3 : jsstring)
    (m : gmap jsstring entry) : list event :=
  let failed := [EvLog (lit "Cleanup error:")] in
  unlink_attempt p1 m
  ++ match remove_file env p1 m with
     | None => failed
     | Some m1 =>
         unlink_attempt p2 m1
         ++ match remove_file env p2 m1 with
            | None => failed
            | Some m2 =>
                unlink_attempt p3 m2
                ++ match remove_file env p3 m2 with
                   | None => failed
                   | Some _ => []
                   end
            end
     end.

Definition with_fs (w : World) (m : gmap jsstring entry) (evs : list event)
  : World :=
  {| fs := m; ticks := ticks w; trace := trace w ++ evs |}.

(** The [catch] block of [cleanupFiles] around a computation [m]. *)
Definition caught (m : M unit) : M unit :=
  try_catch m (fun error => console_error (lit "Cleanup error:")).

(** A staging area in which the image path is a directory and the text
    output of a request exists. *)
Definition world_image_dir : World :=
  {| fs := {[ lit "uploads" := Dir;
              lit "output/image_1.txt" := File [] ]};
     ticks := 0;
     trace := [] |}.

(** A staging area holding the image and the text output of a request. *)
Definition world_staged : World :=
  {| fs := {[ lit "uploads/image_1.png" := File [x89; x50];
              lit "output/image_1.txt" := File [];
              lit "uploads" := Dir ]};
     ticks := 0;
     trace := [] |}.

(** A staging area holding the image and both outputs of a request. *)
Definition world_three : World :=
  {| fs := {[ lit "uploads/image_1.png" := File [x89; x50];
              lit "output/image_1.txt" := File [];
              lit "output/image_1.tsv" := File [] ]};
     ticks := 0;
     trace := [] |}.

(** An environment in which the system refuses to unlink the text output
    of that request, and one in which it refuses to make directories. *)
Definition env_locked : Env :=
  {| clock := steady_clock;
     write_result := WriteDone;
     run_command := recognizer (lit "output/image_1000") None None
                      (Some false) [];
     read_denied := fun _ => false;
     unlink_denied := fun p => bool_decide (p = lit "output/image_1.txt");
     mkdir_denied := fun _ => false;
     readdir_denied := fun _ => false |}.

Definition env_read_only : Env :=
  {| clock := steady_clock;
     write_result := WriteRefused;
     run_command := recognizer (lit "output/image_1000") None None
                      (Some false) [];
     read_denied := fun _ => false;
     unlink_denied := fun _ => true;
     mkdir_denied := fun _ => true;
     readdir_denied := fun _ => false |}.

(** An environment whose recognizer never exits. *)
Definition env_hangs : Env :=
  {| clock := steady_clock;
     write_result := WriteDone;
     run_command := recognizer (lit "output/image_1000") None None None [];
     read_denied := fun _ => false;
     unlink_denied := fun _ => false;
     mkdir_denied := fun _ => false;
     readdir_denied := fun _ => false |}.

(** The world after the two clock readings of [stage]. *)
Definition after_stage (w : World) : World :=
  {| fs := fs w; ticks := S (S (ticks w)); trace := trace w |}.

Definition env_ticking : Env := env_of ticking_clock WriteDone None None false.

Definition env_steady : Env := env_of steady_clock WriteDone None None false.

(** The image path and the output basename of a request that starts in
    world [w]. *)
Definition imagePath_at (path_sep : N) (env : Env) (w : World) : list N :=
  path_join path_sep (lit "uploads")
    (lit "image_" ++ number_to_string (clock env (ticks w)) ++ lit ".png").

Definition outputPath_at (path_sep : N) (env : Env) (w : World) : list N :=
  path_join path_sep (lit "output")
    (lit "image_" ++ number_to_string (clock env (S (ticks w)))).

(** The command lines of the two handlers. *)
Definition text_command (imagePath outputPath : list N) : list N :=
  quoted TESSERACT_PATH ++ lit " " ++ quoted imagePath ++ lit " "
    ++ quoted outputPath.

Definition tsv_command (imagePath outputPath : list N) : list N :=
  quoted TESSERACT_PATH ++ lit " " ++ quoted imagePath ++ lit " "
    ++ quoted outputPath ++ lit " -c tessedit_create_tsv=1".

(** The values of [bbox_type] the handler accepts. *)
Definition bbox_type_values : list jsvalue :=
  [JString (lit "word"); JString (lit "line"); JString (lit "paragraph");
   JString (lit "block"); JString (lit "page")].

(** What the callback of [fs.readFile] receives. *)
Definition read_result (utf8_decode : list byte → list N) (env : Env)
    (path : list N) (m : gmap (list N) entry) : option (list N) :=
  match m !! path with
  | Some (File content) =>
      if read_denied env path then None else Some (utf8_decode content)
  | _ => None
  end.

Definition png_bytes : list byte := [x89; x50; x4e; x47; x0d; x0a; x1a; x0a].

(** A recognizer output with a line-level row and a word-level row. *)
Definition tsv_row_line : jsstring :=
  join TAB [lit "4"; lit "1"; lit "1"; lit "1"; lit "1"; lit "0"; lit "10";
            lit "20"; lit "100"; lit "8"; lit "-1"; []].

Definition tsv_two_levels : jsstring :=
  join LF [tsv_header; tsv_row_line; tsv_row_hello; []].

Definition line_box : BoundingBox :=
  {| text := [];
     confidence := FBin true 1 0;
     x_min := Int 10;
     y_min := Int 20;
     x_max := Int 110;
     y_max := Int 28 |}.

Definition env_text : Env :=
  env_of steady_clock WriteDone (Some (lit "  hi there ")) None false.

Definition env_tsv : Env :=
  env_of steady_clock WriteDone None (Some tsv_two_levels) false.

Definition env_disk_full : Env :=
  env_of steady_clock (WriteTorn 0) None None false.

(** * Startup and shutdown (lines 12-19 and 162-170) *)

(** [list.forEach(f)] for a callback that may throw: the first exception
    ends the loop. *)
Fixpoint forEach {A : Type} (f : A → M unit) (l : list A) : M unit :=
  match l with
  | [] => ret tt
  | a :: l' => f a;; forEach f l'
  end.

(** [console.log(...)] *)
Definition console_log (message : jsstring) : M unit :=
  emit (EvLog message).

(** The directories above a path: its prefixes that end before a
    separator. Paths are taken as written, segments joined by the
    separator. *)
Fixpoint ancestors_from (sep : N) (pre s : jsstring) : list jsstring :=
  match s with
  | [] => []
  | c :: s' =>
      (if (c =? sep)%N && truthy_string pre then [pre] else [])
      ++ ancestors_from sep (pre ++ [c]) s'
  end.

Definition ancestors (sep : N) (path : jsstring) : list jsstring :=
  ancestors_from sep [] path.

(** One step of a recursive [mkdir]: a directory is kept, a regular file
    in the way throws [code], and a missing directory is made unless the
    system refuses to. *)
Definition make_dir (env : Env) (code : string) (p : jsstring) : M unit :=
  let! m := get_fs in
  match m !! p with
  | Some Dir => ret tt
  | Some (File _) => throw (SystemError code)
  | None =>
      if mkdir_denied env p then throw (SystemError "EACCES")
      else set_fs (<[p := Dir]> m)
  end.

(** [fs.mkdirSync(path, { recursive: true })]; the empty path names
    nothing. *)
Definition fs_mkdirSync_recursive (env : Env) (sep : N) (path : jsstring)
  : M unit :=
  match path with
  | [] => throw (SystemError "ENOENT")
  | _ :: _ =>
      forEach (make_dir env "ENOTDIR") (ancestors sep path);;
      make_dir env "EEXIST" path
  end.

(** The name of [k] inside the directory [dir], when [k] is an entry of it:
    [dir], the separator and a name that is not empty and holds no
    separator. *)
Definition child_name (sep : N) (dir k : jsstring) : option jsstring :=
  if startsWith k (dir ++ [sep]) then
    let name := drop (length dir + 1) k in
    if bool_decide (name ≠ [] ∧ sep ∉ name) then Some name else None
  else None.

Section Lifecycle.

Variable env : Env.
Variable path_sep : N.

(** The order in which the system lists the entries of a directory. *)
Variable readdir_order : jsstring → list jsstring → list jsstring.

(** [fs.readdirSync(dir)]: the names of the entries of a directory; throws
    when [dir] is missing or is a regular file, and when the system refuses
    to list it. *)
Definition fs_readdirSync (dir : jsstring) : M (list jsstring) :=
  let! m := get_fs in
  match m !! dir with
  | Some Dir =>
      if readdir_denied env dir then throw (SystemError "EACCES")
      else ret (readdir_order dir
                  (omap (child_name path_sep dir) (map fst (map_to_list m))))
  | Some (File _) => throw (SystemError "ENOTDIR")
  | None => throw (SystemError "ENOENT")
  end.

(** [ensureDirectoryExists] (lines 12-16) *)
Definition ensureDirectoryExists (directory : jsstring) : M unit :=
  let! e := fs_existsSync directory in
  when (negb e) (fs_mkdirSync_recursive env path_sep directory).

(** Lines 18-19. *)
Definition startup : M unit :=
  ensureDirectoryExists (lit "uploads");;
  ensureDirectoryExists (lit "output").

(** [process.on('SIGTERM', ...)] (lines 162-170) *)
Definition on_SIGTERM : M unit :=
  console_log (lit "SIGTERM received. Cleaning up...");;
  try_catch
    (let! files := fs_readdirSync (lit "uploads") in
     forEach (fun file =>
                fs_unlinkSync env (path_join path_sep (lit "uploads") file))
             files;;
     let! files := fs_readdirSync (lit "output") in
     forEach (fun file =>
                fs_unlinkSync env (path_join path_sep (lit "output") file))
             files)
    (fun error => console_error (lit "Cleanup error during shutdown:")).

End Lifecycle.

(** The listing order that keeps the order of the file system map. *)
Definition map_order : jsstring → list jsstring → list jsstring :=
  fun _ names => names.

(** A staging area with two images, one text output and an unrelated
    file. *)
Definition world_leftovers : World :=
  {| fs := {[ lit "uploads" := Dir;
              lit "output" := Dir;
              lit "uploads/image_1.png" := File [x89; x50];
              lit "uploads/image_2.png" := File [x47; x49];
              lit "output/image_1.txt" := File [];
              lit "notes.txt" := File [] ]};
     ticks := 0;
     trace := [] |}.

(** The same without the input directory. *)
Definition world_no_uploads : World :=
  {| fs := {[ lit "output" := Dir;
              lit "output/image_1.txt" := File [] ]};
     ticks := 0;
     trace := [] |}.

(** A file system with nothing in it. *)
Definition world_fresh : World :=
  {| fs := ∅; ticks := 0; trace := [] |}.

(** * The response of a request whose image was written *)

(** What /api/get-text answers once the recognizer has exited and left
    [r], when its callback received [err]. *)
Definition text_response (utf8_decode : list byte → list N) (env : Env)
    (outputPath : list N) (r : ExecResult) (err : bool) : Z * Body :=
  if err
  then (500, BodyError (lit "Error processing image: " ++ exec_stderr r))
  else match read_result utf8_decode env (outputPath ++ lit ".txt")
               (exec_fs r) with
       | Some data => (200, BodyText (trim data))
       | None => (500, BodyError (lit "Error reading output file."))
       end.

(** What /api/get-bboxes answers then, or the exception of its parser. *)
Definition bboxes_response (utf8_decode : list byte → list N) (env : Env)
    (req : Request) (outputPath : list N) (r : ExecResult) (err : bool)
  : result (Z * Body) :=
  if err
  then Ok (500, BodyError (lit "Error processing image: " ++ exec_stderr r))
  else match read_result utf8_decode env (outputPath ++ lit ".tsv")
               (exec_fs r) with
       | Some data =>
           match parse_tsv data with
           | Ok bboxes => Ok (200, BodyBboxes bboxes (bbox_type req))
           | Throw e => Throw e
           end
       | None => Ok (500, BodyError (lit "Error reading output file."))
       end.

(** [fs.writeFile] on [path] fails. *)
Definition write_fails (env : Env) (path : list N)
    (m : gmap (list N) entry) : Prop :=
  m !! path = Some Dir ∨ write_result env ≠ WriteDone.

(** The three paths a request stages. *)
Definition staged_paths (imagePath outputPath : list N) : list (list N) :=
  [imagePath; outputPath ++ lit ".txt"; outputPath ++ lit ".tsv"].

Definition env_tool_fails : Env :=
  env_of steady_clock WriteDone None None true.

Definition env_no_output : Env :=
  env_of steady_clock WriteDone None None false.

Definition env_short_tsv : Env :=
  env_of steady_clock WriteDone None (Some tsv_short) false.

(** * Line endings *)



(** * Directory entries *)

(** [k] is an entry of the directory [dir]. *)
Definition entry_of (sep : N) (dir k : jsstring) : Prop :=
  is_Some (child_name sep dir k).

(** [k] is written as a path below [dir]. *)
Definition below (sep : N) (dir k : jsstring) : Prop :=
  startsWith k (dir ++ [sep]) = true.

(** A listing order names every entry once. *)
Definition lists_each_once
    (order : jsstring → list jsstring → list jsstring) : Prop :=
  ∀ dir names, order dir names ≡ₚ names.

(** The unlink events of a loop over [names] in [dir]. *)
Definition unlink_events (sep : N) (dir : jsstring) (names : list jsstring)
  : list event :=
  (λ file, EvUnlink (dir ++ sep :: file)) <$> names.

(** The staging area a request left behind: its image and its TSV output
    are still there. *)
Definition world_request_left : World :=
  {| fs := {[ lit "uploads" := Dir;
              lit "output" := Dir;
              lit "uploads/image_1000.png" := File [x89; x50];
              lit "output/image_1000.tsv" := File [] ]};
     ticks := 0;
     trace := [] |}.

(** A staging area whose input directory holds a directory. *)
Definition world_subdir : World :=
  {| fs := {[ lit "uploads" := Dir;
              lit "output" := Dir;
              lit "uploads/old" := Dir;
              lit "uploads/image_1.png" := File [x89; x50];
              lit "output/image_1.txt" := File [] ]};
     ticks := 0;
     trace := [] |}.

(** The loop of the shutdown handler over the names of one directory. *)
Definition unlink_all (env : Env) (sep : N) (dir : jsstring)
    (names : list jsstring) : M unit :=
  forEach (fun file => fs_unlinkSync env (dir ++ sep :: file)) names.

(** One line of the shutdown handler: list a directory and unlink what is
    listed. *)
Definition sweep (env : Env) (sep : N)
    (order : jsstring → list jsstring → list jsstring) (dir : jsstring)
  : M unit :=
  let! files := fs_readdirSync env sep order dir in
  unlink_all env sep dir files.

(** [m'] is [m] without some regular files, all of which satisfy [P]. *)
Definition removes_only (P : jsstring → Prop) (m m' : gmap jsstring entry)
  : Prop :=
  ∀ k, m' !! k = m !! k
       ∨ (m' !! k = None ∧ (∃ c, m !! k = Some (File c)) ∧ P k).

#[global] Instance byte_eq_dec : EqDecision byte := Byte.byte_eq_dec.

#[global] Instance entry_eq_dec : EqDecision entry.
Proof. solve_decision. Defined.

#[global] Instance entry_of_dec (sep : N) (dir k : jsstring) :
  Decision (entry_of sep dir k).
Proof. unfold entry_of. apply _. Defined.

(** Every entry of [dir] can be unlinked: none is a directory and none is
    a file the system refuses to unlink. *)
Definition only_files (env : Env) (sep : N) (dir : jsstring)
    (m : gmap jsstring entry) : Prop :=
  map_Forall (λ k e, entry_of sep dir k → e ≠ Dir ∧ unlink_denied env k = false)
    m.

(** * Properties *)

(** ** Strings *)


Lemma split_free sep f : sep ∉ f → split sep f = [f].
Proof.
  induction f as [|c f IH]; intros Hf; simpl; [done|].
  apply not_elem_of_cons in Hf as [Hc Hf].
  destruct (N.eqb_spec c sep) as [->|_]; [done|].
  by rewrite IH.
Qed.

Lemma split_app_sep sep f s :
  sep ∉ f → split sep (f ++ sep :: s) = f :: split sep s.
Proof.
  induction f as [|c f IH]; intros Hf; simpl.
  - by rewrite N.eqb_refl.
  - apply not_elem_of_cons in Hf as [Hc Hf].
    destruct (N.eqb_spec c sep) as [->|_]; [done|].
    by rewrite IH.
Qed.

(** [split] undoes [join] when no field holds the separator. *)
Lemma split_join sep (fs : list jsstring) :
  fs ≠ [] → Forall (λ f, sep ∉ f) fs → split sep (join sep fs) = fs.
Proof.
  induction fs as [|f fs IH]; intros Hne Hfs; [done|].
  apply Forall_cons in Hfs as [Hf Hfs].
  destruct fs as [|g fs].
  - simpl. by apply split_free.
  - change (join sep (f :: g :: fs)) with (f ++ sep :: join sep (g :: fs)).
    rewrite split_app_sep by done. by rewrite IH.
Qed.

Lemma blank_app s t : blank (s ++ t) = blank s && blank t.
Proof. apply forallb_app. Qed.

Lemma blank_rev s : blank (rev s) = blank s.
Proof.
  induction s as [|c s IH]; simpl; [done|].
  rewrite blank_app, IH. simpl. rewrite andb_true_r. apply andb_comm.
Qed.

Lemma blank_trimStart s : blank (trimStart s) = blank s.
Proof.
  induction s as [|c s IH]; simpl; [done|].
  destruct (is_white c) eqn:Hc; simpl; [done|]. by rewrite Hc.
Qed.

Lemma trimStart_nil s : trimStart s = [] ↔ blank s = true.
Proof.
  induction s as [|c s IH]; simpl; [done|].
  destruct (is_white c); simpl; [done|]. split; discriminate.
Qed.

(** [s.trim()] is empty exactly when [s] consists only of whitespace. *)
Lemma trim_nil s : trim s = [] ↔ blank s = true.
Proof.
  unfold trim, trimEnd.
  rewrite <- (blank_trimStart s), <- (blank_rev (trimStart s)).
  rewrite <- trimStart_nil.
  split; intros H.
  - apply (f_equal (@rev N)) in H. by rewrite rev_involutive in H.
  - by rewrite H.
Qed.

Lemma truthy_trim s : truthy_string (trim s) = negb (blank s).
Proof.
  destruct (blank s) eqn:Hb.
  - apply trim_nil in Hb. by rewrite Hb.
  - destruct (trim s) eqn:Ht; [|done].
    apply trim_nil in Ht. congruence.
Qed.

Lemma trimStart_spec s :
  ∃ l, s = l ++ trimStart s ∧ blank l = true
       ∧ ∀ c r, trimStart s = c :: r → is_white c = false.
Proof.
  induction s as [|c s (l & Hs & Hl & Hh)]; simpl.
  - by exists [].
  - destruct (is_white c) eqn:Hc.
    + exists (c :: l). simpl. rewrite Hc, Hl. by rewrite <- Hs.
    + exists []. split; [done|]. split; [done|]. by intros ? ? [= <- _].
Qed.

(** [s.trim()] is [s] without the whitespace at its two ends. *)
Lemma trim_spec s :
  ∃ l r, s = l ++ trim s ++ r ∧ blank l = true ∧ blank r = true
         ∧ unpadded (trim s).
Proof.
  destruct (trimStart_spec s) as (l & Hs & Hl & Hhead).
  destruct (trimStart_spec (rev (trimStart s))) as (r & Hr & Hbr & Hlast).
  assert (trimStart s = trim s ++ rev r) as Ht.
  { unfold trim, trimEnd. rewrite <- rev_app_distr, <- Hr.
    by rewrite rev_involutive. }
  exists l, (rev r). split; [by rewrite <- Ht|]. split; [done|].
  split; [by rewrite blank_rev|]. split.
  - intros c q Hq. rewrite Hq in Ht. by apply (Hhead c (q ++ rev r)).
  - intros c q Hq. apply (Hlast c (rev q)).
    unfold trim, trimEnd in Hq. apply (f_equal (@rev N)) in Hq.
    by rewrite rev_involutive, rev_app_distr in Hq.
Qed.

Example trim_example : trim (lit "  hi there ") = lit "hi there".
Proof. reflexivity. Qed.

Example split_example :
  split LF (lit "a" ++ [LF] ++ lit "b" ++ [LF]) = [lit "a"; lit "b"; []].
Proof. reflexivity. Qed.

(** ** The TSV parser *)

Lemma parse_line_fields level page_num block_num par_num line_num word_num
    left top width height conf txt extra :
  Forall (λ f, TAB ∉ f)
    ([level; page_num; block_num; par_num; line_num; word_num;
      left; top; width; height; conf; txt] ++ extra) →
  parse_line (join TAB ([level; page_num; block_num; par_num; line_num;
                         word_num; left; top; width; height; conf; txt]
                        ++ extra))
  = Ok {| text := trim txt;
          confidence := parseFloat conf;
          x_min := parseInt left;
          y_min := parseInt top;
          x_max := jsadd (parseInt left) (parseInt width);
          y_max := jsadd (parseInt top) (parseInt height) |}.
Proof.
  intros Hf. unfold parse_line. by rewrite split_join.
Qed.

Lemma parse_lines_rows ls bs :
  tsv_rows ls bs →
  map_result parse_line
    (List.filter (fun line => truthy_string (trim line)) ls) = Ok bs.
Proof.
  induction 1 as [|l ls bs Hl _ IH
                  |? ? ? ? ? ? ? ? ? ? ? ? ? ls bs fields Hf Hl _ IH].
  - done.
  - cbn [List.filter]. by rewrite truthy_trim, Hl.
  - subst fields. cbn [List.filter]. rewrite truthy_trim, Hl.
    cbn [negb map_result].
    rewrite parse_line_fields by done. by rewrite IH.
Qed.

(** C3. For every TSV text, written as a first line followed by lines [ls],
    the parser drops the first line, skips the whitespace-only lines and
    turns every other line, split on tab into its twelve positional fields,
    into the record with [text = trim(text)], [confidence = parseFloat(conf)],
    [x_min = left], [y_min = top], [x_max = left + width] and
    [y_max = top + height]; and the row of the specification
    (5, 1, 1, 1, 1, 1, 10, 20, 30, 8, 95.5, hello) parses to the record
    with text hello, confidence 95.5 and the box 10, 20, 40, 28. *)
Theorem parse_tsv_emits_rows (header : jsstring) (ls : list jsstring)
    (bs : list BoundingBox) :
  Forall (λ l, LF ∉ l) (header :: ls) →
  tsv_rows ls bs →
  parse_tsv (join LF (header :: ls)) = Ok bs
  ∧ parse_line tsv_row_hello = Ok hello_box.
Proof.
  intros Hlf Hrows. split; [|reflexivity].
  unfold parse_tsv. rewrite split_join by done.
  simpl drop. by apply parse_lines_rows.
Qed.

Lemma parse_tsv_emits_rows_witness :
  parse_tsv (join LF [tsv_header; tsv_row_hello; lit "  "; []])
  = Ok [hello_box]
  ∧ parse_line tsv_row_hello = Ok hello_box.
Proof.
  apply (parse_tsv_emits_rows tsv_header [tsv_row_hello; lit "  "; []]
           [hello_box]).
  - apply (bool_decide_unpack _). vm_compute. exact I.
  - apply (rows_row (lit "5") (lit "1") (lit "1") (lit "1") (lit "1")
             (lit "1") (lit "10") (lit "20") (lit "30") (lit "8")
             (lit "95.5") (lit "hello") []).
    + apply (bool_decide_unpack _). vm_compute. exact I.
    + reflexivity.
    + apply rows_blank; [reflexivity|].
      apply rows_blank; [reflexivity|]. apply rows_nil.
Defined.

Lemma parse_line_short l :
  (length (split TAB l) < 12)%nat → parse_line l = Throw trim_of_undefined.
Proof.
  intros Hlen. unfold parse_line.
  by rewrite (lookup_ge_None_2 (split TAB l) 11) by lia.
Qed.

Lemma parse_line_long l :
  (12 ≤ length (split TAB l))%nat → ∃ b, parse_line l = Ok b.
Proof.
  intros Hlen. unfold parse_line.
  destruct (lookup_lt_is_Some_2 (split TAB l) 11) as [t ->]; [lia|].
  eauto.
Qed.

Lemma parse_line_throws l e : parse_line l = Throw e → e = trim_of_undefined.
Proof.
  unfold parse_line. destruct (split TAB l !! 11%nat); congruence.
Qed.

Lemma map_parse_line_ok ls :
  Forall (λ l, (12 ≤ length (split TAB l))%nat) ls →
  ∃ bs, map_result parse_line ls = Ok bs ∧ length bs = length ls.
Proof.
  induction 1 as [|l ls Hl _ [bs [IH Hlen]]]; simpl; [by exists []|].
  destruct (parse_line_long l Hl) as [b ->]. rewrite IH.
  exists (b :: bs). simpl. by rewrite Hlen.
Qed.

Lemma map_parse_line_throw ls :
  Exists (λ l, (length (split TAB l) < 12)%nat) ls →
  map_result parse_line ls = Throw trim_of_undefined.
Proof.
  induction 1 as [l ls Hl|l ls _ IH]; simpl.
  - by rewrite parse_line_short.
  - destruct (parse_line l) as [b|e] eqn:Hp.
    + by rewrite IH.
    + by rewrite (parse_line_throws l e Hp).
Qed.

Lemma Forall_filter_nonblank (P : jsstring → Prop) ls :
  Forall (λ l, blank l = false → P l) ls →
  Forall P (List.filter (fun line => truthy_string (trim line)) ls).
Proof.
  induction 1 as [|l ls Hl _ IH]; simpl; [done|].
  rewrite truthy_trim. destruct (blank l); simpl; auto.
Qed.

Lemma Exists_filter_nonblank (P : jsstring → Prop) ls :
  Exists (λ l, blank l = false ∧ P l) ls →
  Exists P (List.filter (fun line => truthy_string (trim line)) ls).
Proof.
  induction 1 as [l ls [Hb Hl]|l ls _ IH]; simpl; rewrite truthy_trim.
  - rewrite Hb. simpl. by left.
  - destruct (blank l); simpl; auto.
Qed.

(** The parser returns when every data line that is not blank has at least
    twelve fields, and throws as soon as one has fewer. *)
Lemma parse_tsv_total data :
  Forall (λ l, blank l = false → (12 ≤ length (split TAB l))%nat)
         (drop 1 (split LF data)) →
  ∃ bs, parse_tsv data = Ok bs.
Proof.
  intros H. unfold parse_tsv.
  destruct (map_parse_line_ok _ (Forall_filter_nonblank _ _ H)) as [bs [-> _]].
  eauto.
Qed.

Lemma parse_tsv_partial data :
  Exists short_line (drop 1 (split LF data)) →
  parse_tsv data = Throw trim_of_undefined.
Proof.
  intros H. unfold parse_tsv. apply map_parse_line_throw.
  by apply Exists_filter_nonblank.
Qed.

(** C5. Some TSV text with a data line that is not blank and has fewer than
    twelve tab-separated fields makes the parsing step of /api/get-bboxes
    throw the TypeError of [trim] on [undefined]: the handler neither builds
    a record nor sends the 500 response (it sends none). The parser returns
    exactly when every data line that is not blank has at least twelve
    fields. *)
Theorem parse_tsv_throws_on_short_line :
  (∃ data,
      Exists short_line (drop 1 (split LF data))
      ∧ parse_tsv data = Throw trim_of_undefined
      ∧ let run :=
          get_bboxes SLASH base64_lenient toString_utf8
            (env_of steady_clock WriteDone None (Some data) false)
            (png_request (JString (lit "word"))) empty_world in
        run.1 = Throw trim_of_undefined ∧ responses (trace run.2) = [])
  ∧ ∀ data,
      (∃ bs, parse_tsv data = Ok bs)
      ↔ Forall (λ l, blank l = false → (12 ≤ length (split TAB l))%nat)
               (drop 1 (split LF data)).
Proof.
  split.
  - exists tsv_short. split; [|split; [|split]].
    + change (Exists short_line [join TAB [lit "5"; lit "1"]]).
      left. split; [reflexivity|]. vm_compute. lia.
    + reflexivity.
    + vm_compute. reflexivity.
    + vm_compute. reflexivity.
  - intros data. split; [|apply parse_tsv_total].
    intros [bs Hbs].
    destruct (decide (Forall (λ l, blank l = false
                                   → (12 ≤ length (split TAB l))%nat)
                             (drop 1 (split LF data)))) as [|Hn]; [done|].
    apply not_Forall_Exists in Hn; [|apply _].
    rewrite parse_tsv_partial in Hbs; [done|].
    eapply Exists_impl; [exact Hn|].
    intros l Hl. unfold short_line. simpl in Hl.
    destruct (blank l); [by destruct Hl|].
    split; [done|]. destruct (decide (length (split TAB l) < 12)%nat); [done|].
    destruct Hl. lia.
Qed.

(** ** Numeric fields *)

Lemma read_digits_count radix acc n s :
  (n ≤ (read_digits radix acc n s).1.2)%nat.
Proof.
  revert acc n. induction s as [|c s IH]; intros acc n; simpl; [done|].
  destruct (digit_value radix c); simpl; [|done].
  specialize (IH (acc * radix + n0)%N (S n)). lia.
Qed.

Lemma read_digits_none radix acc s :
  (read_digits radix acc 0 s).1.2 = 0%nat ↔ leading_digit radix s = false.
Proof.
  destruct s as [|c s]; simpl; [done|].
  destruct (digit_value radix c) as [d|]; simpl; [|done].
  pose proof (read_digits_count radix (acc * radix + d)%N 1 s).
  split; [lia|done].
Qed.

(** Rounding never gives NaN, and keeps the integers below 2^53. *)
Lemma round64_not_nan z : round64 z ≠ INaN.
Proof.
  unfold round64. destruct (Z.abs z <? 2 ^ 53); [done|].
  by destruct (2 ^ 1024 <=? _).
Qed.

Lemma round64_exact z : Z.abs z < 2 ^ 53 → round64 z = Int z.
Proof.
  intros Hz. unfold round64. by rewrite (proj2 (Z.ltb_lt _ _) Hz).
Qed.

Lemma binary64_not_nan negative p q : binary64 negative p q ≠ FNaN.
Proof.
  unfold binary64. destruct p as [|p|p]; [done| |done].
  destruct (2 ^ 1024 <=? _); [done|].
  destruct (round_half_even _ _) as [|m|m]; [done| |done].
  by destruct (odd_part m).
Qed.

Lemma decimal64_not_nan negative m e : decimal64 negative m e ≠ FNaN.
Proof. unfold decimal64. destruct (0 <=? e); apply binary64_not_nan. Qed.

(** [parseInt] returns NaN exactly on the strings without a numeric
    prefix. *)
Lemma parseInt_nan_iff s : parseInt s = INaN ↔ has_int_prefix s = false.
Proof.
  unfold parseInt, has_int_prefix.
  destruct (read_sign (trimStart s)) as [neg s1]. cbn [snd].
  destruct (startsWith s1 (lit "0x") || startsWith s1 (lit "0X")); cbv iota.
  - rewrite <- (read_digits_none 16 0).
    destruct (read_digits 16 0 0 (drop 2 s1)) as [[v n] r]. cbn [fst snd].
    destruct n; split; try done. intros H. by apply round64_not_nan in H.
  - rewrite <- (read_digits_none 10 0).
    destruct (read_digits 10 0 0 s1) as [[v n] r]. cbn [fst snd].
    destruct n; split; try done. intros H. by apply round64_not_nan in H.
Qed.

(** [parseFloat] returns NaN exactly on the strings without a numeric
    prefix. *)
Lemma parseFloat_nan_iff s : parseFloat s = FNaN ↔ has_float_prefix s = false.
Proof.
  unfold parseFloat, has_float_prefix.
  destruct (read_sign (trimStart s)) as [neg s1]. cbn [snd].
  destruct (startsWith s1 (lit "Infinity")); cbn [orb]; [done|].
  pose proof (read_digits_none 10 0 s1) as Hi.
  destruct (read_digits 10 0 0 s1) as [[ip ni] r1] eqn:Hr. simpl in Hi.
  assert (r1 = s1 ∨ leading_digit 10 s1 = true) as Hr1.
  { destruct s1 as [|c s1]; simpl in *; [left; congruence|].
    destruct (digit_value 10 c); [by right|left; congruence]. }
  destruct (leading_digit 10 s1) eqn:Hl; cbn [orb].
  - destruct ni; [by destruct Hi as [Hi _]; specialize (Hi eq_refl)|].
    destruct (if startsWith r1 (lit ".") then _ else _) as [[m nf] r2].
    split; [|done]. intros H. by apply decimal64_not_nan in H.
  - destruct Hr1 as [->|]; [|done].
    assert (ni = 0%nat) as -> by by apply Hi.
    destruct (startsWith s1 (lit ".")); cbn [orb andb].
    + pose proof (read_digits_none 10 ip (drop 1 s1)) as Hf.
      destruct (read_digits 10 ip 0 (drop 1 s1)) as [[m nf] r2].
      cbn [fst snd] in Hf. rewrite <- Hf. destruct nf; split; try done.
      intros H. by apply decimal64_not_nan in H.
    + done.
Qed.

Example parseInt_examples :
  parseInt (lit "10") = Int 10 ∧ parseInt (lit " -12px") = Int (-12)
  ∧ parseInt (lit "0x1A") = Int 26 ∧ parseInt (lit "0xg") = INaN
  ∧ parseInt [] = INaN ∧ parseInt (lit "undefined") = INaN.
Proof. repeat split; reflexivity. Qed.

Example parseFloat_examples :
  parseFloat (lit "95.5") = FBin false 191 (-1)
  ∧ parseFloat (lit "95.50") = FBin false 191 (-1)
  ∧ parseFloat (lit "0.1") = FBin false 3602879701896397 (-55)
  ∧ parseFloat (lit "-1") = FBin true 1 0
  ∧ parseFloat (lit ".5e1x") = FBin false 5 0
  ∧ parseFloat (lit "1e400") = FInfinity false
  ∧ parseFloat (lit "-Infinity") = FInfinity true
  ∧ parseFloat (lit ".") = FNaN ∧ parseFloat (lit "n/a") = FNaN.
Proof. repeat split; vm_compute; reflexivity. Qed.

(** A sum is NaN when an operand is, and when the operands are infinities
    of opposite signs. *)
Lemma jsadd_nan a b :
  jsadd a b = INaN
  ↔ a = INaN ∨ b = INaN ∨ ∃ s, a = IInf s ∧ b = IInf (negb s).
Proof.
  destruct a as [|s|x], b as [|t|y]; cbn [jsadd];
    (split; [intros H | intros [H|[H|(u & Ha & Hb)]]]);
    try done; auto.
  all: try (by apply round64_not_nan in H).
  all: try (simplify_eq; by destruct u).
  destruct s, t; try done; right; right; by eexists.
Qed.

(** C7, as stated, fails. The field [12px] is not a well-formed integer but
    [parseInt] reads its prefix, so the record holds 12 and 42 and not NaN
    (and the confidence [9e1%] reads as 90); and a row whose numeric fields
    are missing emits no record: it throws. *)
Lemma malformed_field_keeps_prefix :
  integer_text (lit "12px") = false
  ∧ parse_line tsv_row_malformed
    = Ok {| text := lit "hello";
            confidence := FBin false 45 1;
            x_min := Int 12;
            y_min := Int 20;
            x_max := Int 42;
            y_max := Int 28 |}
  ∧ split TAB tsv_row_missing !! 6%nat = None
  ∧ parse_line tsv_row_missing = Throw trim_of_undefined.
Proof. repeat split; reflexivity. Qed.

(** C7, amended. For every row with at least twelve fields a record is
    emitted, and a number read from one field is NaN exactly when the field
    has no numeric prefix (after leading whitespace and an optional sign: a
    digit, for [conf] also a dot and a digit or [Infinity], for the integers
    also [0x] and a hexadecimal digit): [x_min] for [left], [y_min] for
    [top], [confidence] for [conf]. The sums [x_max] and [y_max] are NaN
    exactly when one of their two fields has no numeric prefix or the two
    fields read as infinities of opposite signs. The NaN is kept in the
    record and the row does not fail. *)
Theorem fields_without_prefix_give_nan (line left top width height conf txt
    : jsstring) :
  split TAB line !! 6%nat = Some left →
  split TAB line !! 7%nat = Some top →
  split TAB line !! 8%nat = Some width →
  split TAB line !! 9%nat = Some height →
  split TAB line !! 10%nat = Some conf →
  split TAB line !! 11%nat = Some txt →
  ∃ b, parse_line line = Ok b
    ∧ (x_min b = INaN ↔ has_int_prefix left = false)
    ∧ (y_min b = INaN ↔ has_int_prefix top = false)
    ∧ (x_max b = INaN
       ↔ has_int_prefix left = false ∨ has_int_prefix width = false
         ∨ ∃ s, parseInt left = IInf s ∧ parseInt width = IInf (negb s))
    ∧ (y_max b = INaN
       ↔ has_int_prefix top = false ∨ has_int_prefix height = false
         ∨ ∃ s, parseInt top = IInf s ∧ parseInt height = IInf (negb s))
    ∧ (confidence b = FNaN ↔ has_float_prefix conf = false).
Proof.
  intros Hl Ht Hw Hh Hc Htxt. unfold parse_line.
  rewrite Hl, Ht, Hw, Hh, Hc, Htxt. eexists. split; [reflexivity|].
  cbn [x_min y_min x_max y_max confidence ToString].
  rewrite !jsadd_nan, !parseInt_nan_iff, parseFloat_nan_iff. done.
Qed.

Lemma fields_without_prefix_give_nan_witness :
  ∃ b, parse_line tsv_row_nan = Ok b
    ∧ (x_min b = INaN ↔ has_int_prefix [] = false)
    ∧ (y_min b = INaN ↔ has_int_prefix (lit "x20") = false)
    ∧ (x_max b = INaN
       ↔ has_int_prefix [] = false ∨ has_int_prefix (lit "30") = false
         ∨ ∃ s, parseInt [] = IInf s ∧ parseInt (lit "30") = IInf (negb s))
    ∧ (y_max b = INaN
       ↔ has_int_prefix (lit "x20") = false ∨ has_int_prefix (lit "-") = false
         ∨ ∃ s, parseInt (lit "x20") = IInf s
                ∧ parseInt (lit "-") = IInf (negb s))
    ∧ (confidence b = FNaN ↔ has_float_prefix (lit "n/a") = false).
Proof.
  apply (fields_without_prefix_give_nan tsv_row_nan [] (lit "x20") (lit "30")
           (lit "-") (lit "n/a") (lit "word")); reflexivity.
Defined.

(** Two integer fields that both have a numeric prefix and still sum to
    NaN: [left] is 1 followed by 309 zeros, which reads as infinity, and
    [width] is its negative. *)
Example opposite_infinities_give_nan :
  has_int_prefix (lit "1" ++ replicate 309 48%N) = true
  ∧ has_int_prefix (lit "-1" ++ replicate 309 48%N) = true
  ∧ parse_line tsv_row_overflow
    = Ok {| text := lit "hello";
            confidence := FBin false 191 (-1);
            x_min := IInf false;
            y_min := Int 20;
            x_max := INaN;
            y_max := Int 28 |}.
Proof. repeat split; vm_compute; reflexivity. Qed.

(** ** The image validator *)

Lemma toLowerCase_hex_of_byte b : toLowerCase (hex_of_byte b) = hex_of_byte b.
Proof. destruct b; reflexivity. Qed.

Lemma toLowerCase_hex buffer :
  toLowerCase (flat_map hex_of_byte buffer) = flat_map hex_of_byte buffer.
Proof.
  induction buffer as [|b buffer IH]; [done|].
  unfold toLowerCase in *. cbn [flat_map]. rewrite map_app, IH.
  f_equal. apply toLowerCase_hex_of_byte.
Qed.

Lemma hex_all buffer : hex buffer = flat_map hex_of_byte buffer.
Proof.
  unfold hex, toString_hex. rewrite Nat.sub_0_r. simpl drop.
  by rewrite firstn_all.
Qed.

(** Four hexadecimal characters only look at the first two bytes. *)
Lemma startsWith_first_bytes buffer s1 s2 s3 s4 :
  startsWith (toString_hex buffer 0 4) [s1; s2; s3; s4]
  = startsWith (hex buffer) [s1; s2; s3; s4].
Proof.
  rewrite hex_all. unfold toString_hex.
  destruct buffer as [|a [|b rest]]; simpl; reflexivity.
Qed.

Lemma startsWith_two_bytes buffer s1 s2 s3 s4 :
  startsWith (hex buffer) [s1; s2; s3; s4] = true
  ↔ ∃ a b rest, buffer = a :: b :: rest
      ∧ startsWith (hex_of_byte a) [s1; s2] = true
      ∧ startsWith (hex_of_byte b) [s3; s4] = true.
Proof.
  rewrite hex_all.
  destruct buffer as [|a [|b rest]].
  - split; [done|]. by intros (? & ? & ? & ? & _).
  - simpl. split; [|by intros (? & ? & ? & ? & _)].
    by rewrite !andb_false_r.
  - simpl. rewrite !andb_true_r, !andb_true_iff. split.
    + intros (H1 & H2 & H3 & H4). exists a, b, rest. by rewrite H1, H2, H3, H4.
    + intros (a' & b' & rest' & Heq & Ha & Hb). simplify_eq.
      simpl in Ha, Hb. rewrite !andb_true_r in Ha, Hb.
      apply andb_true_iff in Ha as [? ?], Hb as [? ?]. done.
Qed.

Ltac byte_cases a := destruct a; first [reflexivity | discriminate].

Lemma hex_ff a : startsWith (hex_of_byte a) (lit "ff") = Byte.eqb a xff.
Proof. byte_cases a. Qed.
Lemma hex_d8 a : startsWith (hex_of_byte a) (lit "d8") = Byte.eqb a xd8.
Proof. byte_cases a. Qed.
Lemma hex_89 a : startsWith (hex_of_byte a) (lit "89") = Byte.eqb a x89.
Proof. byte_cases a. Qed.
Lemma hex_50 a : startsWith (hex_of_byte a) (lit "50") = Byte.eqb a x50.
Proof. byte_cases a. Qed.
Lemma hex_47 a : startsWith (hex_of_byte a) (lit "47") = Byte.eqb a x47.
Proof. byte_cases a. Qed.
Lemma hex_49 a : startsWith (hex_of_byte a) (lit "49") = Byte.eqb a x49.
Proof. byte_cases a. Qed.

Lemma begins_with_hex (x y : byte) s1 s2 s3 s4 buffer :
  (∀ a, startsWith (hex_of_byte a) [s1; s2] = Byte.eqb a x) →
  (∀ a, startsWith (hex_of_byte a) [s3; s4] = Byte.eqb a y) →
  startsWith (hex buffer) [s1; s2; s3; s4] = true ↔ begins_with x y buffer.
Proof.
  intros Hx Hy. rewrite startsWith_two_bytes. unfold begins_with. split.
  - intros (a & b & rest & -> & Ha & Hb). rewrite Hx in Ha. rewrite Hy in Hb.
    apply Byte.byte_dec_bl in Ha, Hb. subst. eauto.
  - intros [rest ->]. exists x, y, rest.
    rewrite Hx, Hy, !Byte.byte_dec_lb; done.
Qed.

Section Validator.

Variable Buffer_from_base64 : jsvalue → option (list byte).

Lemma isValidBase64Image_decoded v buffer :
  Buffer_from_base64 v = Some buffer →
  isValidBase64Image Buffer_from_base64 v
  = startsWith (hex buffer) (lit "ffd8")
    || startsWith (hex buffer) (lit "8950")
    || startsWith (hex buffer) (lit "4749").
Proof.
  intros Hd. unfold isValidBase64Image. rewrite Hd.
  unfold toString_hex. rewrite toLowerCase_hex.
  pose proof (startsWith_first_bytes buffer) as H.
  unfold toString_hex in H. cbn [existsb].
  change (lit "ffd8") with [102; 102; 100; 56]%N.
  change (lit "8950") with [56; 57; 53; 48]%N.
  change (lit "4749") with [52; 55; 52; 57]%N.
  rewrite !H. by rewrite orb_false_r, orb_assoc.
Qed.

(** C4. The validator returns true exactly when the decoding succeeds and
    the decoded bytes, in lowercase hexadecimal, start with ffd8, 8950 or
    4749, that is, when the buffer begins with the bytes FF D8, 89 50 or
    47 49. A buffer with other leading bytes, such as 00 00 00 00, is
    rejected, and a decoding that throws gives false, not an exception. *)
Theorem isValidBase64Image_iff (v : jsvalue) :
  (isValidBase64Image Buffer_from_base64 v = true
   ↔ ∃ buffer, Buffer_from_base64 v = Some buffer
       ∧ (startsWith (hex buffer) (lit "ffd8") = true
          ∨ startsWith (hex buffer) (lit "8950") = true
          ∨ startsWith (hex buffer) (lit "4749") = true))
  ∧ (isValidBase64Image Buffer_from_base64 v = true
     ↔ ∃ buffer, Buffer_from_base64 v = Some buffer
         ∧ (begins_with xff xd8 buffer
            ∨ begins_with x89 x50 buffer
            ∨ begins_with x47 x49 buffer))
  ∧ (Buffer_from_base64 v = None
     → isValidBase64Image Buffer_from_base64 v = false)
  ∧ (∀ rest, Buffer_from_base64 v = Some (x00 :: x00 :: x00 :: x00 :: rest)
     → isValidBase64Image Buffer_from_base64 v = false).
Proof.
  assert (isValidBase64Image Buffer_from_base64 v = true
          ↔ ∃ buffer, Buffer_from_base64 v = Some buffer
              ∧ (startsWith (hex buffer) (lit "ffd8") = true
                 ∨ startsWith (hex buffer) (lit "8950") = true
                 ∨ startsWith (hex buffer) (lit "4749") = true)) as Hhex.
  { destruct (Buffer_from_base64 v) as [buffer|] eqn:Hd.
    - rewrite (isValidBase64Image_decoded v buffer Hd), !orb_true_iff.
      split.
      + intros H. exists buffer. split; [done|]. tauto.
      + intros (buffer' & Heq & H). simplify_eq. tauto.
    - unfold isValidBase64Image. rewrite Hd.
      split; [done|]. by intros (? & ? & _). }
  split; [exact Hhex|]. split; [|split].
  - rewrite Hhex. apply exist_proper. intros buffer.
    rewrite <- (begins_with_hex xff xd8 102 102 100 56 buffer hex_ff hex_d8).
    rewrite <- (begins_with_hex x89 x50 56 57 53 48 buffer hex_89 hex_50).
    rewrite <- (begins_with_hex x47 x49 52 55 52 57 buffer hex_47 hex_49).
    done.
  - intros Hd. unfold isValidBase64Image. by rewrite Hd.
  - intros rest Hd. by rewrite (isValidBase64Image_decoded _ _ Hd).
Qed.

End Validator.

Example validator_png :
  isValidBase64Image base64_lenient (JString (lit "iVBORw0KGgo=")) = true.
Proof. reflexivity. Qed.

Example validator_jpeg :
  isValidBase64Image base64_lenient (JString (lit "/9j/4AAQ")) = true.
Proof. reflexivity. Qed.

Example validator_gif :
  isValidBase64Image base64_lenient (JString (lit "R0lGODlh")) = true.
Proof. reflexivity. Qed.

Example validator_zero_bytes :
  base64_lenient (JString (lit "AAAAAA==")) = Some [x00; x00; x00; x00]
  ∧ isValidBase64Image base64_lenient (JString (lit "AAAAAA==")) = false.
Proof. split; reflexivity. Qed.

Example validator_not_a_string :
  isValidBase64Image base64_lenient (JNumber (FBin false 21 1)) = false.
Proof. reflexivity. Qed.

(** ** Cleanup *)

Lemma with_fs_with_fs (w : World) (m m' : gmap (list N) entry)
    (evs evs' : list event) :
  with_fs (with_fs w m evs) m' evs' = with_fs w m' (evs ++ evs').
Proof. unfold with_fs. cbn. by rewrite <- app_assoc. Qed.

Lemma fs_with_fs (w : World) (m : gmap (list N) entry) (evs : list event) :
  fs (with_fs w m evs) = m.
Proof. reflexivity. Qed.

Lemma with_fs_id w : with_fs w (fs w) [] = w.
Proof. destruct w. unfold with_fs. cbn. by rewrite app_nil_r. Qed.

Lemma emit_with_fs (e : event) (w : World) (m : gmap (list N) entry)
    (evs : list event) :
  emit e (with_fs w m evs) = (Ok tt, with_fs w m (evs ++ [e])).
Proof. unfold emit, with_fs. cbn. by rewrite <- app_assoc. Qed.

Lemma responses_app evs evs' :
  responses (evs ++ evs') = responses evs ++ responses evs'.
Proof. apply omap_app. Qed.

Lemma remove_file_absent (env : Env) (p : list N) (m : gmap (list N) entry) :
  m !! p = None → remove_file env p m = Some m.
Proof. intros H. unfold remove_file, unlink_fails. by rewrite H, delete_id. Qed.

Lemma remove_file_Some (env : Env) (p : list N) (m m' : gmap (list N) entry) :
  remove_file env p m = Some m'
  ↔ unlink_fails env p m = false ∧ m' = delete p m.
Proof.
  unfold remove_file. destruct (unlink_fails env p m); split;
    try (intros [= <-]; done); try (intros [? ->]; done).
Qed.

Lemma remove_file_None (env : Env) (p : list N) (m : gmap (list N) entry) :
  remove_file env p m = None ↔ unlink_fails env p m = true.
Proof. unfold remove_file. by destruct (unlink_fails env p m). Qed.

(** What does not fail before a deletion does not fail after it. *)
Lemma unlink_fails_delete (env : Env) (p q : list N)
    (m : gmap (list N) entry) :
  unlink_fails env p m = false → unlink_fails env p (delete q m) = false.
Proof.
  unfold unlink_fails. rewrite lookup_delete. by case_decide.
Qed.

Lemma unlink_fails_absent (env : Env) (p : list N) (m : gmap (list N) entry) :
  m !! p = None → unlink_fails env p m = false.
Proof. intros H. unfold unlink_fails. by rewrite H. Qed.

Lemma responses_unlink_attempt (p : list N) (m : gmap (list N) entry) :
  responses (unlink_attempt p m) = [].
Proof. unfold unlink_attempt. by destruct (m !! p). Qed.

(** One [if (fs.existsSync(p)) fs.unlinkSync(p);] inside the [try] of
    [cleanupFiles], followed by [k]. *)
Lemma caught_unlink_step (env : Env) (p : list N) (k : M unit) (w : World) :
  caught (let! e := fs_existsSync p in (when e (fs_unlinkSync env p);; k)) w
  = match remove_file env p (fs w) with
    | Some m' => caught k (with_fs w m' (unlink_attempt p (fs w)))
    | None =>
        (Ok tt,
         with_fs w (fs w)
           (unlink_attempt p (fs w) ++ [EvLog (lit "Cleanup error:")]))
    end.
Proof.
  unfold remove_file, unlink_fails, unlink_attempt.
  destruct (fs w !! p) as [[c|]|] eqn:H.
  - destruct (unlink_denied env p) eqn:Hd;
      unfold caught, try_catch, console_error, fs_existsSync, fs_unlinkSync,
        when, with_fs, emit, set_fs, get_fs, mbind, M_bind, bind, ret, throw;
      cbn; rewrite H; cbn; rewrite ?H, ?Hd; cbn; try done.
    by rewrite <- app_assoc.
  - unfold caught, try_catch, console_error, fs_existsSync, fs_unlinkSync,
      when, with_fs, emit, set_fs, get_fs, mbind, M_bind, bind, ret, throw.
    cbn. rewrite H. cbn. rewrite H. cbn. by rewrite <- app_assoc.
  - rewrite delete_id, with_fs_id by done.
    unfold caught, try_catch, fs_existsSync, when, get_fs, mbind, M_bind,
      bind, ret.
    cbn. by rewrite H.
Qed.

(** The same for the last of the three. *)
Lemma caught_unlink_last (env : Env) (p : list N) (w : World) :
  caught (let! e := fs_existsSync p in when e (fs_unlinkSync env p)) w
  = match remove_file env p (fs w) with
    | Some m' => (Ok tt, with_fs w m' (unlink_attempt p (fs w)))
    | None =>
        (Ok tt,
         with_fs w (fs w)
           (unlink_attempt p (fs w) ++ [EvLog (lit "Cleanup error:")]))
    end.
Proof.
  unfold remove_file, unlink_fails, unlink_attempt.
  destruct (fs w !! p) as [[c|]|] eqn:H.
  - destruct (unlink_denied env p) eqn:Hd;
      unfold caught, try_catch, console_error, fs_existsSync, fs_unlinkSync,
        when, with_fs, emit, set_fs, get_fs, mbind, M_bind, bind, ret, throw;
      cbn; rewrite H; cbn; rewrite ?H, ?Hd; cbn; try done.
    by rewrite <- app_assoc.
  - unfold caught, try_catch, console_error, fs_existsSync, fs_unlinkSync,
      when, with_fs, emit, set_fs, get_fs, mbind, M_bind, bind, ret, throw.
    cbn. rewrite H. cbn. rewrite H. cbn. by rewrite <- app_assoc.
  - rewrite delete_id, with_fs_id by done.
    unfold caught, try_catch, fs_existsSync, when, get_fs, mbind, M_bind,
      bind, ret.
    cbn. by rewrite H.
Qed.

(** [cleanupFiles] step by step: it returns normally, the file system is
    [cleaned] and the trace grows by [cleanup_events]. *)
Lemma cleanupFiles_exact (env : Env) (imagePath outputBase : list N)
    (w : World) :
  cleanupFiles env imagePath outputBase w
  = (Ok tt,
     with_fs w
       (cleaned env imagePath (outputBase ++ lit ".txt")
          (outputBase ++ lit ".tsv") (fs w))
       (cleanup_events env imagePath (outputBase ++ lit ".txt")
          (outputBase ++ lit ".tsv") (fs w))).
Proof.
  change (cleanupFiles env imagePath outputBase)
    with (caught
            (let! e1 := fs_existsSync imagePath in
             (when e1 (fs_unlinkSync env imagePath);;
              let! e2 := fs_existsSync (outputBase ++ lit ".txt") in
              (when e2 (fs_unlinkSync env (outputBase ++ lit ".txt"));;
               let! e3 := fs_existsSync (outputBase ++ lit ".tsv") in
               when e3 (fs_unlinkSync env (outputBase ++ lit ".tsv")))))).
  rewrite caught_unlink_step. unfold cleaned, cleanup_events.
  destruct (remove_file env imagePath (fs w)) as [m1|]; [|done].
  rewrite caught_unlink_step, fs_with_fs.
  destruct (remove_file env (outputBase ++ lit ".txt") m1) as [m2|].
  2: { by rewrite with_fs_with_fs. }
  rewrite with_fs_with_fs, caught_unlink_last, fs_with_fs.
  destruct (remove_file env (outputBase ++ lit ".tsv") m2) as [m3|];
    rewrite with_fs_with_fs, <- ?app_assoc; by rewrite ?app_nil_r.
Qed.

Lemma responses_cleanup_events (env : Env) (p1 p2 p3 : list N)
    (m : gmap (list N) entry) :
  responses (cleanup_events env p1 p2 p3 m) = [].
Proof.
  unfold cleanup_events.
  repeat first [ rewrite responses_app | rewrite responses_unlink_attempt
               | case_match ]; done.
Qed.

(** [cleanupFiles] returns normally, sends nothing, and leaves the file
    system [cleaned] and the clock alone. *)
Lemma cleanupFiles_run (env : Env) (imagePath outputBase : list N)
    (w : World) :
  ∃ evs, responses evs = []
    ∧ cleanupFiles env imagePath outputBase w
      = (Ok tt,
         with_fs w (cleaned env imagePath (outputBase ++ lit ".txt")
                      (outputBase ++ lit ".tsv") (fs w)) evs).
Proof.
  eexists. split; [|apply cleanupFiles_exact]. apply responses_cleanup_events.
Qed.

Lemma cleaned_idemp (env : Env) (p1 p2 p3 : list N)
    (m : gmap (list N) entry) :
  cleaned env p1 p2 p3 (cleaned env p1 p2 p3 m) = cleaned env p1 p2 p3 m.
Proof.
  unfold cleaned at 2 3.
  destruct (remove_file env p1 m) as [m1|] eqn:E1.
  2: { unfold cleaned. by rewrite E1. }
  apply remove_file_Some in E1 as [_ ->].
  destruct (remove_file env p2 (delete p1 m)) as [m2|] eqn:E2.
  2: { unfold cleaned.
       rewrite (remove_file_absent env p1) by apply lookup_delete_eq.
       by rewrite E2. }
  pose proof E2 as E2'. apply remove_file_Some in E2' as [_ ->].
  destruct (remove_file env p3 (delete p2 (delete p1 m))) as [m3|] eqn:E3.
  2: { unfold cleaned.
       rewrite (remove_file_absent env p1)
         by (apply lookup_delete_None; right; apply lookup_delete_eq).
       rewrite (remove_file_absent env p2) by apply lookup_delete_eq.
       by rewrite E3. }
  apply remove_file_Some in E3 as [_ ->].
  unfold cleaned.
  rewrite (remove_file_absent env p1)
    by (do 2 (apply lookup_delete_None; right); apply lookup_delete_eq).
  rewrite (remove_file_absent env p2)
    by (apply lookup_delete_None; right; apply lookup_delete_eq).
  by rewrite (remove_file_absent env p3) by apply lookup_delete_eq.
Qed.

Lemma cleaned_files (env : Env) (p1 p2 p3 : list N)
    (m : gmap (list N) entry) :
  unlink_fails env p1 m = false → unlink_fails env p2 m = false →
  unlink_fails env p3 m = false →
  cleaned env p1 p2 p3 m = delete p3 (delete p2 (delete p1 m)).
Proof.
  intros H1 H2 H3. unfold cleaned.
  rewrite (proj2 (remove_file_Some env p1 m _) (conj H1 eq_refl)).
  rewrite (proj2 (remove_file_Some env p2 _ _)
             (conj (unlink_fails_delete _ _ _ _ H2) eq_refl)).
  by rewrite (proj2 (remove_file_Some env p3 _ _)
                (conj (unlink_fails_delete _ _ _ _
                         (unlink_fails_delete _ _ _ _ H3)) eq_refl)).
Qed.

Lemma cleanup_events_files (env : Env) (p1 p2 p3 : list N)
    (m : gmap (list N) entry) :
  unlink_fails env p1 m = false → unlink_fails env p2 m = false →
  unlink_fails env p3 m = false →
  cleanup_events env p1 p2 p3 m
  = unlink_attempt p1 m ++ unlink_attempt p2 (delete p1 m)
    ++ unlink_attempt p3 (delete p2 (delete p1 m)).
Proof.
  intros H1 H2 H3. unfold cleanup_events.
  rewrite (proj2 (remove_file_Some env p1 m _) (conj H1 eq_refl)).
  rewrite (proj2 (remove_file_Some env p2 _ _)
             (conj (unlink_fails_delete _ _ _ _ H2) eq_refl)).
  rewrite (proj2 (remove_file_Some env p3 _ _)
             (conj (unlink_fails_delete _ _ _ _
                      (unlink_fails_delete _ _ _ _ H3)) eq_refl)).
  by rewrite app_nil_r.
Qed.

Lemma cleaned_other (env : Env) (p1 p2 p3 q : list N)
    (m : gmap (list N) entry) :
  q ≠ p1 → q ≠ p2 → q ≠ p3 → cleaned env p1 p2 p3 m !! q = m !! q.
Proof.
  intros H1 H2 H3. unfold cleaned, remove_file.
  repeat case_match; simplify_eq; by rewrite ?lookup_delete_ne by done.
Qed.

(** Cleanup of three paths that do not exist does nothing at all. *)
Lemma cleanupFiles_nothing (env : Env) (imagePath outputBase : list N)
    (w : World) :
  fs w !! imagePath = None →
  fs w !! (outputBase ++ lit ".txt") = None →
  fs w !! (outputBase ++ lit ".tsv") = None →
  cleanupFiles env imagePath outputBase w = (Ok tt, w).
Proof.
  intros H1 H2 H3. rewrite cleanupFiles_exact.
  rewrite cleaned_files, cleanup_events_files
    by (by apply unlink_fails_absent).
  rewrite (delete_id _ _ H1), (delete_id _ _ H2), (delete_id _ _ H3).
  unfold unlink_attempt. rewrite H1, H2, H3. by rewrite with_fs_id.
Qed.

(** C9, as stated, fails. When the image path cannot be unlinked (here it
    is a directory) the exception is caught and the two deletions after it
    are skipped: the text output is present before and after cleanup. *)
Lemma cleanup_stops_at_first_error :
  fs world_image_dir !! (lit "output/image_1" ++ lit ".txt") = Some (File [])
  ∧ fs (cleanupFiles env_steady (lit "uploads") (lit "output/image_1")
          world_image_dir).2
      !! (lit "output/image_1" ++ lit ".txt") = Some (File []).
Proof. split; vm_compute; reflexivity. Qed.

(** C9, amended. For every image path and output basename, whatever the
    system refuses, cleanup never throws and touches no path but the three.
    It goes through the image, the .txt and the .tsv in this order,
    unlinking each that exists, and stops at the first deletion that fails
    (a directory, or a file the system refuses to unlink): what was removed
    before stays removed, the paths after it are not tried, and the error
    is logged. When no deletion fails none of the three exists afterwards
    and nothing is logged; a second cleanup then does nothing at all,
    whatever the system would refuse. After any first cleanup, a second one
    that meets the same refusals does not throw and leaves the file system
    as the first left it. *)
Theorem cleanupFiles_idempotent (env : Env) (imagePath outputBase : list N)
    (w : World) :
  let txt := outputBase ++ lit ".txt" in
  let tsv := outputBase ++ lit ".tsv" in
  let logged := [EvLog (lit "Cleanup error:")] in
  let run := cleanupFiles env imagePath outputBase w in
  let m1 := delete imagePath (fs w) in
  let m2 := delete txt m1 in
  run.1 = Ok tt
  ∧ (∀ q, q ≠ imagePath → q ≠ txt → q ≠ tsv → fs run.2 !! q = fs w !! q)
  ∧ (unlink_fails env imagePath (fs w) = true →
     run.2 = with_fs w (fs w) (EvUnlink imagePath :: logged))
  ∧ (unlink_fails env imagePath (fs w) = false →
     unlink_fails env txt m1 = true →
     run.2 = with_fs w m1
               (unlink_attempt imagePath (fs w) ++ EvUnlink txt :: logged))
  ∧ (unlink_fails env imagePath (fs w) = false →
     unlink_fails env txt m1 = false →
     unlink_fails env tsv m2 = true →
     run.2 = with_fs w m2
               (unlink_attempt imagePath (fs w) ++ unlink_attempt txt m1
                ++ EvUnlink tsv :: logged))
  ∧ (unlink_fails env imagePath (fs w) = false →
     unlink_fails env txt m1 = false →
     unlink_fails env tsv m2 = false →
     run.2 = with_fs w (delete tsv m2)
               (unlink_attempt imagePath (fs w) ++ unlink_attempt txt m1
                ++ unlink_attempt tsv m2)
     ∧ fs run.2 !! imagePath = None ∧ fs run.2 !! txt = None
     ∧ fs run.2 !! tsv = None
     ∧ ∀ env', cleanupFiles env' imagePath outputBase run.2 = (Ok tt, run.2))
  ∧ (cleanupFiles env imagePath outputBase run.2).1 = Ok tt
  ∧ fs (cleanupFiles env imagePath outputBase run.2).2 = fs run.2.
Proof.
  intros txt tsv logged run m1 m2. subst run.
  rewrite cleanupFiles_exact. fold txt tsv. cbn [fst snd].
  rewrite cleanupFiles_exact. fold txt tsv. cbn [fst snd fs with_fs].
  assert (∀ p (m : gmap (list N) entry),
            unlink_fails env p m = true → unlink_attempt p m = [EvUnlink p])
    as Hatt.
  { intros p m. unfold unlink_fails, unlink_attempt.
    by destruct (m !! p) as [[c|]|]. }
  split; [done|]. split; [by intros q; apply cleaned_other|].
  split; [|split; [|split; [|split; [|split; [done|apply cleaned_idemp]]]]].
  - intros H1. unfold cleaned, cleanup_events.
    rewrite (proj2 (remove_file_None _ _ _) H1). by rewrite (Hatt _ _ H1).
  - intros H1 H2. unfold cleaned, cleanup_events.
    rewrite (proj2 (remove_file_Some env imagePath _ _) (conj H1 eq_refl)).
    fold m1. rewrite (proj2 (remove_file_None _ _ _) H2).
    by rewrite (Hatt _ _ H2).
  - intros H1 H2 H3. unfold cleaned, cleanup_events.
    rewrite (proj2 (remove_file_Some env imagePath _ _) (conj H1 eq_refl)).
    fold m1. rewrite (proj2 (remove_file_Some env txt _ _) (conj H2 eq_refl)).
    fold m2. rewrite (proj2 (remove_file_None _ _ _) H3).
    by rewrite (Hatt _ _ H3).
  - intros H1 H2 H3. unfold cleaned, cleanup_events.
    rewrite (proj2 (remove_file_Some env imagePath _ _) (conj H1 eq_refl)).
    fold m1. rewrite (proj2 (remove_file_Some env txt _ _) (conj H2 eq_refl)).
    fold m2. rewrite (proj2 (remove_file_Some env tsv _ _) (conj H3 eq_refl)).
    rewrite app_nil_r. split; [done|]. cbn [fs with_fs].
    assert (delete tsv m2 !! imagePath = None
            ∧ delete tsv m2 !! txt = None ∧ delete tsv m2 !! tsv = None)
      as (G1 & G2 & G3).
    { subst m2 m1. rewrite !lookup_delete_None. repeat split.
      - right. right. by left.
      - right. by left.
      - by left. }
    split; [done|]. split; [done|]. split; [done|].
    intros env'. by apply cleanupFiles_nothing.
Qed.

Lemma cleanupFiles_idempotent_witness :
  let run := cleanupFiles env_steady (lit "uploads/image_1.png")
               (lit "output/image_1") world_staged in
  fs run.2 !! lit "uploads/image_1.png" = None
  ∧ fs run.2 !! (lit "output/image_1" ++ lit ".txt") = None
  ∧ fs run.2 !! (lit "output/image_1" ++ lit ".tsv") = None.
Proof.
  intros run.
  pose proof (cleanupFiles_idempotent env_steady (lit "uploads/image_1.png")
                (lit "output/image_1") world_staged)
    as (_ & _ & _ & _ & _ & H & _).
  destruct H as (_ & H); [vm_compute; reflexivity..|].
  destruct H as (H1 & H2 & H3 & _). done.
Defined.

(** A file the system refuses to unlink stops the cleanup as a directory
    does: the image is removed, the text output stays, the TSV output is
    not tried, and the error is logged. *)
Example cleanup_stops_at_refused_file :
  cleanupFiles env_locked (lit "uploads/image_1.png") (lit "output/image_1")
    world_three
  = (Ok tt,
     {| fs := {[ lit "output/image_1.txt" := File [];
                 lit "output/image_1.tsv" := File [] ]};
        ticks := 0;
        trace := [EvUnlink (lit "uploads/image_1.png");
                  EvUnlink (lit "output/image_1.txt");
                  EvLog (lit "Cleanup error:")] |}).
Proof. vm_compute. reflexivity. Qed.

(** ** Staging paths *)

Lemma lit_inj s1 s2 : lit s1 = lit s2 → s1 = s2.
Proof.
  revert s2. induction s1 as [|c s1 IH]; intros [|d s2] H;
    try done; unfold lit in H; fold lit in H; simplify_eq.
  f_equal; [|by apply IH].
  rewrite <- (Ascii.ascii_N_embedding c), <- (Ascii.ascii_N_embedding d).
  congruence.
Qed.

Lemma number_to_string_inj t u :
  number_to_string t = number_to_string u → t = u.
Proof. intros H. apply lit_inj in H. by apply (inj pretty) in H. Qed.

(** C2, as stated, fails. When the clock advances between the two
    [Date.now()] calls of a request the image is [image_1000.png] and the
    basename [image_1001]: no token fits both. And two requests that read
    the same clock value, one after the other, get the same pair. *)
Lemma staged_pair_not_unique :
  (stage SLASH env_ticking empty_world).1
  = Ok (lit "uploads/image_1000.png", lit "output/image_1001")
  ∧ (¬ ∃ tok,
        lit "uploads/image_1000.png"
        = path_join SLASH (lit "uploads") (lit "image_" ++ tok ++ lit ".png")
        ∧ lit "output/image_1001"
          = path_join SLASH (lit "output") (lit "image_" ++ tok))
  ∧ (stage SLASH env_steady (stage SLASH env_steady empty_world).2).1
    = (stage SLASH env_steady empty_world).1.
Proof.
  split; [reflexivity|]. split; [|reflexivity].
  intros (tok & H1 & H2).
  vm_compute in H1, H2. simplify_eq.
Qed.

Section Staging.

Variable path_sep : N.

(** C2, amended. For every request that reaches staging, the image path is
    image_<t1>.png in the input directory and the output basename is
    image_<t2> in the output directory, where t1 and t2 are the two
    successive clock readings of the request. The two tokens are the same
    exactly when the clock did not advance between the readings, and two
    requests get the same pair exactly when their readings coincide. *)
Theorem stage_paths (env env' : Env) (w w' : World) :
  let t1 := clock env (ticks w) in
  let t2 := clock env (S (ticks w)) in
  let imagePath :=
    path_join path_sep (lit "uploads")
      (lit "image_" ++ number_to_string t1 ++ lit ".png") in
  let outputPath :=
    path_join path_sep (lit "output") (lit "image_" ++ number_to_string t2) in
  stage path_sep env w = (Ok (imagePath, outputPath), after_stage w)
  ∧ (number_to_string t1 = number_to_string t2 ↔ t1 = t2)
  ∧ ((stage path_sep env w).1 = (stage path_sep env' w').1
     ↔ t1 = clock env' (ticks w') ∧ t2 = clock env' (S (ticks w'))).
Proof.
  intros t1 t2 imagePath outputPath.
  split; [reflexivity|]. split.
  - split; [apply number_to_string_inj|by intros ->].
  - change ((stage path_sep env w).1) with
      (Ok (A:=list N * list N) (imagePath, outputPath)).
    change ((stage path_sep env' w').1) with
      (Ok (A:=list N * list N)
         (path_join path_sep (lit "uploads")
            (lit "image_" ++ number_to_string (clock env' (ticks w'))
             ++ lit ".png"),
          path_join path_sep (lit "output")
            (lit "image_" ++ number_to_string (clock env' (S (ticks w')))))).
    subst imagePath outputPath. unfold path_join. split.
    + intros [= H1 H2]. apply app_inv_tail in H1.
      split; by apply number_to_string_inj.
    + by intros [-> ->].
Qed.

End Staging.

(** ** The handlers *)

Lemma bind_ok {A B : Type} (m : M A) (k : A → M B) w a w' :
  m w = (Ok a, w') → bind m k w = k a w'.
Proof. intros H. unfold bind. by rewrite H. Qed.

Lemma seq_ok {A B : Type} (m : M A) (k : M B) w a w' :
  m w = (Ok a, w') → (m;; k) w = k w'.
Proof. intros H. unfold mbind, M_bind, bind. by rewrite H. Qed.

Lemma cleanup_then_respond (env : Env) (imagePath outputBase : list N)
    (status : Z) (body : Body) (w : World) :
  ∃ evs, responses evs = []
    ∧ (cleanupFiles env imagePath outputBase;; respond status body) w
      = (Ok tt,
         with_fs w (cleaned env imagePath (outputBase ++ lit ".txt")
                      (outputBase ++ lit ".tsv") (fs w))
           (evs ++ [EvRespond status body])).
Proof.
  destruct (cleanupFiles_run env imagePath outputBase w) as (evs & Hq & He).
  exists evs. split; [done|].
  rewrite (seq_ok _ _ _ _ _ He). unfold respond. by rewrite emit_with_fs.
Qed.

Lemma fs_after_stage w : fs (after_stage w) = fs w.
Proof. reflexivity. Qed.

(** [exec] with a child that exits calls the callback in the world the
    child left; with one that never exits it returns and nothing follows. *)
Lemma exec_run env command (callback : bool → list N → M unit) w :
  exec env command callback w
  = match exec_failed (run_command env command (fs w)) with
    | Some err =>
        callback err (exec_stderr (run_command env command (fs w)))
          (with_fs w (exec_fs (run_command env command (fs w)))
             [EvExec command])
    | None =>
        (Ok tt,
         with_fs w (exec_fs (run_command env command (fs w)))
           [EvExec command])
    end.
Proof.
  unfold exec, emit, get_fs, set_fs, with_fs, mbind, M_bind, bind, ret.
  cbn. by destruct (exec_failed _).
Qed.

Lemma fs_writeFile_done env path data w :
  fs w !! path ≠ Some Dir → write_result env = WriteDone →
  fs_writeFile env path data w
  = (Ok None, with_fs w (<[path := File data]> (fs w)) [EvWriteFile path]).
Proof.
  intros Hd Hw.
  unfold fs_writeFile, emit, get_fs, set_fs, with_fs, mbind, M_bind, bind, ret.
  cbn. rewrite Hw. by destruct (fs w !! path) as [[c|]|].
Qed.

Lemma Set_has_valid v :
  Set_has VALID_BBOX_TYPES v = true ↔ v ∈ bbox_type_values.
Proof.
  unfold bbox_type_values. rewrite !elem_of_cons, elem_of_nil.
  destruct v; simpl; try (split; [done|intuition discriminate]).
  rewrite bool_decide_eq_true. unfold VALID_BBOX_TYPES.
  rewrite !elem_of_union, !elem_of_singleton. intuition congruence.
Qed.

Lemma truthy_valid v : v ∈ bbox_type_values → truthy v = true.
Proof.
  unfold bbox_type_values. rewrite !elem_of_cons, elem_of_nil.
  intros [->|[->|[->|[->|[->|[]]]]]]; reflexivity.
Qed.

Lemma map_result_Forall2 {A B : Type} (f : A → result B) l bs :
  map_result f l = Ok bs → Forall2 (λ a b, f a = Ok b) l bs.
Proof.
  revert bs. induction l as [|a l IH]; intros bs H; simpl in H.
  - by simplify_eq.
  - destruct (f a) as [b|] eqn:Ha; [|done].
    destruct (map_result f l) as [bs'|]; [|done]. simplify_eq.
    constructor; [done|by apply IH].
Qed.

(** The record of a row does not depend on its first field, [level]. *)
Lemma parse_line_ignores_level level level' rest :
  Forall (λ f, TAB ∉ f) (level :: level' :: rest) →
  parse_line (join TAB (level :: rest)) = parse_line (join TAB (level' :: rest)).
Proof.
  intros Hf. apply Forall_cons in Hf as [Hl Hf].
  apply Forall_cons in Hf as [Hl' Hf].
  unfold parse_line. rewrite !split_join by (done || by constructor).
  reflexivity.
Qed.

Section Handlers.

Variable path_sep : N.
Variable Buffer_from_base64 : jsvalue → option (list byte).
Variable utf8_decode : list byte → list N.

Lemma fs_readFile_ok env path content w :
  fs w !! path = Some (File content) → read_denied env path = false →
  fs_readFile utf8_decode env path w
  = (Ok (Some (utf8_decode content)), with_fs w (fs w) [EvReadFile path]).
Proof.
  intros Hf Hr.
  unfold fs_readFile, emit, get_fs, with_fs, mbind, M_bind, bind, ret.
  cbn. by rewrite Hf, Hr.
Qed.

Lemma Buffer_from_ok v buffer w :
  Buffer_from_base64 v = Some buffer →
  Buffer_from Buffer_from_base64 v w = (Ok buffer, w).
Proof. intros H. unfold Buffer_from. by rewrite H. Qed.

Lemma stage_run env w :
  stage path_sep env w
  = (Ok (imagePath_at path_sep env w, outputPath_at path_sep env w),
     after_stage w).
Proof. reflexivity. Qed.

(** C10. For every /api/get-text request with a valid image, when the image
    is written, the recognizer reports no error and its text output can be
    read, the handler cleans up and then responds 200 with success and the
    text of <outputBase>.txt without its leading and trailing whitespace:
    the content is that text between two runs of whitespace, and the text
    has no whitespace at either end. It sends nothing else. *)
Theorem get_text_success (env : Env) (req : Request) (w : World)
    (buffer content : list byte) :
  let imagePath := imagePath_at path_sep env w in
  let outputPath := outputPath_at path_sep env w in
  let r := run_command env (text_command imagePath outputPath)
             (<[imagePath := File buffer]> (fs w)) in
  truthy (base64_image req) = true →
  isValidBase64Image Buffer_from_base64 (base64_image req) = true →
  Buffer_from_base64 (base64_image req) = Some buffer →
  fs w !! imagePath ≠ Some Dir →
  write_result env = WriteDone →
  exec_failed r = Some false →
  exec_fs r !! (outputPath ++ lit ".txt") = Some (File content) →
  read_denied env (outputPath ++ lit ".txt") = false →
  (∃ evs, responses evs = []
     ∧ get_text path_sep Buffer_from_base64 utf8_decode env req w
       = (Ok tt,
          with_fs (after_stage w)
            (cleaned env imagePath (outputPath ++ lit ".txt")
               (outputPath ++ lit ".tsv") (exec_fs r))
            (evs ++ [EvRespond 200 (BodyText (trim (utf8_decode content)))])))
  ∧ ∃ before after,
      utf8_decode content = before ++ trim (utf8_decode content) ++ after
      ∧ blank before = true ∧ blank after = true
      ∧ unpadded (trim (utf8_decode content)).
Proof.
  intros imagePath outputPath r Ht Hv Hb Hd Hw Hx Hf Hr.
  split; [|apply trim_spec].
  unfold get_text. rewrite Ht, Hv. cbn [negb orb].
  rewrite (bind_ok _ _ _ _ _ (Buffer_from_ok _ _ _ Hb)).
  rewrite (bind_ok _ _ _ _ _ (stage_run env w)).
  cbn [fst snd]. fold imagePath outputPath.
  rewrite (bind_ok _ _ _ _ _
             (fs_writeFile_done env imagePath buffer (after_stage w) Hd Hw)).
  rewrite exec_run, with_fs_with_fs, !fs_with_fs, !fs_after_stage.
  fold (text_command imagePath outputPath). fold r. rewrite Hx.
  erewrite bind_ok; [|apply fs_readFile_ok; [exact Hf|exact Hr]].
  rewrite with_fs_with_fs, fs_with_fs.
  destruct (cleanup_then_respond env imagePath outputPath 200
              (BodyText (trim (utf8_decode content)))
              (with_fs (after_stage w) (exec_fs r)
                 (([EvWriteFile imagePath]
                   ++ [EvExec (text_command imagePath outputPath)])
                  ++ [EvReadFile (outputPath ++ lit ".txt")])))
    as (evs & Hq & ->).
  rewrite with_fs_with_fs, fs_with_fs, app_assoc.
  eexists. split; [|reflexivity]. by rewrite !responses_app, Hq.
Qed.

(** A missing or invalid image is answered with 400 by both handlers, and
    nothing else happens. *)
Lemma invalid_image_rejected (env : Env) (req : Request) (w : World) :
  truthy (base64_image req) = false
  ∨ isValidBase64Image Buffer_from_base64 (base64_image req) = false →
  get_text path_sep Buffer_from_base64 utf8_decode env req w
  = (Ok tt,
     with_fs w (fs w)
       [EvRespond 400 (BodyError (lit "Invalid base64_image."))])
  ∧ get_bboxes path_sep Buffer_from_base64 utf8_decode env req w
    = (Ok tt,
       with_fs w (fs w)
         [EvRespond 400 (BodyError (lit "Invalid base64_image."))]).
Proof.
  intros H. unfold get_text, get_bboxes.
  assert (negb (truthy (base64_image req))
          || negb (isValidBase64Image Buffer_from_base64 (base64_image req))
          = true) as ->; [|done].
  destruct H as [-> | ->]; [done|apply orb_true_r].
Qed.

(** C6. For every /api/get-bboxes request whose bbox_type is absent or is
    not one of word, line, paragraph, block and page, the handler responds
    400 and does nothing else: it does not read the clock, writes no file
    and does not run the recognizer. *)
Theorem get_bboxes_rejects_bbox_type (env : Env) (req : Request) (w : World) :
  bbox_type req ∉ bbox_type_values →
  ∃ message,
    get_bboxes path_sep Buffer_from_base64 utf8_decode env req w
    = (Ok tt, with_fs w (fs w) [EvRespond 400 (BodyError message)]).
Proof.
  intros Hbt. unfold get_bboxes.
  destruct (negb (truthy (base64_image req))
            || negb (isValidBase64Image Buffer_from_base64 (base64_image req))).
  - by eexists.
  - assert (Set_has VALID_BBOX_TYPES (bbox_type req) = false) as ->.
    { apply not_true_is_false. by rewrite Set_has_valid. }
    rewrite orb_true_r. by eexists.
Qed.

(** C8. For every /api/get-bboxes request with a valid image and any valid
    bbox_type, when the image is written, the recognizer reports no error
    and its TSV output is read and parsed, the handler responds 200 with the
    record of every data line that is not blank, in order, whatever its
    level field, and with the bbox_type of the request unchanged. *)
Theorem get_bboxes_success (env : Env) (req : Request) (w : World)
    (buffer content : list byte) (bboxes : list BoundingBox) :
  let imagePath := imagePath_at path_sep env w in
  let outputPath := outputPath_at path_sep env w in
  let r := run_command env (tsv_command imagePath outputPath)
             (<[imagePath := File buffer]> (fs w)) in
  truthy (base64_image req) = true →
  isValidBase64Image Buffer_from_base64 (base64_image req) = true →
  Buffer_from_base64 (base64_image req) = Some buffer →
  bbox_type req ∈ bbox_type_values →
  fs w !! imagePath ≠ Some Dir →
  write_result env = WriteDone →
  exec_failed r = Some false →
  exec_fs r !! (outputPath ++ lit ".tsv") = Some (File content) →
  read_denied env (outputPath ++ lit ".tsv") = false →
  parse_tsv (utf8_decode content) = Ok bboxes →
  (∃ evs, responses evs = []
     ∧ get_bboxes path_sep Buffer_from_base64 utf8_decode env req w
       = (Ok tt,
          with_fs (after_stage w)
            (cleaned env imagePath (outputPath ++ lit ".txt")
               (outputPath ++ lit ".tsv") (exec_fs r))
            (evs ++ [EvRespond 200 (BodyBboxes bboxes (bbox_type req))])))
  ∧ Forall2 (λ line b, parse_line line = Ok b)
      (List.filter (fun line => negb (blank line))
         (drop 1 (split LF (utf8_decode content))))
      bboxes
  ∧ (∀ level level' rest,
       Forall (λ f, TAB ∉ f) (level :: level' :: rest) →
       parse_line (join TAB (level :: rest))
       = parse_line (join TAB (level' :: rest))).
Proof.
  intros imagePath outputPath r Ht Hv Hb Hbt Hd Hw Hx Hf Hr Hp.
  split; [|split; [|apply parse_line_ignores_level]].
  - unfold get_bboxes. rewrite Ht, Hv. cbn [negb orb].
    rewrite (truthy_valid _ Hbt), (proj2 (Set_has_valid _) Hbt).
    cbn [negb orb].
    rewrite (bind_ok _ _ _ _ _ (Buffer_from_ok _ _ _ Hb)).
    rewrite (bind_ok _ _ _ _ _ (stage_run env w)).
    cbn [fst snd]. fold imagePath outputPath.
    rewrite (bind_ok _ _ _ _ _
               (fs_writeFile_done env imagePath buffer (after_stage w) Hd Hw)).
    rewrite exec_run, with_fs_with_fs, !fs_with_fs, !fs_after_stage.
    fold (tsv_command imagePath outputPath). fold r. rewrite Hx.
    erewrite bind_ok; [|apply fs_readFile_ok; [exact Hf|exact Hr]].
    rewrite with_fs_with_fs, fs_with_fs.
    erewrite bind_ok; [|unfold lift; by rewrite Hp].
    destruct (cleanup_then_respond env imagePath outputPath 200
                (BodyBboxes bboxes (bbox_type req))
                (with_fs (after_stage w) (exec_fs r)
                   (([EvWriteFile imagePath]
                     ++ [EvExec (tsv_command imagePath outputPath)])
                    ++ [EvReadFile (outputPath ++ lit ".tsv")])))
      as (evs & Hq & ->).
    rewrite with_fs_with_fs, fs_with_fs, app_assoc.
    eexists. split; [|reflexivity]. by rewrite !responses_app, Hq.
  - unfold parse_tsv in Hp. apply map_result_Forall2 in Hp.
    erewrite filter_ext; [exact Hp|].
    intros line. simpl. by rewrite truthy_trim.
Qed.

Lemma fs_readFile_run env path w :
  fs_readFile utf8_decode env path w
  = (Ok (read_result utf8_decode env path (fs w)), with_fs w (fs w) [EvReadFile path]).
Proof.
  unfold fs_readFile, read_result, emit, get_fs, with_fs, mbind, M_bind, bind,
    ret.
  cbn. destruct (fs w !! path) as [[c|]|]; [|done..].
  by destruct (read_denied env path).
Qed.

Lemma log_cleanup_respond (env : Env) (message imagePath outputBase : list N)
    (status : Z) (body : Body) (w : World) (m : gmap (list N) entry)
    (evs : list event) :
  responses evs = [] →
  ∃ evs', responses evs' = []
    ∧ (console_error message;; cleanupFiles env imagePath outputBase;;
       respond status body) (with_fs w m evs)
      = (Ok tt,
         with_fs w (cleaned env imagePath (outputBase ++ lit ".txt")
                      (outputBase ++ lit ".tsv") m)
           (evs' ++ [EvRespond status body])).
Proof.
  intros Hq. unfold console_error.
  rewrite (seq_ok _ _ _ _ _ (emit_with_fs _ _ _ _)).
  destruct (cleanup_then_respond env imagePath outputBase status body
              (with_fs w m (evs ++ [EvLog message]))) as (evs' & Hq' & ->).
  rewrite with_fs_with_fs, fs_with_fs, app_assoc.
  eexists. split; [|reflexivity]. by rewrite !responses_app, Hq, Hq'.
Qed.

(** Once the image is written and the recognizer has exited, every path of
    /api/get-text ends with [cleanupFiles] followed by the one response of
    the request. *)
Lemma get_text_cleans_after_write (env : Env) (req : Request) (w : World)
    (buffer : list byte) :
  let imagePath := imagePath_at path_sep env w in
  let outputPath := outputPath_at path_sep env w in
  let r := run_command env (text_command imagePath outputPath)
             (<[imagePath := File buffer]> (fs w)) in
  truthy (base64_image req) = true →
  isValidBase64Image Buffer_from_base64 (base64_image req) = true →
  Buffer_from_base64 (base64_image req) = Some buffer →
  fs w !! imagePath ≠ Some Dir →
  write_result env = WriteDone →
  is_Some (exec_failed r) →
  ∃ evs status body, responses evs = []
    ∧ get_text path_sep Buffer_from_base64 utf8_decode env req w
      = (Ok tt,
         with_fs (after_stage w)
           (cleaned env imagePath (outputPath ++ lit ".txt")
              (outputPath ++ lit ".tsv") (exec_fs r))
           (evs ++ [EvRespond status body])).
Proof.
  intros imagePath outputPath r Ht Hv Hb Hd Hw [err Hx].
  unfold get_text. rewrite Ht, Hv. cbn [negb orb].
  rewrite (bind_ok _ _ _ _ _ (Buffer_from_ok _ _ _ Hb)).
  rewrite (bind_ok _ _ _ _ _ (stage_run env w)).
  cbn [fst snd]. fold imagePath outputPath.
  rewrite (bind_ok _ _ _ _ _
             (fs_writeFile_done env imagePath buffer (after_stage w) Hd Hw)).
  rewrite exec_run, with_fs_with_fs, !fs_with_fs, !fs_after_stage.
  fold (text_command imagePath outputPath). fold r. rewrite Hx.
  destruct err.
  - destruct (log_cleanup_respond env (lit "Tesseract Error:") imagePath
                outputPath 500
                (BodyError (lit "Error processing image: " ++ exec_stderr r))
                (after_stage w) (exec_fs r)
                ([EvWriteFile imagePath]
                 ++ [EvExec (text_command imagePath outputPath)]) eq_refl)
      as (evs & Hq & ->).
    by exists evs, 500, (BodyError (lit "Error processing image: "
                                    ++ exec_stderr r)).
  - rewrite (bind_ok _ _ _ _ _ (fs_readFile_run env _ _)).
    rewrite with_fs_with_fs, fs_with_fs.
    destruct (read_result utf8_decode env (outputPath ++ lit ".txt") (exec_fs r))
      as [data|].
    + destruct (cleanup_then_respond env imagePath outputPath 200
                  (BodyText (trim data))
                  (with_fs (after_stage w) (exec_fs r)
                     (([EvWriteFile imagePath]
                       ++ [EvExec (text_command imagePath outputPath)])
                      ++ [EvReadFile (outputPath ++ lit ".txt")])))
        as (evs & Hq & ->).
      rewrite with_fs_with_fs, fs_with_fs, app_assoc.
      eexists _, 200, (BodyText (trim data)).
      split; [|reflexivity]. by rewrite !responses_app, Hq.
    + destruct (log_cleanup_respond env (lit "Read File Error:") imagePath
                  outputPath 500 (BodyError (lit "Error reading output file."))
                  (after_stage w) (exec_fs r)
                  (([EvWriteFile imagePath]
                    ++ [EvExec (text_command imagePath outputPath)])
                   ++ [EvReadFile (outputPath ++ lit ".txt")]) eq_refl)
        as (evs & Hq & ->).
      by exists evs, 500, (BodyError (lit "Error reading output file.")).
Qed.

(** Once the image is written and the recognizer has exited, every path
    of /api/get-bboxes on which a response is sent ends with [cleanupFiles]
    followed by that response;
    the one other path is the parser throwing, where nothing is sent and
    nothing is cleaned. *)
Lemma get_bboxes_cleans_after_write (env : Env) (req : Request) (w : World)
    (buffer : list byte) :
  let imagePath := imagePath_at path_sep env w in
  let outputPath := outputPath_at path_sep env w in
  let r := run_command env (tsv_command imagePath outputPath)
             (<[imagePath := File buffer]> (fs w)) in
  truthy (base64_image req) = true →
  isValidBase64Image Buffer_from_base64 (base64_image req) = true →
  Buffer_from_base64 (base64_image req) = Some buffer →
  bbox_type req ∈ bbox_type_values →
  fs w !! imagePath ≠ Some Dir →
  write_result env = WriteDone →
  is_Some (exec_failed r) →
  ∃ evs, responses evs = []
    ∧ ((∃ status body,
          get_bboxes path_sep Buffer_from_base64 utf8_decode env req w
          = (Ok tt,
             with_fs (after_stage w)
               (cleaned env imagePath (outputPath ++ lit ".txt")
                  (outputPath ++ lit ".tsv") (exec_fs r))
               (evs ++ [EvRespond status body])))
       ∨ get_bboxes path_sep Buffer_from_base64 utf8_decode env req w
         = (Throw trim_of_undefined,
            with_fs (after_stage w) (exec_fs r) evs)).
Proof.
  intros imagePath outputPath r Ht Hv Hb Hbt Hd Hw [err Hx].
  unfold get_bboxes. rewrite Ht, Hv. cbn [negb orb].
  rewrite (truthy_valid _ Hbt), (proj2 (Set_has_valid _) Hbt).
  cbn [negb orb].
  rewrite (bind_ok _ _ _ _ _ (Buffer_from_ok _ _ _ Hb)).
  rewrite (bind_ok _ _ _ _ _ (stage_run env w)).
  cbn [fst snd]. fold imagePath outputPath.
  rewrite (bind_ok _ _ _ _ _
             (fs_writeFile_done env imagePath buffer (after_stage w) Hd Hw)).
  rewrite exec_run, with_fs_with_fs, !fs_with_fs, !fs_after_stage.
  fold (tsv_command imagePath outputPath). fold r. rewrite Hx.
  destruct err.
  - destruct (log_cleanup_respond env (lit "Tesseract Error:") imagePath
                outputPath 500
                (BodyError (lit "Error processing image: " ++ exec_stderr r))
                (after_stage w) (exec_fs r)
                ([EvWriteFile imagePath]
                 ++ [EvExec (tsv_command imagePath outputPath)]) eq_refl)
      as (evs & Hq & ->).
    exists evs. split; [done|]. left. by eexists _, _.
  - rewrite (bind_ok _ _ _ _ _ (fs_readFile_run env _ _)).
    rewrite with_fs_with_fs, fs_with_fs.
    destruct (read_result utf8_decode env (outputPath ++ lit ".tsv") (exec_fs r))
      as [data|].
    + destruct (parse_tsv data) as [bboxes|e] eqn:Hp.
      * erewrite bind_ok; [|reflexivity].
        destruct (cleanup_then_respond env imagePath outputPath 200
                    (BodyBboxes bboxes (bbox_type req))
                    (with_fs (after_stage w) (exec_fs r)
                       (([EvWriteFile imagePath]
                         ++ [EvExec (tsv_command imagePath outputPath)])
                        ++ [EvReadFile (outputPath ++ lit ".tsv")])))
          as (evs & Hq & ->).
        rewrite with_fs_with_fs, fs_with_fs, app_assoc.
        eexists. split; [|left; by eexists _, _].
        by rewrite !responses_app, Hq.
      * assert (e = trim_of_undefined) as ->.
        { unfold parse_tsv in Hp.
          revert Hp. generalize (List.filter
            (fun line => truthy_string (trim line)) (drop 1 (split LF data))).
          intros ls. revert e. induction ls as [|l ls IH]; intros e; [done|].
          simpl. destruct (parse_line l) eqn:Hl.
          - destruct (map_result parse_line ls); [done|].
            intros [= <-]. by apply IH.
          - intros [= <-]. by apply parse_line_throws in Hl. }
        unfold bind, lift. eexists. split; [|by right]. done.
    + destruct (log_cleanup_respond env (lit "Read File Error:") imagePath
                  outputPath 500 (BodyError (lit "Error reading output file."))
                  (after_stage w) (exec_fs r)
                  (([EvWriteFile imagePath]
                    ++ [EvExec (tsv_command imagePath outputPath)])
                   ++ [EvReadFile (outputPath ++ lit ".tsv")]) eq_refl)
        as (evs & Hq & ->).
      exists evs. split; [done|]. left. by eexists _, _.
Qed.

End Handlers.

(** ** The handlers on the concrete platform *)

Lemma get_bboxes_rejects_bbox_type_witness :
  ∃ message,
    get_bboxes SLASH base64_lenient toString_utf8 env_steady
      (png_request JUndefined) empty_world
    = (Ok tt,
       with_fs empty_world (fs empty_world)
         [EvRespond 400 (BodyError message)]).
Proof.
  apply (get_bboxes_rejects_bbox_type SLASH base64_lenient toString_utf8
           env_steady (png_request JUndefined) empty_world).
  simpl. unfold bbox_type_values.
  rewrite !not_elem_of_cons. repeat split; try discriminate.
  apply not_elem_of_nil.
Defined.

Lemma get_text_success_witness :
  ∃ evs, responses evs = []
    ∧ get_text SLASH base64_lenient toString_utf8 env_text
        (png_request JUndefined) empty_world
      = (Ok tt,
         with_fs (after_stage empty_world)
           (cleaned env_text (lit "uploads/image_1000.png")
              (lit "output/image_1000" ++ lit ".txt")
              (lit "output/image_1000" ++ lit ".tsv")
              (exec_fs
                 (run_command env_text
                    (text_command (lit "uploads/image_1000.png")
                       (lit "output/image_1000"))
                    (<[lit "uploads/image_1000.png" := File png_bytes]>
                       (fs empty_world)))))
           (evs ++ [EvRespond 200 (BodyText (lit "hi there"))])).
Proof.
  refine (proj1 (get_text_success SLASH base64_lenient toString_utf8 env_text
                   (png_request JUndefined) empty_world png_bytes
                   (ascii_encode (lit "  hi there ")) _ _ _ _ _ _ _ _)).
  - reflexivity.
  - reflexivity.
  - reflexivity.
  - vm_compute. discriminate.
  - reflexivity.
  - reflexivity.
  - vm_compute. reflexivity.
  - reflexivity.
Defined.

Lemma get_bboxes_success_witness :
  (∃ evs, responses evs = []
     ∧ get_bboxes SLASH base64_lenient toString_utf8 env_tsv
         (png_request (JString (lit "paragraph"))) empty_world
       = (Ok tt,
          with_fs (after_stage empty_world)
            (cleaned env_tsv (lit "uploads/image_1000.png")
               (lit "output/image_1000" ++ lit ".txt")
               (lit "output/image_1000" ++ lit ".tsv")
               (exec_fs
                  (run_command env_tsv
                     (tsv_command (lit "uploads/image_1000.png")
                        (lit "output/image_1000"))
                     (<[lit "uploads/image_1000.png" := File png_bytes]>
                        (fs empty_world)))))
            (evs ++ [EvRespond 200
                       (BodyBboxes [line_box; hello_box]
                          (JString (lit "paragraph")))])))
  ∧ Forall2 (λ line b, parse_line line = Ok b)
      [tsv_row_line; tsv_row_hello] [line_box; hello_box].
Proof.
  refine (let H := get_bboxes_success SLASH base64_lenient toString_utf8 env_tsv
                     (png_request (JString (lit "paragraph"))) empty_world
                     png_bytes (ascii_encode tsv_two_levels)
                     [line_box; hello_box] _ _ _ _ _ _ _ _ _ _ in
          conj (proj1 H) (proj1 (proj2 H))).
  - reflexivity.
  - reflexivity.
  - reflexivity.
  - simpl. unfold bbox_type_values. rewrite !elem_of_cons. auto.
  - vm_compute. discriminate.
  - reflexivity.
  - reflexivity.
  - vm_compute. reflexivity.
  - reflexivity.
  - vm_compute. reflexivity.
Defined.

(** C1 fails on the write-failure path. When [fs.writeFile] fails after it
    has created the image file (a full disk leaves the empty file), both
    handlers log the error and respond 500 without calling [cleanupFiles]:
    nothing is unlinked and the image file is still there when the response
    is sent. *)
Lemma write_failure_skips_cleanup :
  let text_run :=
    get_text SLASH base64_lenient toString_utf8 env_disk_full
      (png_request JUndefined) empty_world in
  let bboxes_run :=
    get_bboxes SLASH base64_lenient toString_utf8 env_disk_full
      (png_request (JString (lit "word"))) empty_world in
  let expected :=
    [EvWriteFile (lit "uploads/image_1000.png");
     EvLog (lit "Write File Error:");
     EvRespond 500 (BodyError (lit "Error saving image."))] in
  empty_world.(fs) !! lit "uploads/image_1000.png" = None
  ∧ text_run.1 = Ok tt
  ∧ trace text_run.2 = expected
  ∧ fs text_run.2 !! lit "uploads/image_1000.png" = Some (File [])
  ∧ bboxes_run.1 = Ok tt
  ∧ trace bboxes_run.2 = expected
  ∧ fs bboxes_run.2 !! lit "uploads/image_1000.png" = Some (File []).
Proof. repeat split; vm_compute; reflexivity. Qed.

(** * Further properties of the handlers *)

Lemma fs_writeFile_failed env path data (w : World) :
  write_fails env path (fs w) →
  ∃ e m',
    fs_writeFile env path data w
    = (Ok (Some e), with_fs w m' [EvWriteFile path])
    ∧ ∀ q, q ≠ path → m' !! q = fs w !! q.
Proof.
  unfold write_fails. intros Hf.
  unfold fs_writeFile, emit, get_fs, set_fs, with_fs, mbind, M_bind, bind, ret.
  cbn.
  assert (fs w !! path = Some Dir
          ∨ (fs w !! path ≠ Some Dir ∧ write_result env ≠ WriteDone))
    as [Hp|[Hp Hr]].
  { destruct (fs w !! path) as [[c|]|]; [|by left|]; right;
      (split; [done|]); by destruct Hf. }
  - rewrite Hp. by eauto.
  - destruct (write_result env) as [| |n]; [done| |].
    + destruct (fs w !! path) as [[c|]|]; [|done|]; by eauto.
    + destruct (fs w !! path) as [[c|]|]; [|done|];
        (eexists _, _; split; [reflexivity|]);
        intros q Hq; by rewrite lookup_insert_ne.
Qed.


Lemma map_parse_line_throws ls e :
  map_result parse_line ls = Throw e → e = trim_of_undefined.
Proof.
  induction ls as [|l ls IH]; simpl; [done|].
  destruct (parse_line l) eqn:Hl.
  - destruct (map_result parse_line ls); [done|].
    intros [= <-]. by apply IH.
  - intros [= <-]. by apply parse_line_throws in Hl.
Qed.

Lemma parse_tsv_throws data e :
  parse_tsv data = Throw e → e = trim_of_undefined.
Proof. apply map_parse_line_throws. Qed.



Section Outcomes.

Variable path_sep : N.
Variable Buffer_from_base64 : jsvalue → option (list byte).
Variable utf8_decode : list byte → list N.


(** After a successful write, /api/get-text runs the recognizer and, once
    it has exited, cleans up and sends [text_response]. *)
Lemma get_text_after_write_run (env : Env) (req : Request) (w : World)
    (buffer : list byte) (err : bool) :
  let imagePath := imagePath_at path_sep env w in
  let outputPath := outputPath_at path_sep env w in
  let r := run_command env (text_command imagePath outputPath)
             (<[imagePath := File buffer]> (fs w)) in
  truthy (base64_image req) = true →
  isValidBase64Image Buffer_from_base64 (base64_image req) = true →
  Buffer_from_base64 (base64_image req) = Some buffer →
  fs w !! imagePath ≠ Some Dir →
  write_result env = WriteDone →
  exec_failed r = Some err →
  ∃ evs, responses evs = []
    ∧ get_text path_sep Buffer_from_base64 utf8_decode env req w
      = (Ok tt,
         with_fs (after_stage w)
           (cleaned env imagePath (outputPath ++ lit ".txt")
              (outputPath ++ lit ".tsv") (exec_fs r))
           (evs ++ [EvRespond
                      (text_response utf8_decode env outputPath r err).1
                      (text_response utf8_decode env outputPath r err).2])).
Proof.
  intros imagePath outputPath r Ht Hv Hb Hd Hw Hx.
  unfold get_text. rewrite Ht, Hv. cbn [negb orb].
  rewrite (bind_ok _ _ _ _ _ (Buffer_from_ok _ _ _ _ Hb)).
  rewrite (bind_ok _ _ _ _ _ (stage_run path_sep env w)).
  cbn [fst snd]. fold imagePath outputPath.
  rewrite (bind_ok _ _ _ _ _
             (fs_writeFile_done env imagePath buffer (after_stage w) Hd Hw)).
  rewrite exec_run, with_fs_with_fs, !fs_with_fs, !fs_after_stage.
  fold (text_command imagePath outputPath). fold r. rewrite Hx.
  unfold text_response.
  destruct err.
  - destruct (log_cleanup_respond env (lit "Tesseract Error:") imagePath
                outputPath 500
                (BodyError (lit "Error processing image: " ++ exec_stderr r))
                (after_stage w) (exec_fs r)
                ([EvWriteFile imagePath]
                 ++ [EvExec (text_command imagePath outputPath)]) eq_refl)
      as (evs & Hq & ->).
    by exists evs.
  - rewrite (bind_ok _ _ _ _ _ (fs_readFile_run utf8_decode env _ _)).
    rewrite with_fs_with_fs, fs_with_fs.
    destruct (read_result utf8_decode env (outputPath ++ lit ".txt")
                (exec_fs r)) as [data|].
    + destruct (cleanup_then_respond env imagePath outputPath 200
                  (BodyText (trim data))
                  (with_fs (after_stage w) (exec_fs r)
                     (([EvWriteFile imagePath]
                       ++ [EvExec (text_command imagePath outputPath)])
                      ++ [EvReadFile (outputPath ++ lit ".txt")])))
        as (evs & Hq & ->).
      rewrite with_fs_with_fs, fs_with_fs, app_assoc.
      eexists. split; [|reflexivity]. by rewrite !responses_app, Hq.
    + destruct (log_cleanup_respond env (lit "Read File Error:") imagePath
                  outputPath 500 (BodyError (lit "Error reading output file."))
                  (after_stage w) (exec_fs r)
                  (([EvWriteFile imagePath]
                    ++ [EvExec (text_command imagePath outputPath)])
                   ++ [EvReadFile (outputPath ++ lit ".txt")]) eq_refl)
        as (evs & Hq & ->).
      by exists evs.
Qed.

(** After a successful write, /api/get-bboxes runs the recognizer and,
    once it has exited, either cleans up and sends [bboxes_response], or
    stops at the exception of the parser. *)
Lemma get_bboxes_after_write_run (env : Env) (req : Request) (w : World)
    (buffer : list byte) (err : bool) :
  let imagePath := imagePath_at path_sep env w in
  let outputPath := outputPath_at path_sep env w in
  let r := run_command env (tsv_command imagePath outputPath)
             (<[imagePath := File buffer]> (fs w)) in
  truthy (base64_image req) = true →
  isValidBase64Image Buffer_from_base64 (base64_image req) = true →
  Buffer_from_base64 (base64_image req) = Some buffer →
  bbox_type req ∈ bbox_type_values →
  fs w !! imagePath ≠ Some Dir →
  write_result env = WriteDone →
  exec_failed r = Some err →
  ∃ evs, responses evs = []
    ∧ match bboxes_response utf8_decode env req outputPath r err with
      | Ok sb =>
          get_bboxes path_sep Buffer_from_base64 utf8_decode env req w
          = (Ok tt,
             with_fs (after_stage w)
               (cleaned env imagePath (outputPath ++ lit ".txt")
                  (outputPath ++ lit ".tsv") (exec_fs r))
               (evs ++ [EvRespond sb.1 sb.2]))
      | Throw e =>
          get_bboxes path_sep Buffer_from_base64 utf8_decode env req w
          = (Throw e, with_fs (after_stage w) (exec_fs r) evs)
      end.
Proof.
  intros imagePath outputPath r Ht Hv Hb Hbt Hd Hw Hx.
  unfold get_bboxes. rewrite Ht, Hv. cbn [negb orb].
  rewrite (truthy_valid _ Hbt), (proj2 (Set_has_valid _) Hbt).
  cbn [negb orb].
  rewrite (bind_ok _ _ _ _ _ (Buffer_from_ok _ _ _ _ Hb)).
  rewrite (bind_ok _ _ _ _ _ (stage_run path_sep env w)).
  cbn [fst snd]. fold imagePath outputPath.
  rewrite (bind_ok _ _ _ _ _
             (fs_writeFile_done env imagePath buffer (after_stage w) Hd Hw)).
  rewrite exec_run, with_fs_with_fs, !fs_with_fs, !fs_after_stage.
  fold (tsv_command imagePath outputPath). fold r. rewrite Hx.
  unfold bboxes_response.
  destruct err.
  - destruct (log_cleanup_respond env (lit "Tesseract Error:") imagePath
                outputPath 500
                (BodyError (lit "Error processing image: " ++ exec_stderr r))
                (after_stage w) (exec_fs r)
                ([EvWriteFile imagePath]
                 ++ [EvExec (tsv_command imagePath outputPath)]) eq_refl)
      as (evs & Hq & ->).
    by exists evs.
  - rewrite (bind_ok _ _ _ _ _ (fs_readFile_run utf8_decode env _ _)).
    rewrite with_fs_with_fs, fs_with_fs.
    destruct (read_result utf8_decode env (outputPath ++ lit ".tsv")
                (exec_fs r)) as [data|].
    + destruct (parse_tsv data) as [bboxes|e] eqn:Hp.
      * erewrite bind_ok; [|reflexivity].
        destruct (cleanup_then_respond env imagePath outputPath 200
                    (BodyBboxes bboxes (bbox_type req))
                    (with_fs (after_stage w) (exec_fs r)
                       (([EvWriteFile imagePath]
                         ++ [EvExec (tsv_command imagePath outputPath)])
                        ++ [EvReadFile (outputPath ++ lit ".tsv")])))
          as (evs & Hq & ->).
        rewrite with_fs_with_fs, fs_with_fs, app_assoc.
        eexists. split; [|reflexivity]. by rewrite !responses_app, Hq.
      * unfold bind, lift. eexists. split; [|reflexivity]. done.
    + destruct (log_cleanup_respond env (lit "Read File Error:") imagePath
                  outputPath 500 (BodyError (lit "Error reading output file."))
                  (after_stage w) (exec_fs r)
                  (([EvWriteFile imagePath]
                    ++ [EvExec (tsv_command imagePath outputPath)])
                   ++ [EvReadFile (outputPath ++ lit ".tsv")]) eq_refl)
        as (evs & Hq & ->).
      by exists evs.
Qed.



(** When the write fails, /api/get-text logs and answers 500. *)
Lemma get_text_write_failed_run (env : Env) (req : Request) (w : World)
    (buffer : list byte) :
  let imagePath := imagePath_at path_sep env w in
  truthy (base64_image req) = true →
  isValidBase64Image Buffer_from_base64 (base64_image req) = true →
  Buffer_from_base64 (base64_image req) = Some buffer →
  write_fails env imagePath (fs w) →
  ∃ m',
    get_text path_sep Buffer_from_base64 utf8_decode env req w
    = (Ok tt,
       with_fs (after_stage w) m'
         [EvWriteFile imagePath; EvLog (lit "Write File Error:");
          EvRespond 500 (BodyError (lit "Error saving image."))])
    ∧ ∀ q, q ≠ imagePath → m' !! q = fs w !! q.
Proof.
  intros imagePath Ht Hv Hb Hf.
  unfold get_text. rewrite Ht, Hv. cbn [negb orb].
  rewrite (bind_ok _ _ _ _ _ (Buffer_from_ok _ _ _ _ Hb)).
  rewrite (bind_ok _ _ _ _ _ (stage_run path_sep env w)).
  cbn [fst snd]. fold imagePath.
  destruct (fs_writeFile_failed env imagePath buffer (after_stage w) Hf)
    as (e & m' & Hrun & Hm').
  rewrite (bind_ok _ _ _ _ _ Hrun).
  exists m'. split; [|exact Hm'].
  unfold console_error. rewrite (seq_ok _ _ _ _ _ (emit_with_fs _ _ _ _)).
  unfold respond. by rewrite emit_with_fs.
Qed.

Lemma get_bboxes_write_failed_run (env : Env) (req : Request) (w : World)
    (buffer : list byte) :
  let imagePath := imagePath_at path_sep env w in
  truthy (base64_image req) = true →
  isValidBase64Image Buffer_from_base64 (base64_image req) = true →
  Buffer_from_base64 (base64_image req) = Some buffer →
  bbox_type req ∈ bbox_type_values →
  write_fails env imagePath (fs w) →
  ∃ m',
    get_bboxes path_sep Buffer_from_base64 utf8_decode env req w
    = (Ok tt,
       with_fs (after_stage w) m'
         [EvWriteFile imagePath; EvLog (lit "Write File Error:");
          EvRespond 500 (BodyError (lit "Error saving image."))])
    ∧ ∀ q, q ≠ imagePath → m' !! q = fs w !! q.
Proof.
  intros imagePath Ht Hv Hb Hbt Hf.
  unfold get_bboxes. rewrite Ht, Hv. cbn [negb orb].
  rewrite (truthy_valid _ Hbt), (proj2 (Set_has_valid _) Hbt).
  cbn [negb orb].
  rewrite (bind_ok _ _ _ _ _ (Buffer_from_ok _ _ _ _ Hb)).
  rewrite (bind_ok _ _ _ _ _ (stage_run path_sep env w)).
  cbn [fst snd]. fold imagePath.
  destruct (fs_writeFile_failed env imagePath buffer (after_stage w) Hf)
    as (e & m' & Hrun & Hm').
  rewrite (bind_ok _ _ _ _ _ Hrun).
  exists m'. split; [|exact Hm'].
  unfold console_error. rewrite (seq_ok _ _ _ _ _ (emit_with_fs _ _ _ _)).
  unfold respond. by rewrite emit_with_fs.
Qed.



(** A request with a missing or invalid image is answered 400 with
    "Invalid base64_image." by both handlers, whatever its bbox_type; one
    with a valid image and a missing or unknown bbox_type is answered 400
    with "Invalid bbox_type." by /api/get-bboxes. Nothing else happens. *)
Theorem validation_messages (env : Env) (req : Request) (w : World) :
  (truthy (base64_image req) = false
   ∨ isValidBase64Image Buffer_from_base64 (base64_image req) = false →
   get_text path_sep Buffer_from_base64 utf8_decode env req w
   = (Ok tt,
      with_fs w (fs w)
        [EvRespond 400 (BodyError (lit "Invalid base64_image."))])
   ∧ get_bboxes path_sep Buffer_from_base64 utf8_decode env req w
     = (Ok tt,
        with_fs w (fs w)
          [EvRespond 400 (BodyError (lit "Invalid base64_image."))]))
  ∧ (truthy (base64_image req) = true →
     isValidBase64Image Buffer_from_base64 (base64_image req) = true →
     bbox_type req ∉ bbox_type_values →
     get_bboxes path_sep Buffer_from_base64 utf8_decode env req w
     = (Ok tt,
        with_fs w (fs w)
          [EvRespond 400 (BodyError (lit "Invalid bbox_type."))])).
Proof.
  split.
  - apply invalid_image_rejected.
  - intros Ht Hv Hbt. unfold get_bboxes. rewrite Ht, Hv. cbn [negb orb].
    assert (Set_has VALID_BBOX_TYPES (bbox_type req) = false) as ->.
    { apply not_true_is_false. by rewrite Set_has_valid. }
    by rewrite orb_true_r.
Qed.

(** When the image cannot be written, both handlers log the error and
    answer 500 "Error saving image."; the recognizer is not run and no file
    other than the image path is touched. *)
Theorem write_failure_response (env : Env) (req : Request) (w : World)
    (buffer : list byte) :
  let imagePath := imagePath_at path_sep env w in
  let failed :=
    [EvWriteFile imagePath; EvLog (lit "Write File Error:");
     EvRespond 500 (BodyError (lit "Error saving image."))] in
  truthy (base64_image req) = true →
  isValidBase64Image Buffer_from_base64 (base64_image req) = true →
  Buffer_from_base64 (base64_image req) = Some buffer →
  write_fails env imagePath (fs w) →
  (∃ m',
     get_text path_sep Buffer_from_base64 utf8_decode env req w
     = (Ok tt, with_fs (after_stage w) m' failed)
     ∧ ∀ q, q ≠ imagePath → m' !! q = fs w !! q)
  ∧ (bbox_type req ∈ bbox_type_values →
     ∃ m',
       get_bboxes path_sep Buffer_from_base64 utf8_decode env req w
       = (Ok tt, with_fs (after_stage w) m' failed)
       ∧ ∀ q, q ≠ imagePath → m' !! q = fs w !! q).
Proof.
  intros imagePath failed Ht Hv Hb Hf. split.
  - by apply (get_text_write_failed_run env req w buffer).
  - intros Hbt. by apply (get_bboxes_write_failed_run env req w buffer).
Qed.

(** When the recognizer reports an error, both handlers clean up and then
    answer 500 with "Error processing image: " followed by what the
    recognizer wrote to its standard error. *)
Theorem recognizer_failure_response (env : Env) (req : Request) (w : World)
    (buffer : list byte) :
  let imagePath := imagePath_at path_sep env w in
  let outputPath := outputPath_at path_sep env w in
  let staged := <[imagePath := File buffer]> (fs w) in
  let rt := run_command env (text_command imagePath outputPath) staged in
  let rb := run_command env (tsv_command imagePath outputPath) staged in
  truthy (base64_image req) = true →
  isValidBase64Image Buffer_from_base64 (base64_image req) = true →
  Buffer_from_base64 (base64_image req) = Some buffer →
  fs w !! imagePath ≠ Some Dir →
  write_result env = WriteDone →
  (exec_failed rt = Some true →
   ∃ evs, responses evs = []
     ∧ get_text path_sep Buffer_from_base64 utf8_decode env req w
       = (Ok tt,
          with_fs (after_stage w)
            (cleaned env imagePath (outputPath ++ lit ".txt")
               (outputPath ++ lit ".tsv") (exec_fs rt))
            (evs ++ [EvRespond 500
                       (BodyError (lit "Error processing image: "
                                   ++ exec_stderr rt))])))
  ∧ (bbox_type req ∈ bbox_type_values → exec_failed rb = Some true →
     ∃ evs, responses evs = []
       ∧ get_bboxes path_sep Buffer_from_base64 utf8_decode env req w
         = (Ok tt,
            with_fs (after_stage w)
              (cleaned env imagePath (outputPath ++ lit ".txt")
                 (outputPath ++ lit ".tsv") (exec_fs rb))
              (evs ++ [EvRespond 500
                         (BodyError (lit "Error processing image: "
                                     ++ exec_stderr rb))]))).
Proof.
  intros imagePath outputPath staged rt rb Ht Hv Hb Hd Hw. split.
  - intros Hx.
    destruct (get_text_after_write_run env req w buffer true
                Ht Hv Hb Hd Hw Hx) as (evs & Hq & Hrun).
    exists evs. split; [done|]. by rewrite Hrun.
  - intros Hbt Hx.
    destruct (get_bboxes_after_write_run env req w buffer true
                Ht Hv Hb Hbt Hd Hw Hx) as (evs & Hq & Hrun).
    exists evs. by split.
Qed.

(** When the recognizer reports success but its output cannot be read (it
    is missing, a directory, or unreadable), both handlers clean up and then
    answer 500 "Error reading output file.". *)
Theorem read_failure_response (env : Env) (req : Request) (w : World)
    (buffer : list byte) :
  let imagePath := imagePath_at path_sep env w in
  let outputPath := outputPath_at path_sep env w in
  let staged := <[imagePath := File buffer]> (fs w) in
  let rt := run_command env (text_command imagePath outputPath) staged in
  let rb := run_command env (tsv_command imagePath outputPath) staged in
  truthy (base64_image req) = true →
  isValidBase64Image Buffer_from_base64 (base64_image req) = true →
  Buffer_from_base64 (base64_image req) = Some buffer →
  fs w !! imagePath ≠ Some Dir →
  write_result env = WriteDone →
  (exec_failed rt = Some false →
   read_result utf8_decode env (outputPath ++ lit ".txt") (exec_fs rt) = None →
   ∃ evs, responses evs = []
     ∧ get_text path_sep Buffer_from_base64 utf8_decode env req w
       = (Ok tt,
          with_fs (after_stage w)
            (cleaned env imagePath (outputPath ++ lit ".txt")
               (outputPath ++ lit ".tsv") (exec_fs rt))
            (evs ++ [EvRespond 500
                       (BodyError (lit "Error reading output file."))])))
  ∧ (bbox_type req ∈ bbox_type_values → exec_failed rb = Some false →
     read_result utf8_decode env (outputPath ++ lit ".tsv") (exec_fs rb)
     = None →
     ∃ evs, responses evs = []
       ∧ get_bboxes path_sep Buffer_from_base64 utf8_decode env req w
         = (Ok tt,
            with_fs (after_stage w)
              (cleaned env imagePath (outputPath ++ lit ".txt")
                 (outputPath ++ lit ".tsv") (exec_fs rb))
              (evs ++ [EvRespond 500
                         (BodyError (lit "Error reading output file."))]))).
Proof.
  intros imagePath outputPath staged rt rb Ht Hv Hb Hd Hw. split.
  - intros Hx Hr.
    destruct (get_text_after_write_run env req w buffer false
                Ht Hv Hb Hd Hw Hx) as (evs & Hq & Hrun).
    exists evs. split; [done|]. rewrite Hrun.
    unfold text_response. fold imagePath outputPath staged rt.
    by rewrite Hr.
  - intros Hbt Hx Hr.
    destruct (get_bboxes_after_write_run env req w buffer false
                Ht Hv Hb Hbt Hd Hw Hx) as (evs & Hq & Hrun).
    exists evs. split; [done|]. revert Hrun.
    unfold bboxes_response. fold imagePath outputPath staged rb.
    by rewrite Hr.
Qed.

(** Once the image is written and the recognizer has exited, with or
    without an error, and when no deletion of the three staged paths fails
    in the file system the recognizer left (none is a directory and none is
    a file the system refuses to unlink), /api/get-text leaves the file
    system as the recognizer left it except for the three staged paths,
    which do not exist any more when the response is sent. *)
Theorem get_text_removes_staged_files (env : Env) (req : Request) (w : World)
    (buffer : list byte) :
  let imagePath := imagePath_at path_sep env w in
  let outputPath := outputPath_at path_sep env w in
  let r := run_command env (text_command imagePath outputPath)
             (<[imagePath := File buffer]> (fs w)) in
  let out := get_text path_sep Buffer_from_base64 utf8_decode env req w in
  truthy (base64_image req) = true →
  isValidBase64Image Buffer_from_base64 (base64_image req) = true →
  Buffer_from_base64 (base64_image req) = Some buffer →
  fs w !! imagePath ≠ Some Dir →
  write_result env = WriteDone →
  is_Some (exec_failed r) →
  Forall (λ p, unlink_fails env p (exec_fs r) = false)
    (staged_paths imagePath outputPath) →
  (∀ p, p ∈ staged_paths imagePath outputPath → fs out.2 !! p = None)
  ∧ (∀ q, q ∉ staged_paths imagePath outputPath →
       fs out.2 !! q = exec_fs r !! q).
Proof.
  intros imagePath outputPath r out Ht Hv Hb Hd Hw [err Hx] Hnd. subst out.
  destruct (get_text_after_write_run env req w buffer err Ht Hv Hb Hd Hw Hx)
    as (evs & Hq & ->).
  cbn [snd]. rewrite fs_with_fs. fold imagePath outputPath r.
  unfold staged_paths in *.
  apply Forall_cons in Hnd as [H1 Hnd]. apply Forall_cons in Hnd as [H2 Hnd].
  apply Forall_cons in Hnd as [H3 _].
  rewrite cleaned_files by done. split.
  - intros p Hp. rewrite !elem_of_cons, elem_of_nil in Hp.
    rewrite !lookup_delete_None.
    destruct Hp as [->|[->|[->|[]]]]; auto.
  - intros q Hq'. rewrite !not_elem_of_cons in Hq'.
    destruct Hq' as (? & ? & ? & _).
    by rewrite !lookup_delete_ne.
Qed.

(** When the parser of /api/get-bboxes throws, the handler stops there: it
    sends no response and does not clean up, so the file system stays as the
    recognizer left it, staged files included. *)
Theorem get_bboxes_parser_throw_skips_cleanup (env : Env) (req : Request)
    (w : World) (buffer : list byte) (data : list N) (e : exn) :
  let imagePath := imagePath_at path_sep env w in
  let outputPath := outputPath_at path_sep env w in
  let r := run_command env (tsv_command imagePath outputPath)
             (<[imagePath := File buffer]> (fs w)) in
  let out := get_bboxes path_sep Buffer_from_base64 utf8_decode env req w in
  truthy (base64_image req) = true →
  isValidBase64Image Buffer_from_base64 (base64_image req) = true →
  Buffer_from_base64 (base64_image req) = Some buffer →
  bbox_type req ∈ bbox_type_values →
  fs w !! imagePath ≠ Some Dir →
  write_result env = WriteDone →
  exec_failed r = Some false →
  read_result utf8_decode env (outputPath ++ lit ".tsv") (exec_fs r)
  = Some data →
  parse_tsv data = Throw e →
  out.1 = Throw trim_of_undefined
  ∧ fs out.2 = exec_fs r
  ∧ responses (trace out.2) = responses (trace w)
  ∧ Forall (λ ev, ∀ p, ev ≠ EvUnlink p) (drop (length (trace w)) (trace out.2)).
Proof.
  intros imagePath outputPath r out Ht Hv Hb Hbt Hd Hw Hx Hr Hp. subst out.
  unfold get_bboxes. rewrite Ht, Hv. cbn [negb orb].
  rewrite (truthy_valid _ Hbt), (proj2 (Set_has_valid _) Hbt).
  cbn [negb orb].
  rewrite (bind_ok _ _ _ _ _ (Buffer_from_ok _ _ _ _ Hb)).
  rewrite (bind_ok _ _ _ _ _ (stage_run path_sep env w)).
  cbn [fst snd]. fold imagePath outputPath.
  rewrite (bind_ok _ _ _ _ _
             (fs_writeFile_done env imagePath buffer (after_stage w) Hd Hw)).
  rewrite exec_run, with_fs_with_fs, !fs_with_fs, !fs_after_stage.
  fold (tsv_command imagePath outputPath). fold r. rewrite Hx.
  rewrite (bind_ok _ _ _ _ _ (fs_readFile_run utf8_decode env _ _)).
  rewrite with_fs_with_fs, fs_with_fs, Hr.
  unfold bind, lift. rewrite Hp. cbn [fst snd fs trace with_fs after_stage].
  rewrite (parse_tsv_throws _ _ Hp). split; [done|]. split; [done|].
  split.
  - rewrite responses_app. apply app_nil_r.
  - rewrite drop_app_length. repeat constructor; by intros p.
Qed.

End Outcomes.

Lemma write_failure_response_witness :
  let failed :=
    [EvWriteFile (lit "uploads/image_1000.png");
     EvLog (lit "Write File Error:");
     EvRespond 500 (BodyError (lit "Error saving image."))] in
  ∃ m',
    get_text SLASH base64_lenient toString_utf8 env_disk_full
      (png_request JUndefined) empty_world
    = (Ok tt, with_fs (after_stage empty_world) m' failed)
    ∧ ∀ q, q ≠ lit "uploads/image_1000.png" → m' !! q = fs empty_world !! q.
Proof.
  refine (proj1 (write_failure_response SLASH base64_lenient toString_utf8
                   env_disk_full (png_request JUndefined) empty_world
                   png_bytes _ _ _ _)).
  - reflexivity.
  - reflexivity.
  - reflexivity.
  - right. simpl. discriminate.
Defined.

Lemma recognizer_failure_response_witness :
  ∃ evs, responses evs = []
    ∧ get_text SLASH base64_lenient toString_utf8 env_tool_fails
        (png_request JUndefined) empty_world
      = (Ok tt,
         with_fs (after_stage empty_world)
           (cleaned env_tool_fails (lit "uploads/image_1000.png")
              (lit "output/image_1000" ++ lit ".txt")
              (lit "output/image_1000" ++ lit ".tsv")
              (exec_fs
                 (run_command env_tool_fails
                    (text_command (lit "uploads/image_1000.png")
                       (lit "output/image_1000"))
                    (<[lit "uploads/image_1000.png" := File png_bytes]>
                       (fs empty_world)))))
           (evs ++ [EvRespond 500
                      (BodyError (lit "Error processing image: "
                                  ++ lit "tesseract: failed"))])).
Proof.
  refine (proj1 (recognizer_failure_response SLASH base64_lenient toString_utf8
                   env_tool_fails (png_request JUndefined) empty_world
                   png_bytes _ _ _ _ _) _).
  - reflexivity.
  - reflexivity.
  - reflexivity.
  - vm_compute. discriminate.
  - reflexivity.
  - reflexivity.
Defined.

Lemma read_failure_response_witness :
  ∃ evs, responses evs = []
    ∧ get_text SLASH base64_lenient toString_utf8 env_no_output
        (png_request JUndefined) empty_world
      = (Ok tt,
         with_fs (after_stage empty_world)
           (cleaned env_no_output (lit "uploads/image_1000.png")
              (lit "output/image_1000" ++ lit ".txt")
              (lit "output/image_1000" ++ lit ".tsv")
              (exec_fs
                 (run_command env_no_output
                    (text_command (lit "uploads/image_1000.png")
                       (lit "output/image_1000"))
                    (<[lit "uploads/image_1000.png" := File png_bytes]>
                       (fs empty_world)))))
           (evs ++ [EvRespond 500
                      (BodyError (lit "Error reading output file."))])).
Proof.
  refine (proj1 (read_failure_response SLASH base64_lenient toString_utf8
                   env_no_output (png_request JUndefined) empty_world
                   png_bytes _ _ _ _ _) _ _).
  - reflexivity.
  - reflexivity.
  - reflexivity.
  - vm_compute. discriminate.
  - reflexivity.
  - reflexivity.
  - vm_compute. reflexivity.
Defined.

Lemma get_text_removes_staged_files_witness :
  let out :=
    get_text SLASH base64_lenient toString_utf8 env_text
      (png_request JUndefined) empty_world in
  (∀ p, p ∈ staged_paths (lit "uploads/image_1000.png")
              (lit "output/image_1000") →
        fs out.2 !! p = None)
  ∧ (∀ q, q ∉ staged_paths (lit "uploads/image_1000.png")
               (lit "output/image_1000") →
        fs out.2 !! q
        = exec_fs
            (run_command env_text
               (text_command (lit "uploads/image_1000.png")
                  (lit "output/image_1000"))
               (<[lit "uploads/image_1000.png" := File png_bytes]>
                  (fs empty_world))) !! q).
Proof.
  refine (get_text_removes_staged_files SLASH base64_lenient toString_utf8
            env_text (png_request JUndefined) empty_world png_bytes
            _ _ _ _ _ _ _).
  - reflexivity.
  - reflexivity.
  - reflexivity.
  - vm_compute. discriminate.
  - reflexivity.
  - by eexists.
  - repeat constructor; vm_compute; reflexivity.
Defined.

Lemma get_bboxes_parser_throw_skips_cleanup_witness :
  let out :=
    get_bboxes SLASH base64_lenient toString_utf8 env_short_tsv
      (png_request (JString (lit "word"))) empty_world in
  out.1 = Throw trim_of_undefined
  ∧ fs out.2
    = exec_fs
        (run_command env_short_tsv
           (tsv_command (lit "uploads/image_1000.png")
              (lit "output/image_1000"))
           (<[lit "uploads/image_1000.png" := File png_bytes]>
              (fs empty_world)))
  ∧ responses (trace out.2) = responses (trace empty_world)
  ∧ Forall (λ ev, ∀ p, ev ≠ EvUnlink p)
      (drop (length (trace empty_world)) (trace out.2)).
Proof.
  refine (get_bboxes_parser_throw_skips_cleanup SLASH base64_lenient
            toString_utf8 env_short_tsv (png_request (JString (lit "word")))
            empty_world png_bytes tsv_short trim_of_undefined
            _ _ _ _ _ _ _ _ _).
  - reflexivity.
  - reflexivity.
  - reflexivity.
  - simpl. unfold bbox_type_values. rewrite !elem_of_cons. auto.
  - vm_compute. discriminate.
  - reflexivity.
  - reflexivity.
  - vm_compute. reflexivity.
  - reflexivity.
Defined.

(** With a recognizer that never exits, the request is never answered and
    the image stays in the input directory. *)
Example request_never_answered :
  let out := get_text SLASH base64_lenient toString_utf8 env_hangs
               (png_request JUndefined) empty_world in
  out.1 = Ok tt
  ∧ responses (trace out.2) = []
  ∧ fs out.2 !! lit "uploads/image_1000.png" = Some (File png_bytes).
Proof. repeat split; vm_compute; reflexivity. Qed.

(** * Further properties of the validator *)

Section ValidatorBytes.

Variable Buffer_from_base64 : jsvalue → option (list byte).

Lemma startsWith_hex_two buffer s1 s2 s3 s4 :
  startsWith (hex buffer) [s1; s2; s3; s4]
  = startsWith (hex (take 2 buffer)) [s1; s2; s3; s4].
Proof.
  rewrite !hex_all. destruct buffer as [|a [|b rest]]; simpl; reflexivity.
Qed.

Lemma startsWith_hex_short buffer s1 s2 s3 s4 :
  (length buffer < 2)%nat → startsWith (hex buffer) [s1; s2; s3; s4] = false.
Proof.
  rewrite hex_all. destruct buffer as [|a [|b rest]]; simpl; intros H.
  - done.
  - by rewrite !andb_false_r.
  - lia.
Qed.

(** The validator looks at the first two decoded bytes only: decoded data
    of fewer than two bytes (the empty string among them) is rejected, and
    two inputs whose decoded data begin with the same two bytes get the same
    verdict, whatever follows. *)
Theorem validator_reads_two_bytes (v : jsvalue) (buffer : list byte) :
  Buffer_from_base64 v = Some buffer →
  ((length buffer < 2)%nat → isValidBase64Image Buffer_from_base64 v = false)
  ∧ (∀ v' buffer',
       Buffer_from_base64 v' = Some buffer' →
       take 2 buffer' = take 2 buffer →
       isValidBase64Image Buffer_from_base64 v'
       = isValidBase64Image Buffer_from_base64 v).
Proof.
  intros Hd. split.
  - intros Hlen. rewrite (isValidBase64Image_decoded _ _ _ Hd).
    change (lit "ffd8") with [102; 102; 100; 56]%N.
    change (lit "8950") with [56; 57; 53; 48]%N.
    change (lit "4749") with [52; 55; 52; 57]%N.
    by rewrite !startsWith_hex_short.
  - intros v' buffer' Hd' Htake.
    rewrite (isValidBase64Image_decoded _ _ _ Hd),
      (isValidBase64Image_decoded _ _ _ Hd').
    change (lit "ffd8") with [102; 102; 100; 56]%N.
    change (lit "8950") with [56; 57; 53; 48]%N.
    change (lit "4749") with [52; 55; 52; 57]%N.
    rewrite !(startsWith_hex_two buffer), !(startsWith_hex_two buffer').
    by rewrite Htake.
Qed.

End ValidatorBytes.

Lemma validator_reads_two_bytes_witness :
  isValidBase64Image base64_lenient (JString (lit "R0lGODlh"))
  = isValidBase64Image base64_lenient (JString (lit "R0k=")).
Proof.
  refine (proj2 (validator_reads_two_bytes base64_lenient
                   (JString (lit "R0k=")) [x47; x49] _)
            (JString (lit "R0lGODlh")) [x47; x49; x46; x38; x39; x61] _ _);
    reflexivity.
Defined.

(** * Further properties of the TSV parser *)

Lemma map_result_length {A B : Type} (f : A → result B) l bs :
  map_result f l = Ok bs → length bs = length l.
Proof.
  intros H. apply map_result_Forall2 in H. symmetry.
  by eapply Forall2_length.
Qed.

(** The parser returns the empty list exactly when no data line holds
    anything but whitespace: for the empty text, for a header alone, for a
    header followed by blank lines. *)
Theorem parse_tsv_no_rows (data : list N) :
  parse_tsv data = Ok []
  ↔ Forall (λ l, blank l = true) (drop 1 (split LF data)).
Proof.
  unfold parse_tsv. generalize (drop 1 (split LF data)). intros ls. split.
  - intros H. apply map_result_length in H.
    induction ls as [|l ls IH]; [done|]. simpl in H.
    rewrite truthy_trim in H. destruct (blank l) eqn:Hl; simpl in H.
    + constructor; [done|by apply IH].
    + done.
  - induction 1 as [|l ls Hl _ IH]; [done|]. simpl.
    by rewrite truthy_trim, Hl.
Qed.

Example parse_tsv_header_only :
  parse_tsv [] = Ok [] ∧ parse_tsv tsv_header = Ok []
  ∧ parse_tsv (tsv_header ++ [LF] ++ lit "  " ++ [LF]) = Ok [].
Proof. repeat split; reflexivity. Qed.













(** ** Integers written in decimal are read back *)

Lemma digit_char_facts c :
  is_digit c = true →
  is_white c = false ∧ (c =? 45)%N = false ∧ (c =? 43)%N = false
  ∧ (c =? 120)%N = false ∧ (c =? 88)%N = false ∧ c ≠ TAB
  ∧ digit_value 10 c = Some (c - 48)%N.
Proof.
  unfold is_digit. intros H. apply andb_true_iff in H as [H1 H2].
  apply N.leb_le in H1, H2.
  assert (∀ k, k ≠ c → (c =? k)%N = false) as E.
  { intros k Hk. apply N.eqb_neq. congruence. }
  repeat split; try (apply E; lia).
  - unfold is_white. rewrite !E by lia.
    rewrite (proj2 (N.leb_gt 8192 c)) by lia. reflexivity.
  - unfold TAB. lia.
  - unfold digit_value.
    rewrite (proj2 (N.leb_le 48 c)), (proj2 (N.leb_le c 57)) by lia.
    cbn [andb]. by rewrite (proj2 (N.ltb_lt (c - 48) 10)) by lia.
Qed.

Lemma pretty_N_char_code d :
  (d < 10)%N → Ascii.N_of_ascii (pretty_N_char d) = (48 + d)%N.
Proof.
  intros Hd. destruct d as [|p]; [reflexivity|].
  do 4 (destruct p as [p|p|]; try reflexivity; try lia).
Qed.

(** The digits [pretty_N_go] puts in front of [s], and what [read_digits]
    makes of them. *)
Lemma pretty_N_go_digits x :
  ∀ s, ∃ ds,
    lit (pretty_N_go x s) = ds ++ lit s
    ∧ Forall (λ c, is_digit c = true) ds
    ∧ ((0 < x)%N → ds ≠ [])
    ∧ ∀ acc n rest,
        read_digits 10 acc n (ds ++ rest)
        = read_digits 10 (acc * 10 ^ N.of_nat (length ds) + x)%N
            (n + length ds) rest.
Proof.
  induction (N.lt_wf_0 x) as [x _ IH]. intros s.
  destruct (decide (x = 0%N)) as [->|Hx].
  - exists []. rewrite pretty_N_go_0. repeat split; [done|lia|].
    intros acc n rest. simpl. f_equal; [lia|lia].
  - rewrite pretty_N_go_step by lia.
    destruct (IH (x `div` 10)%N
                (N.div_lt x 10 ltac:(lia) ltac:(lia))
                (String (pretty_N_char (x `mod` 10)) s))
      as (ds & Hds & Hdig & _ & Hread).
    pose proof (N.mod_lt x 10 ltac:(lia)) as Hmod.
    exists (ds ++ [(48 + x `mod` 10)%N]). split; [|split; [|split]].
    + rewrite Hds. unfold lit at 1. fold lit.
      rewrite pretty_N_char_code by done. by rewrite <- app_assoc.
    + apply Forall_app. split; [done|]. repeat constructor.
      unfold is_digit. apply andb_true_iff.
      split; apply N.leb_le; clear -Hmod;
        generalize dependent (x `mod` 10)%N; intros; lia.
    + intros _. by destruct ds.
    + intros acc n rest. rewrite <- app_assoc. rewrite Hread.
      cbn [app read_digits].
      assert (digit_value 10 (48 + x `mod` 10) = Some (x `mod` 10)%N) as ->.
      { clear -Hmod. generalize dependent (x `mod` 10)%N. intros r Hr.
        unfold digit_value.
        rewrite (proj2 (N.leb_le 48 _)), (proj2 (N.leb_le _ 57)) by lia.
        cbn [andb]. replace (48 + r - 48)%N with r by lia.
        by rewrite (proj2 (N.ltb_lt _ 10)). }
      rewrite length_app. cbn [length].
      replace (N.of_nat (length ds + 1)) with (N.succ (N.of_nat (length ds)))
        by lia.
      rewrite N.pow_succ_r'.
      pose proof (N.div_mod x 10 ltac:(lia)) as Hdm.
      f_equal; [|clear; lia]. clear -Hdm.
      generalize dependent (x `mod` 10)%N. generalize dependent (x `div` 10)%N.
      generalize (10 ^ N.of_nat (length ds))%N. intros p q r ->. ring.
Qed.

Lemma parseInt_digits (neg : bool) ds x :
  ds ≠ [] → Forall (λ c, is_digit c = true) ds →
  (∀ acc n rest,
     read_digits 10 acc n (ds ++ rest)
     = read_digits 10 (acc * 10 ^ N.of_nat (length ds) + x)%N
         (n + length ds) rest) →
  parseInt ((if neg then [45%N] else []) ++ ds)
  = round64 (if neg then - Z.of_N x else Z.of_N x).
Proof.
  intros Hne Hdig Hread. destruct ds as [|c ds]; [done|].
  apply Forall_cons in Hdig as [Hc Hdig].
  destruct (digit_char_facts c Hc) as (Hw & H45 & H43 & H120 & H88 & _ & _).
  assert (startsWith (c :: ds) (lit "0x") || startsWith (c :: ds) (lit "0X")
          = false) as H0x.
  { change (lit "0x") with [48; 120]%N. change (lit "0X") with [48; 88]%N.
    destruct ds as [|d ds]; cbn [startsWith]; [by rewrite !andb_false_r|].
    apply Forall_cons in Hdig as [Hd _].
    destruct (digit_char_facts d Hd) as (_ & _ & _ & Hd120 & Hd88 & _ & _).
    rewrite (N.eqb_sym 120 d), (N.eqb_sym 88 d), Hd120, Hd88.
    cbn [andb]. by rewrite !andb_false_r. }
  assert (read_sign (trimStart ((if neg then [45%N] else []) ++ c :: ds))
          = (neg, c :: ds)) as Hsign.
  { destruct neg; cbn [app trimStart read_sign].
    - reflexivity.
    - rewrite Hw. cbn [read_sign]. by rewrite H45, H43. }
  unfold parseInt. rewrite Hsign, H0x.
  specialize (Hread 0%N 0%nat []). rewrite app_nil_r in Hread.
  rewrite Hread. cbn [read_digits length Nat.add].
  replace (0 * 10 ^ N.of_nat (S (length ds)) + x)%N with x by lia.
  reflexivity.
Qed.

(** [parseInt] reads an integer written in decimal as the Number nearest
    to it. *)
Lemma parseInt_number_to_string z : parseInt (number_to_string z) = round64 z.
Proof.
  unfold number_to_string. destruct z as [|p|p].
  - reflexivity.
  - change (pretty (Z.pos p)) with (pretty_N_go (N.pos p) "").
    destruct (pretty_N_go_digits (N.pos p) "") as (ds & -> & Hdig & Hne & Hr).
    rewrite app_nil_r.
    apply (parseInt_digits false ds (N.pos p)); [apply Hne; lia|done|done].
  - change (pretty (Z.neg p)) with ("-" +:+ pretty_N_go (N.pos p) "").
    change (lit ("-" +:+ pretty_N_go (N.pos p) ""))
      with (45%N :: lit (pretty_N_go (N.pos p) "")).
    destruct (pretty_N_go_digits (N.pos p) "") as (ds & -> & Hdig & Hne & Hr).
    rewrite app_nil_r.
    apply (parseInt_digits true ds (N.pos p)); [apply Hne; lia|done|done].
Qed.

Lemma number_to_string_no_tab z : TAB ∉ number_to_string z.
Proof.
  assert (∀ ds, Forall (λ c, is_digit c = true) ds → TAB ∉ ds) as Hd.
  { intros ds Hds Hin. rewrite Forall_forall in Hds.
    by destruct (digit_char_facts _ (Hds _ Hin)) as (_ & _ & _ & _ & _ & H & _). }
  unfold number_to_string. destruct z as [|p|p].
  - apply (bool_decide_unpack _). vm_compute. exact I.
  - change (pretty (Z.pos p)) with (pretty_N_go (N.pos p) "").
    destruct (pretty_N_go_digits (N.pos p) "") as (ds & -> & Hdig & _ & _).
    rewrite app_nil_r. by apply Hd.
  - change (pretty (Z.neg p)) with ("-" +:+ pretty_N_go (N.pos p) "").
    change (lit ("-" +:+ pretty_N_go (N.pos p) ""))
      with (45%N :: lit (pretty_N_go (N.pos p) "")).
    destruct (pretty_N_go_digits (N.pos p) "") as (ds & -> & Hdig & _ & _).
    rewrite app_nil_r. apply not_elem_of_cons. split; [done|by apply Hd].
Qed.

(** A row whose left, top, width and height are integers written in
    decimal parses to the box with exactly these numbers, [x_min] and
    [y_min] being left and top and [x_max] and [y_max] their sums with
    width and height, provided the four numbers and the two sums are below
    2^53 in magnitude, where a Number holds every integer. *)
Theorem integer_fields_round_trip (left top width height : Z)
    (level page_num block_num par_num line_num word_num conf txt : list N) :
  Forall (λ f, TAB ∉ f)
    [level; page_num; block_num; par_num; line_num; word_num; conf; txt] →
  Forall (λ z, Z.abs z < 2 ^ 53)
    [left; top; width; height; left + width; top + height] →
  parse_line
    (join TAB [level; page_num; block_num; par_num; line_num; word_num;
               number_to_string left; number_to_string top;
               number_to_string width; number_to_string height; conf; txt])
  = Ok {| text := trim txt;
          confidence := parseFloat conf;
          x_min := Int left;
          y_min := Int top;
          x_max := Int (left + width);
          y_max := Int (top + height) |}.
Proof.
  intros Hf Hz.
  rewrite !Forall_cons in Hz. destruct Hz as (Hl & Ht & Hw & Hh & Hx & Hy & _).
  pose proof (parse_line_fields level page_num block_num par_num line_num
                word_num (number_to_string left) (number_to_string top)
                (number_to_string width) (number_to_string height) conf txt [])
    as Hline.
  rewrite app_nil_r in Hline. rewrite Hline.
  - rewrite !parseInt_number_to_string.
    rewrite (round64_exact left), (round64_exact top), (round64_exact width),
      (round64_exact height) by done.
    cbn [jsadd]. by rewrite !round64_exact.
  - rewrite !Forall_cons in Hf. destruct Hf as (?&?&?&?&?&?&?&?&_).
    repeat constructor; auto using number_to_string_no_tab.
Qed.

Lemma integer_fields_round_trip_witness :
  parse_line
    (join TAB [lit "5"; lit "1"; lit "1"; lit "1"; lit "1"; lit "1";
               number_to_string (-3); number_to_string 20;
               number_to_string 30; number_to_string 8;
               lit "95.5"; lit "hello"])
  = Ok {| text := trim (lit "hello");
          confidence := parseFloat (lit "95.5");
          x_min := Int (-3);
          y_min := Int 20;
          x_max := Int (-3 + 30);
          y_max := Int (20 + 8) |}.
Proof.
  apply (integer_fields_round_trip (-3) 20 30 8 (lit "5") (lit "1") (lit "1")
           (lit "1") (lit "1") (lit "1") (lit "95.5") (lit "hello")).
  - apply (bool_decide_unpack _). vm_compute. exact I.
  - repeat constructor; reflexivity.
Defined.

(** Beyond 2^53 a field is read as the nearest Number, which need not be
    the integer written. *)
Example integer_field_rounds :
  parseInt (number_to_string 9007199254740993) = Int 9007199254740992.
Proof. vm_compute. reflexivity. Qed.

(** * Startup (lines 12-19) *)

Lemma forEach_cons {A : Type} (f : A → M unit) (a : A) (l : list A) w :
  forEach f (a :: l) w
  = match f a w with
    | (Ok _, w') => forEach f l w'
    | (Throw e, w') => (Throw e, w')
    end.
Proof. reflexivity. Qed.

Lemma ancestors_from_no_sep sep pre s :
  sep ∉ s → ancestors_from sep pre s = [].
Proof.
  revert pre. induction s as [|c s IH]; intros pre Hs; [done|].
  apply not_elem_of_cons in Hs as [Hc Hs]. cbn [ancestors_from].
  rewrite (proj2 (N.eqb_neq c sep)) by congruence.
  cbn [andb app]. by apply IH.
Qed.

Lemma ancestors_from_shorter sep pre s a :
  a ∈ ancestors_from sep pre s → (length a < length pre + length s)%nat.
Proof.
  revert pre. induction s as [|c s IH]; intros pre Ha; cbn in Ha.
  - by apply elem_of_nil in Ha.
  - apply elem_of_app in Ha as [Ha|Ha].
    + destruct ((c =? sep)%N && truthy_string pre); [|by apply elem_of_nil in Ha].
      apply list_elem_of_singleton in Ha as ->. cbn. lia.
    + apply IH in Ha. rewrite length_app in Ha. cbn in *. lia.
Qed.

(** A path is not one of the directories above it. *)
Lemma not_own_ancestor sep (d : list N) : d ∉ ancestors sep d.
Proof.
  intros H. apply ancestors_from_shorter in H. cbn in H. lia.
Qed.

(** One [make_dir] step: nothing that exists changes, at most [p] is
    added as a directory, and when it throws nothing changes at all: a
    regular file is in the way, or the system refuses to make [p]. *)
Lemma make_dir_spec (env : Env) code (p : list N) (w : World) :
  trace (make_dir env code p w).2 = trace w
  ∧ (∀ q, fs (make_dir env code p w).2 !! q = fs w !! q
          ∨ (q = p ∧ fs w !! q = None
             ∧ fs (make_dir env code p w).2 !! q = Some Dir))
  ∧ ((make_dir env code p w).1 = Ok tt →
     fs (make_dir env code p w).2 !! p = Some Dir)
  ∧ (∀ e, (make_dir env code p w).1 = Throw e →
          fs (make_dir env code p w).2 = fs w
          ∧ ((∃ c, fs w !! p = Some (File c))
             ∨ (fs w !! p = None ∧ mkdir_denied env p = true))).
Proof.
  unfold make_dir, bind, get_fs, set_fs, ret, throw.
  destruct (fs w !! p) as [[c|]|] eqn:Hp; cbn.
  - split; [done|]. split; [by left|]. split; [done|].
    intros e _. split; [done|]. left. eauto.
  - split; [done|]. split; [by left|]. split; [done|]. intros e [=].
  - destruct (mkdir_denied env p) eqn:Hm; cbn.
    + split; [done|]. split; [by left|]. split; [done|].
      intros e _. split; [done|]. by right.
    + split; [done|]. split; [|split].
      * intros q. destruct (decide (q = p)) as [->|Hq].
        -- right. by rewrite lookup_insert_eq.
        -- left. by rewrite lookup_insert_ne.
      * intros _. by rewrite lookup_insert_eq.
      * intros e [=].
Qed.

Lemma make_dirs_spec (env : Env) code (l : list (list N)) (w : World) :
  trace (forEach (make_dir env code) l w).2 = trace w
  ∧ (∀ q, fs (forEach (make_dir env code) l w).2 !! q = fs w !! q
          ∨ (q ∈ l ∧ fs w !! q = None
             ∧ fs (forEach (make_dir env code) l w).2 !! q = Some Dir))
  ∧ (∀ e, (forEach (make_dir env code) l w).1 = Throw e →
          ∃ a, a ∈ l
               ∧ ((∃ c, fs w !! a = Some (File c))
                  ∨ (fs w !! a = None ∧ mkdir_denied env a = true))).
Proof.
  revert w. induction l as [|a l IH]; intros w.
  - cbn. split; [done|]. split; [by left|]. intros e [=].
  - rewrite forEach_cons.
    destruct (make_dir_spec env code a w) as (Ht & Hq & _ & He).
    destruct (make_dir env code a w) as [[[]|e] w1] eqn:Hrun;
      cbn [fst snd] in *.
    + destruct (IH w1) as (Ht' & Hq' & He').
      split; [congruence|]. split.
      * intros q. destruct (Hq' q) as [E'|(Hin & Hnone & Hdir)].
        -- destruct (Hq q) as [E|(-> & Hn & Hd)].
           ++ left. congruence.
           ++ right. split; [left|]. split; [done|congruence].
        -- destruct (Hq q) as [E|(-> & Hn & Hd)].
           ++ right. split; [by right|]. split; [congruence|done].
           ++ congruence.
      * intros e Hthrow. destruct (He' e Hthrow) as (b & Hb & Hcase).
        exists b. split; [by right|].
        destruct (Hq b) as [E|(-> & Hn & Hd)].
        -- by rewrite <- E.
        -- destruct Hcase as [[c Hc]|[Hc _]]; congruence.
    + split; [done|]. split.
      * intros q. destruct (Hq q) as [E|(-> & Hn & Hd)]; [by left|].
        right. split; [left|]; done.
      * intros e' _. destruct (He e eq_refl) as (_ & Hcase).
        exists a. split; [left|done].
Qed.

Lemma ensureDirectoryExists_present (env : Env) sep (d : list N)
    (w : World) :
  is_Some (fs w !! d) → ensureDirectoryExists env sep d w = (Ok tt, w).
Proof.
  intros [e He]. unfold ensureDirectoryExists, fs_existsSync, bind, get_fs, ret.
  by rewrite He.
Qed.

Lemma ensureDirectoryExists_absent (env : Env) sep (d : list N) (w : World) :
  fs w !! d = None →
  ensureDirectoryExists env sep d w = fs_mkdirSync_recursive env sep d w.
Proof.
  intros He. unfold ensureDirectoryExists, fs_existsSync, bind, get_fs, ret.
  by rewrite He.
Qed.

(** [ensureDirectoryExists] never removes or replaces an entry and writes no
    event. What it adds are directories: the path itself or a directory
    above it. When it returns, the path exists. It throws only on a path
    that does not exist, and the path then does not exist afterwards either:
    the path is empty, a regular file stands where a directory above it is
    needed, or the system refuses to make the path or a directory above
    it. *)
Theorem ensureDirectoryExists_only_adds (env : Env) sep (d : list N)
    (w : World) :
  trace (ensureDirectoryExists env sep d w).2 = trace w
  ∧ (∀ q, fs (ensureDirectoryExists env sep d w).2 !! q = fs w !! q
          ∨ (fs w !! q = None
             ∧ fs (ensureDirectoryExists env sep d w).2 !! q = Some Dir
             ∧ (q = d ∨ q ∈ ancestors sep d)))
  ∧ ((ensureDirectoryExists env sep d w).1 = Ok tt →
     is_Some (fs (ensureDirectoryExists env sep d w).2 !! d))
  ∧ (∀ e, (ensureDirectoryExists env sep d w).1 = Throw e →
          fs w !! d = None
          ∧ fs (ensureDirectoryExists env sep d w).2 !! d = None
          ∧ (d = []
             ∨ (∃ a c, a ∈ ancestors sep d ∧ fs w !! a = Some (File c))
             ∨ (∃ a, (a = d ∨ a ∈ ancestors sep d)
                     ∧ fs w !! a = None ∧ mkdir_denied env a = true))).
Proof.
  destruct (fs w !! d) as [e0|] eqn:Hd.
  - rewrite ensureDirectoryExists_present by eauto. cbn.
    split; [done|]. split; [by left|]. split; [by rewrite Hd|]. intros e [=].
  - rewrite ensureDirectoryExists_absent by done.
    unfold fs_mkdirSync_recursive. destruct d as [|c0 d0] eqn:Ed.
    { cbn. split; [done|]. split; [by left|]. split; [intros [=]|].
      intros e _. split; [done|]. split; [done|]. by left. }
    rewrite <- Ed in *. clear Ed c0 d0.
    unfold mbind, M_bind, bind.
    destruct (make_dirs_spec env "ENOTDIR" (ancestors sep d) w)
      as (Ht & Hq & He).
    destruct (forEach (make_dir env "ENOTDIR") (ancestors sep d) w)
      as [[[]|e] w1] eqn:Hrun; cbn [fst snd] in *.
    + destruct (make_dir_spec env "EEXIST" d w1) as (Ht' & Hq' & Hok & He').
      assert (fs w1 !! d = None) as Hd1.
      { destruct (Hq d) as [E|(Hin & _)]; [congruence|].
        by apply not_own_ancestor in Hin. }
      destruct (make_dir env "EEXIST" d w1) as [[[]|e] w2] eqn:Hrun2;
        cbn [fst snd] in *.
      * split; [congruence|]. split; [|split].
        -- intros q. destruct (Hq' q) as [E'|(-> & Hn' & Hd')].
           ++ destruct (Hq q) as [E|(Hin & Hn & Hdir)].
              ** left. congruence.
              ** right. split; [done|]. split; [congruence|by right].
           ++ right. split; [done|]. split; [done|by left].
        -- intros _. rewrite Hok by done. eauto.
        -- intros e [=].
      * destruct (He' e eq_refl) as (Hfs & Hcase).
        split; [congruence|]. split; [|split].
        -- intros q. rewrite Hfs. destruct (Hq q) as [E|(Hin & Hn & Hdir)];
             [by left|].
           right. split; [done|]. split; [done|by right].
        -- intros [=].
        -- intros e' _. split; [done|]. split; [by rewrite Hfs|].
           destruct Hcase as [[c Hc]|[_ Hm]]; [congruence|].
           right. right. exists d. split; [by left|done].
    + destruct (He e eq_refl) as (a & Ha & Hcase).
      split; [done|]. split; [|split].
      * intros q. destruct (Hq q) as [E|(Hin & Hn & Hdir)]; [by left|].
        right. split; [done|]. split; [done|by right].
      * intros [=].
      * intros e' _. split; [done|]. split.
        -- destruct (Hq d) as [E|(Hin & _)]; [congruence|].
           by apply not_own_ancestor in Hin.
        -- right. destruct Hcase as [[c Hc]|[Hn Hm]].
           ++ left. eauto.
           ++ right. exists a. split; [by right|done].
Qed.

Lemma ensureDirectoryExists_flat (env : Env) sep (d : list N) (w : World) :
  sep ∉ d → d ≠ [] →
  ensureDirectoryExists env sep d w
  = match fs w !! d with
    | Some _ => (Ok tt, w)
    | None =>
        if mkdir_denied env d then (Throw (SystemError "EACCES"), w)
        else (Ok tt,
              {| fs := <[d := Dir]> (fs w); ticks := ticks w;
                 trace := trace w |})
    end.
Proof.
  intros Hsep Hne. destruct (fs w !! d) as [e|] eqn:Hd.
  - apply ensureDirectoryExists_present. eauto.
  - rewrite ensureDirectoryExists_absent by done.
    unfold fs_mkdirSync_recursive, ancestors.
    destruct d as [|c0 d0]; [done|].
    rewrite ancestors_from_no_sep by done.
    unfold forEach, make_dir, mbind, M_bind, bind, get_fs, set_fs, ret, throw.
    rewrite Hd. by destruct (mkdir_denied env (c0 :: d0)).
Qed.

Lemma uploads_not_output : lit "uploads" ≠ lit "output".
Proof. discriminate. Qed.

(** With a separator that occurs in neither name, the two calls at startup
    write no event and change no path other than uploads and output. They
    return exactly when the system lets each missing directory be made, and
    otherwise throw. When they return both paths exist: an entry that was
    there is kept as it was, also a regular file, and a missing one is a
    directory; a second run then changes nothing. *)
Theorem startup_creates_directories (env : Env) sep (w : World) :
  sep ∉ lit "uploads" → sep ∉ lit "output" →
  trace (startup env sep w).2 = trace w
  ∧ (∀ q, q ∉ [lit "uploads"; lit "output"] →
          fs (startup env sep w).2 !! q = fs w !! q)
  ∧ ((startup env sep w).1 = Ok tt
     ↔ ∀ d, d ∈ [lit "uploads"; lit "output"] →
            fs w !! d = None → mkdir_denied env d = false)
  ∧ ((startup env sep w).1 = Ok tt →
     (∀ d, d ∈ [lit "uploads"; lit "output"] →
           fs (startup env sep w).2 !! d = Some (default Dir (fs w !! d)))
     ∧ startup env sep (startup env sep w).2
       = (Ok tt, (startup env sep w).2)).
Proof.
  intros Hu Ho. pose proof uploads_not_output as Hne.
  assert (∀ w0, is_Some (fs w0 !! lit "uploads") →
                is_Some (fs w0 !! lit "output") →
                startup env sep w0 = (Ok tt, w0)) as Hfix.
  { intros w0 H1 H2. unfold startup.
    erewrite seq_ok by (by apply ensureDirectoryExists_present).
    by apply ensureDirectoryExists_present. }
  assert (∀ P : list N → Prop,
            (∀ d, d ∈ [lit "uploads"; lit "output"] → P d)
            ↔ P (lit "uploads") ∧ P (lit "output")) as Hall.
  { intros P. split.
    - intros H. split; apply H; [left|right; left].
    - intros [H1 H2] d Hd. apply list_elem_of_In in Hd.
      by destruct Hd as [<-|[<-|[]]]. }
  assert (∀ q, q ∉ [lit "uploads"; lit "output"]
               ↔ q ≠ lit "uploads" ∧ q ≠ lit "output") as Hother.
  { intros q. rewrite !not_elem_of_cons. split; [tauto|].
    intros [? ?]. repeat split; [done..|]. apply not_elem_of_nil. }
  rewrite !Hall. setoid_rewrite Hother.
  assert (startup env sep w
          = (ensureDirectoryExists env sep (lit "uploads");;
             ensureDirectoryExists env sep (lit "output")) w) as Hrun
    by reflexivity.
  unfold mbind, M_bind, bind in Hrun.
  rewrite (ensureDirectoryExists_flat env sep (lit "uploads")) in Hrun
    by done.
  destruct (fs w !! lit "uploads") as [e1|] eqn:H1.
  - rewrite (ensureDirectoryExists_flat env sep (lit "output")) in Hrun
      by done.
    destruct (fs w !! lit "output") as [e2|] eqn:H2.
    + rewrite Hrun. cbn [fst snd]. split; [done|]. split; [done|].
      split; [done|]. intros _. rewrite H1, H2. split; [done|].
      apply Hfix; [rewrite H1|rewrite H2]; eauto.
    + destruct (mkdir_denied env (lit "output")) eqn:M2;
        rewrite Hrun; cbn [fst snd fs trace].
      * split; [done|]. split; [done|]. split; [|done].
        split; [done|]. intros [_ H]. by specialize (H eq_refl).
      * split; [done|]. split.
        { intros q [_ Hq]. by rewrite lookup_insert_ne. }
        split; [done|]. intros _.
        rewrite lookup_insert_ne, lookup_insert_eq, H1 by done.
        split; [done|]. apply Hfix; cbn [fs].
        -- rewrite lookup_insert_ne by done. rewrite H1. eauto.
        -- rewrite lookup_insert_eq. eauto.
  - destruct (mkdir_denied env (lit "uploads")) eqn:M1.
    + rewrite Hrun. cbn [fst snd]. split; [done|]. split; [done|].
      split; [|done]. split; [done|]. intros [H _]. by specialize (H eq_refl).
    + rewrite (ensureDirectoryExists_flat env sep (lit "output")) in Hrun
        by done.
      cbn [fs] in Hrun. rewrite lookup_insert_ne in Hrun by done.
      destruct (fs w !! lit "output") as [e2|] eqn:H2.
      * rewrite Hrun. cbn [fst snd fs trace]. split; [done|]. split.
        { intros q [Hq _]. by rewrite lookup_insert_ne. }
        split; [done|]. intros _.
        rewrite lookup_insert_eq, lookup_insert_ne, H2 by done.
        split; [done|]. apply Hfix; cbn [fs].
        -- rewrite lookup_insert_eq. eauto.
        -- rewrite lookup_insert_ne by done. rewrite H2. eauto.
      * destruct (mkdir_denied env (lit "output")) eqn:M2;
          rewrite Hrun; cbn [fst snd fs trace ticks].
        -- split; [done|]. split.
           { intros q [Hq _]. by rewrite lookup_insert_ne. }
           split; [|done]. split; [done|]. intros [_ H].
           by specialize (H eq_refl).
        -- split; [done|]. split.
           { intros q [Hq1 Hq2]. by rewrite !lookup_insert_ne. }
           split; [done|]. intros _.
           rewrite lookup_insert_ne, !lookup_insert_eq by done.
           split; [done|]. apply Hfix; cbn [fs].
           ++ rewrite lookup_insert_ne by done. rewrite lookup_insert_eq.
              eauto.
           ++ rewrite lookup_insert_eq. eauto.
Qed.

Lemma startup_creates_directories_witness :
  trace (startup env_steady SLASH world_fresh).2 = trace world_fresh
  ∧ (∀ q, q ∉ [lit "uploads"; lit "output"] →
          fs (startup env_steady SLASH world_fresh).2 !! q
          = fs world_fresh !! q)
  ∧ ((startup env_steady SLASH world_fresh).1 = Ok tt
     ↔ ∀ d, d ∈ [lit "uploads"; lit "output"] →
            fs world_fresh !! d = None → mkdir_denied env_steady d = false)
  ∧ ((startup env_steady SLASH world_fresh).1 = Ok tt →
     (∀ d, d ∈ [lit "uploads"; lit "output"] →
           fs (startup env_steady SLASH world_fresh).2 !! d
           = Some (default Dir (fs world_fresh !! d)))
     ∧ startup env_steady SLASH (startup env_steady SLASH world_fresh).2
       = (Ok tt, (startup env_steady SLASH world_fresh).2)).
Proof.
  apply (startup_creates_directories env_steady SLASH world_fresh);
    apply (bool_decide_unpack _); vm_compute; exact I.
Defined.

(** Where the system refuses to make directories, startup throws at the
    first call and nothing is created; the empty path throws as well. *)
Example startup_refused :
  startup env_read_only SLASH world_fresh
  = (Throw (SystemError "EACCES"), world_fresh)
  ∧ ensureDirectoryExists env_steady SLASH [] world_fresh
    = (Throw (SystemError "ENOENT"), world_fresh).
Proof. split; vm_compute; reflexivity. Qed.

(** * Shutdown (lines 162-170) *)

Lemma startsWith_prefix (p s : list N) :
  startsWith s p = true → s = p ++ drop (length p) s.
Proof.
  revert s. induction p as [|a p IH]; intros [|b s]; cbn; try done.
  intros H. apply andb_true_iff in H as [Hab Hs].
  apply N.eqb_eq in Hab as ->. f_equal. by apply IH.
Qed.

Lemma startsWith_app (p t : list N) : startsWith (p ++ t) p = true.
Proof. induction p as [|a p IH]; cbn; [done|]. by rewrite N.eqb_refl. Qed.

Lemma below_join (sep : N) (dir name : list N) :
  below sep dir (dir ++ sep :: name).
Proof.
  unfold below. rewrite (cons_middle sep dir name), app_assoc.
  apply startsWith_app.
Qed.

Lemma child_name_Some (sep : N) (dir k name : list N) :
  child_name sep dir k = Some name
  ↔ k = dir ++ sep :: name ∧ name ≠ [] ∧ sep ∉ name.
Proof.
  unfold child_name. split.
  - destruct (startsWith k (dir ++ [sep])) eqn:Hs; [|done].
    case_bool_decide as Hn; [|done]. intros [= <-]. split; [|done].
    apply startsWith_prefix in Hs. rewrite length_app in Hs.
    by rewrite <- app_assoc in Hs.
  - intros (-> & Hne & Hsep).
    rewrite (cons_middle sep dir name), app_assoc, startsWith_app.
    replace (length dir + 1)%nat with (length (dir ++ [sep]))
      by (rewrite length_app; reflexivity).
    rewrite drop_app_length. by rewrite bool_decide_eq_true_2.
Qed.

Lemma entry_of_below (sep : N) (dir k : list N) :
  entry_of sep dir k → below sep dir k.
Proof.
  intros [name Hn]. apply child_name_Some in Hn as (-> & _). apply below_join.
Qed.

Lemma NoDup_omap_inj {A B : Type} (f : A → option B) (l : list A) :
  (∀ x y z, f x = Some z → f y = Some z → x = y) →
  NoDup l → NoDup (omap f l).
Proof.
  intros Hinj. induction 1 as [|x l Hx Hl IH]; cbn; [constructor|].
  destruct (f x) as [z|] eqn:Hz; [|done]. constructor; [|done].
  intros Hin. apply list_elem_of_omap in Hin as (y & Hy & Hfy).
  by rewrite (Hinj x y z Hz Hfy) in Hx.
Qed.

(** What [readdirSync] lists: the names of the entries that exist. *)
Lemma listing_elem (sep : N) (dir name : list N) (m : gmap (list N) entry) :
  name ∈ omap (child_name sep dir) (map fst (map_to_list m))
  ↔ is_Some (m !! (dir ++ sep :: name)) ∧ name ≠ [] ∧ sep ∉ name.
Proof.
  rewrite list_elem_of_omap. split.
  - intros (k & Hk & Hc). apply list_elem_of_fmap in Hk as ([k' e] & -> & He).
    apply elem_of_map_to_list in He. cbn in Hc.
    apply child_name_Some in Hc as (-> & Hne & Hsep). eauto.
  - intros ([e He] & Hne & Hsep). exists (dir ++ sep :: name). split.
    + apply list_elem_of_fmap. exists (dir ++ sep :: name, e). split; [done|].
      by apply elem_of_map_to_list.
    + by apply child_name_Some.
Qed.

Lemma listing_NoDup (sep : N) (dir : list N) (m : gmap (list N) entry) :
  NoDup (omap (child_name sep dir) (map fst (map_to_list m))).
Proof.
  apply NoDup_omap_inj; [|apply (NoDup_fst_map_to_list m)].
  intros x y z Hx Hy. apply child_name_Some in Hx as (-> & _).
  by apply child_name_Some in Hy as (-> & _).
Qed.

Lemma fs_readdirSync_run (env : Env) (sep : N) order (dir : list N)
    (w : World) :
  fs_readdirSync env sep order dir w
  = match fs w !! dir with
    | Some Dir =>
        if readdir_denied env dir then (Throw (SystemError "EACCES"), w)
        else (Ok (order dir
                    (omap (child_name sep dir) (map fst (map_to_list (fs w))))),
              w)
    | Some (File _) => (Throw (SystemError "ENOTDIR"), w)
    | None => (Throw (SystemError "ENOENT"), w)
    end.
Proof.
  unfold fs_readdirSync, bind, get_fs, ret, throw.
  destruct (fs w !! dir) as [[c|]|]; try done.
  by destruct (readdir_denied env dir).
Qed.

(** One unlink of the loop: the file is removed, or the loop ends there. *)
Lemma unlink_all_cons (env : Env) (sep : N) (dir a : list N)
    (l : list (list N)) (w : World) :
  unlink_all env sep dir (a :: l) w
  = if unlink_fails env (dir ++ sep :: a) (fs w)
       || bool_decide (fs w !! (dir ++ sep :: a) = None)
    then ((unlink_all env sep dir [a] w).1,
          with_fs w (fs w) [EvUnlink (dir ++ sep :: a)])
    else unlink_all env sep dir l
           (with_fs w (delete (dir ++ sep :: a) (fs w))
              [EvUnlink (dir ++ sep :: a)]).
Proof.
  unfold unlink_all, unlink_fails. rewrite !forEach_cons.
  unfold fs_unlinkSync, with_fs, emit, set_fs, get_fs, mbind, M_bind, bind,
    ret, throw.
  cbn. destruct (fs w !! (dir ++ sep :: a)) as [[c|]|] eqn:H; cbn;
    rewrite ?H; try done.
  destruct (unlink_denied env (dir ++ sep :: a)); cbn; by rewrite ?H.
Qed.

Lemma unlink_all_one_throws (env : Env) (sep : N) (dir a : list N)
    (w : World) :
  unlink_fails env (dir ++ sep :: a) (fs w)
  || bool_decide (fs w !! (dir ++ sep :: a) = None) = true →
  ∃ e, (unlink_all env sep dir [a] w).1 = Throw e.
Proof.
  unfold unlink_all, unlink_fails. rewrite forEach_cons.
  unfold fs_unlinkSync, with_fs, emit, set_fs, get_fs, mbind, M_bind, bind,
    ret, throw.
  cbn. destruct (fs w !! (dir ++ sep :: a)) as [[c|]|] eqn:H; cbn;
    rewrite ?H; try (by eexists).
  destruct (unlink_denied env (dir ++ sep :: a)); cbn; [by eexists|done].
Qed.

Lemma removes_only_refl (P : list N → Prop) (m : gmap (list N) entry) :
  removes_only P m m.
Proof. intros k. by left. Qed.

Lemma removes_only_trans (P Q R : list N → Prop)
    (m1 m2 m3 : gmap (list N) entry) :
  (∀ k, P k → R k) → (∀ k, Q k → R k) →
  removes_only P m1 m2 → removes_only Q m2 m3 → removes_only R m1 m3.
Proof.
  intros HP HQ H12 H23 k.
  destruct (H23 k) as [E|(Hn & [c Hc] & Hk)];
    destruct (H12 k) as [E'|(Hn' & [c' Hc'] & Hk')].
  - left. congruence.
  - right. split; [congruence|]. eauto.
  - right. split; [done|]. split; [exists c; congruence|]. eauto.
  - congruence.
Qed.

(** The loop touches nothing but regular files it was told to unlink. *)
Lemma unlink_all_shrinks (env : Env) (sep : N) (dir : list N)
    (names : list (list N)) (w : World) :
  (∃ tried, trace (unlink_all env sep dir names w).2
            = trace w ++ unlink_events sep dir tried)
  ∧ removes_only (λ k, ∃ n, n ∈ names ∧ k = dir ++ sep :: n)
      (fs w) (fs (unlink_all env sep dir names w).2).
Proof.
  revert w. induction names as [|a l IH]; intros w.
  - cbn. split; [|apply removes_only_refl].
    exists []. cbn. by rewrite app_nil_r.
  - rewrite unlink_all_cons.
    destruct (unlink_fails env (dir ++ sep :: a) (fs w)
              || bool_decide (fs w !! (dir ++ sep :: a) = None)) eqn:Hf.
    + cbn [snd]. split; [by exists [a]|apply removes_only_refl].
    + apply orb_false_iff in Hf as [Hf Hn].
      apply bool_decide_eq_false in Hn.
      assert (∃ c, fs w !! (dir ++ sep :: a) = Some (File c)) as [c Hc].
      { unfold unlink_fails in Hf.
        destruct (fs w !! (dir ++ sep :: a)) as [[c|]|]; [by eexists|done..]. }
      destruct (IH (with_fs w (delete (dir ++ sep :: a) (fs w))
                      [EvUnlink (dir ++ sep :: a)]))
        as ([tried Ht] & Hr).
      split.
      * exists (a :: tried). rewrite Ht. cbn [with_fs trace unlink_events fmap
          list_fmap]. by rewrite <- app_assoc.
      * intros k. destruct (Hr k) as [E|(Hn' & [c' Hc'] & n & Hin & ->)].
        -- rewrite E, fs_with_fs.
           destruct (decide (k = dir ++ sep :: a)) as [->|Hne].
           ++ right. rewrite lookup_delete_eq. split; [done|].
              split; [by exists c|]. exists a. split; [left|done].
           ++ left. by rewrite lookup_delete_ne.
        -- right. split; [done|]. rewrite fs_with_fs in Hc'.
           apply lookup_delete_Some in Hc' as [_ Hc']. split; [by exists c'|].
           exists n. split; [by right|done].
Qed.

(** Over distinct names of regular files that the system lets go, the loop
    removes them all. *)
Lemma unlink_all_ok (env : Env) (sep : N) (dir : list N)
    (names : list (list N)) (w : World) :
  NoDup names →
  (∀ n, n ∈ names →
        (∃ c, fs w !! (dir ++ sep :: n) = Some (File c))
        ∧ unlink_denied env (dir ++ sep :: n) = false) →
  ∃ w', unlink_all env sep dir names w = (Ok tt, w')
        ∧ trace w' = trace w ++ unlink_events sep dir names
        ∧ (∀ n, n ∈ names → fs w' !! (dir ++ sep :: n) = None)
        ∧ (∀ k, (∀ n, n ∈ names → k ≠ dir ++ sep :: n) →
                fs w' !! k = fs w !! k).
Proof.
  intros Hnd. revert w. induction Hnd as [|a l Ha Hl IH]; intros w Hfiles.
  - exists w. cbn. split; [done|]. split; [by rewrite app_nil_r|].
    split; [|done]. intros n Hn. by apply elem_of_nil in Hn.
  - rewrite unlink_all_cons. destruct (Hfiles a) as [[c Hc] Hd]; [left|].
    unfold unlink_fails. rewrite Hc, Hd. cbn [orb].
    rewrite bool_decide_eq_false_2 by done.
    destruct (IH (with_fs w (delete (dir ++ sep :: a) (fs w))
                    [EvUnlink (dir ++ sep :: a)]))
      as (w' & Hrun & Ht & Hgone & Hkept).
    { intros n Hn. destruct (Hfiles n) as [[c' Hc'] Hd']; [by right|].
      split; [|done]. exists c'.
      rewrite fs_with_fs, lookup_delete_ne; [done|].
      intros E. apply app_inv_head in E. injection E as <-. done. }
    exists w'. split; [done|]. split; [|split].
    + rewrite Ht. cbn [with_fs trace unlink_events fmap list_fmap].
      by rewrite <- app_assoc.
    + intros n Hn. apply elem_of_cons in Hn as [->|Hn]; [|by apply Hgone].
      rewrite Hkept, fs_with_fs; [apply lookup_delete_eq|].
      intros n Hn E. apply app_inv_head in E. injection E as <-. done.
    + intros k Hk'. rewrite Hkept, fs_with_fs.
      * apply lookup_delete_ne. intros E. by apply (Hk' a); [left|].
      * intros n Hn. apply Hk'. by right.
Qed.

(** A directory among the names makes the loop throw. *)
Lemma unlink_all_throws (env : Env) (sep : N) (dir n : list N)
    (names : list (list N)) (w : World) :
  n ∈ names → fs w !! (dir ++ sep :: n) = Some Dir →
  ∃ e, (unlink_all env sep dir names w).1 = Throw e.
Proof.
  revert w. induction names as [|a l IH]; intros w Hn Hd.
  - by apply elem_of_nil in Hn.
  - rewrite unlink_all_cons.
    destruct (unlink_fails env (dir ++ sep :: a) (fs w)
              || bool_decide (fs w !! (dir ++ sep :: a) = None)) eqn:Hf.
    + cbn [fst]. by apply unlink_all_one_throws.
    + apply elem_of_cons in Hn as [->|Hn].
      { unfold unlink_fails in Hf. by rewrite Hd in Hf. }
      apply IH; [done|]. rewrite fs_with_fs, lookup_delete_ne; [done|].
      intros E. rewrite <- E in Hd. unfold unlink_fails in Hf.
      by rewrite Hd in Hf.
Qed.

Lemma responses_unlink_events (sep : N) (dir : list N)
    (names : list (list N)) :
  responses (unlink_events sep dir names) = [].
Proof. induction names as [|a l IH]; [done|exact IH]. Qed.

Lemma on_SIGTERM_run (env : Env) (sep : N) order (w : World) :
  on_SIGTERM env sep order w
  = try_catch (sweep env sep order (lit "uploads");;
               sweep env sep order (lit "output"))
      (fun error => console_error (lit "Cleanup error during shutdown:"))
      (with_fs w (fs w) [EvLog (lit "SIGTERM received. Cleaning up...")]).
Proof.
  unfold on_SIGTERM, console_log, sweep, unlink_all, path_join, try_catch,
    mbind, M_bind, bind, emit, with_fs.
  cbv beta.
  by destruct (fs_readdirSync env sep order (lit "uploads") _)
    as [[files|e] w1].
Qed.

Lemma sweep_shrinks (env : Env) (sep : N) order (dir : list N) (w : World) :
  (∃ tried, trace (sweep env sep order dir w).2
            = trace w ++ unlink_events sep dir tried)
  ∧ removes_only (below sep dir) (fs w) (fs (sweep env sep order dir w).2).
Proof.
  assert ((∃ tried, trace w = trace w ++ unlink_events sep dir tried)
          ∧ removes_only (below sep dir) (fs w) (fs w)) as Hsame.
  { split; [exists []; cbn; by rewrite app_nil_r|apply removes_only_refl]. }
  unfold sweep, bind. rewrite fs_readdirSync_run.
  destruct (fs w !! dir) as [[c|]|]; cbn [fst snd]; [done| |done].
  destruct (readdir_denied env dir); [done|].
  match goal with
  | |- context [unlink_all env sep dir ?l w] =>
      destruct (unlink_all_shrinks env sep dir l w) as (Ht & Hr)
  end.
  split; [done|]. intros k.
  destruct (Hr k) as [E|(Hn & Hc & n & _ & ->)]; [by left|].
  right. split; [done|]. split; [done|]. apply below_join.
Qed.

Lemma sweep_ok (env : Env) (sep : N) order (dir : list N) (w : World) :
  lists_each_once order →
  fs w !! dir = Some Dir →
  readdir_denied env dir = false →
  only_files env sep dir (fs w) →
  ∃ w', sweep env sep order dir w = (Ok tt, w')
        ∧ (∃ names, trace w' = trace w ++ unlink_events sep dir names
                    ∧ ∀ n, n ∈ names ↔
                           is_Some (fs w !! (dir ++ sep :: n))
                           ∧ n ≠ [] ∧ sep ∉ n)
        ∧ (∀ k, entry_of sep dir k → fs w' !! k = None)
        ∧ (∀ k, ¬ entry_of sep dir k → fs w' !! k = fs w !! k).
Proof.
  intros Horder Hdir Hrd Hfiles. unfold sweep, bind.
  rewrite fs_readdirSync_run, Hdir, Hrd.
  set (listing := omap (child_name sep dir) (map fst (map_to_list (fs w)))).
  assert (∀ n, n ∈ order dir listing ↔
               is_Some (fs w !! (dir ++ sep :: n)) ∧ n ≠ [] ∧ sep ∉ n)
    as Hin.
  { intros n. rewrite (Horder dir listing). apply listing_elem. }
  destruct (unlink_all_ok env sep dir (order dir listing) w)
    as (w' & Hrun & Ht & Hgone & Hkept).
  { rewrite (Horder dir listing). apply listing_NoDup. }
  { intros n Hn. apply Hin in Hn as ([e He] & Hne & Hsep).
    destruct (Hfiles _ _ He) as [Hnd Hud].
    { exists n. by apply child_name_Some. }
    split; [|done]. destruct e as [c|]; [by exists c|done]. }
  exists w'. split; [done|]. split; [by eexists|]. split.
  - intros k [n Hn]. apply child_name_Some in Hn as (-> & Hne & Hsep).
    destruct (fs w !! (dir ++ sep :: n)) as [e|] eqn:He.
    + apply Hgone, Hin. eauto.
    + rewrite Hkept; [done|]. intros n' Hn' E.
      apply app_inv_head in E. injection E as <-.
      apply Hin in Hn' as ([e He'] & _). congruence.
  - intros k Hk. apply Hkept. intros n Hn ->. apply Hk.
    apply Hin in Hn as (_ & Hne & Hsep). exists n. by apply child_name_Some.
Qed.

Lemma sweep_throws (env : Env) (sep : N) order (dir k : list N) (w : World) :
  lists_each_once order →
  fs w !! dir = Some Dir →
  entry_of sep dir k → fs w !! k = Some Dir →
  ∃ e, (sweep env sep order dir w).1 = Throw e.
Proof.
  intros Horder Hdir [n Hn] Hk. apply child_name_Some in Hn as (-> & Hne & Hsep).
  unfold sweep, bind. rewrite fs_readdirSync_run, Hdir.
  destruct (readdir_denied env dir); [by eexists|].
  apply (unlink_all_throws env sep dir n); [|done].
  rewrite (Horder dir _). apply listing_elem. eauto.
Qed.

Lemma below_disjoint (sep : N) (k : list N) :
  below sep (lit "uploads") k → below sep (lit "output") k → False.
Proof.
  unfold below. change (lit "uploads") with (117%N :: lit "ploads").
  change (lit "output") with (111%N :: lit "utput").
  destruct k as [|c k]; cbn [app startsWith]; [done|].
  intros H1 H2. apply andb_true_iff in H1 as [H1 _], H2 as [H2 _].
  apply N.eqb_eq in H1, H2. congruence.
Qed.

Lemma output_not_in_uploads (sep : N) :
  ¬ entry_of sep (lit "uploads") (lit "output").
Proof.
  intros H. apply entry_of_below in H. revert H. unfold below.
  change (lit "uploads") with (117%N :: lit "ploads").
  change (lit "output") with (111%N :: lit "utput").
  cbn [app startsWith]. done.
Qed.

(** The shutdown handler never throws and sends no response. All it does
    to the file system is remove regular files whose path is written below
    uploads or output: no directory is removed, no entry is added or
    changed, whatever the listing order is and whatever the system
    refuses. *)
Theorem on_SIGTERM_only_removes_staged_files (env : Env) (sep : N) order
    (w : World) :
  (on_SIGTERM env sep order w).1 = Ok tt
  ∧ (∃ evs, trace (on_SIGTERM env sep order w).2
            = trace w ++ EvLog (lit "SIGTERM received. Cleaning up...") :: evs
            ∧ responses evs = [])
  ∧ removes_only
      (λ k, below sep (lit "uploads") k ∨ below sep (lit "output") k)
      (fs w) (fs (on_SIGTERM env sep order w).2).
Proof.
  rewrite on_SIGTERM_run. unfold try_catch, mbind, M_bind, bind.
  set (w0 := with_fs w (fs w) [EvLog (lit "SIGTERM received. Cleaning up...")]).
  destruct (sweep_shrinks env sep order (lit "uploads") w0) as ([t1 Ht1] & Hr1).
  destruct (sweep env sep order (lit "uploads") w0) as [[[]|e] w1];
    cbn [fst snd] in *.
  - destruct (sweep_shrinks env sep order (lit "output") w1)
      as ([t2 Ht2] & Hr2).
    destruct (sweep env sep order (lit "output") w1) as [[[]|e] w2];
      cbn [fst snd] in *.
    + split; [done|]. split.
      * exists (unlink_events sep (lit "uploads") t1
                ++ unlink_events sep (lit "output") t2).
        rewrite Ht2, Ht1. subst w0. cbn [with_fs trace].
        rewrite !responses_app, !responses_unlink_events.
        split; [|done]. by rewrite <- !app_assoc.
      * eapply removes_only_trans; [| |exact Hr1|exact Hr2]; cbn; auto.
    + cbn. split; [done|]. split.
      * exists (unlink_events sep (lit "uploads") t1
                ++ unlink_events sep (lit "output") t2
                ++ [EvLog (lit "Cleanup error during shutdown:")]).
        rewrite Ht2, Ht1. subst w0. cbn [with_fs trace].
        rewrite !responses_app, !responses_unlink_events.
        split; [|done]. by rewrite <- !app_assoc.
      * eapply removes_only_trans; [| |exact Hr1|exact Hr2]; cbn; auto.
  - cbn. split; [done|]. split.
    + exists (unlink_events sep (lit "uploads") t1
              ++ [EvLog (lit "Cleanup error during shutdown:")]).
      rewrite Ht1. subst w0. cbn [with_fs trace].
      rewrite !responses_app, !responses_unlink_events.
      split; [|done]. by rewrite <- !app_assoc.
    + intros k. destruct (Hr1 k) as [E|(Hn & Hc & Hb)]; [by left|].
      right. auto.
Qed.

(** The run of the shutdown handler when both sweeps go through: the world
    after the first sweep and the world at the end. *)
Lemma on_SIGTERM_two_sweeps (env : Env) (sep : N) order (w : World) :
  lists_each_once order →
  fs w !! lit "uploads" = Some Dir →
  fs w !! lit "output" = Some Dir →
  readdir_denied env (lit "uploads") = false →
  readdir_denied env (lit "output") = false →
  only_files env sep (lit "uploads") (fs w) →
  only_files env sep (lit "output") (fs w) →
  ∃ w1 w2 names1 names2,
    on_SIGTERM env sep order w = (Ok tt, w2)
    ∧ trace w2
      = trace w ++ EvLog (lit "SIGTERM received. Cleaning up...")
          :: unlink_events sep (lit "uploads") names1
          ++ unlink_events sep (lit "output") names2
    ∧ (∀ n, n ∈ names1 ↔
            is_Some (fs w !! (lit "uploads" ++ sep :: n)) ∧ n ≠ [] ∧ sep ∉ n)
    ∧ (∀ n, n ∈ names2 ↔
            is_Some (fs w !! (lit "output" ++ sep :: n)) ∧ n ≠ [] ∧ sep ∉ n)
    ∧ (∀ k, entry_of sep (lit "uploads") k → fs w1 !! k = None)
    ∧ (∀ k, ¬ entry_of sep (lit "uploads") k → fs w1 !! k = fs w !! k)
    ∧ (∀ k, entry_of sep (lit "output") k → fs w2 !! k = None)
    ∧ (∀ k, ¬ entry_of sep (lit "output") k → fs w2 !! k = fs w1 !! k).
Proof.
  intros Horder Hu Ho Hru Hro Hfu Hfo. rewrite on_SIGTERM_run.
  unfold try_catch, mbind, M_bind, bind.
  set (w0 := with_fs w (fs w) [EvLog (lit "SIGTERM received. Cleaning up...")]).
  destruct (sweep_ok env sep order (lit "uploads") w0 Horder Hu Hru Hfu)
    as (w1 & -> & (n1 & Ht1 & Hn1) & Hgone1 & Hkept1).
  destruct (sweep_ok env sep order (lit "output") w1 Horder)
    as (w2 & -> & (n2 & Ht2 & Hn2) & Hgone2 & Hkept2).
  { rewrite Hkept1; [done|apply output_not_in_uploads]. }
  { done. }
  { intros k e Hk Hin.
    destruct (decide (entry_of sep (lit "uploads") k)) as [Hin'|Hout].
    - rewrite Hgone1 in Hk; done.
    - rewrite Hkept1 in Hk by done. by apply (Hfo k e). }
  exists w1, w2, n1, n2. split; [done|]. split; [|split; [|split]].
  - rewrite Ht2, Ht1. subst w0. cbn [with_fs trace]. by rewrite <- !app_assoc.
  - exact Hn1.
  - intros n. rewrite Hn2, Hkept1; [done|].
    intros Hin. apply entry_of_below in Hin.
    exact (below_disjoint sep _ Hin (below_join sep (lit "output") n)).
  - done.
Qed.

(** When uploads and output are directories that the system lets the
    handler list, every entry of which can be unlinked (none is a directory
    and none is a file the system refuses to unlink), and the listing names
    every entry once, the shutdown handler removes every entry of both,
    changes nothing else and logs no error. *)
Theorem on_SIGTERM_empties_directories (env : Env) (sep : N) order
    (w : World) :
  lists_each_once order →
  fs w !! lit "uploads" = Some Dir →
  fs w !! lit "output" = Some Dir →
  readdir_denied env (lit "uploads") = false →
  readdir_denied env (lit "output") = false →
  only_files env sep (lit "uploads") (fs w) →
  only_files env sep (lit "output") (fs w) →
  (on_SIGTERM env sep order w).1 = Ok tt
  ∧ (∃ names1 names2,
       trace (on_SIGTERM env sep order w).2
       = trace w ++ EvLog (lit "SIGTERM received. Cleaning up...")
           :: unlink_events sep (lit "uploads") names1
           ++ unlink_events sep (lit "output") names2)
  ∧ (∀ k, entry_of sep (lit "uploads") k ∨ entry_of sep (lit "output") k →
          fs (on_SIGTERM env sep order w).2 !! k = None)
  ∧ (∀ k, ¬ entry_of sep (lit "uploads") k →
          ¬ entry_of sep (lit "output") k →
          fs (on_SIGTERM env sep order w).2 !! k = fs w !! k).
Proof.
  intros Horder Hu Ho Hru Hro Hfu Hfo.
  destruct (on_SIGTERM_two_sweeps env sep order w Horder Hu Ho Hru Hro Hfu Hfo)
    as (w1 & w2 & n1 & n2 & -> & Ht & _ & _ & Hgone1 & Hkept1 & Hgone2
        & Hkept2).
  cbn [fst snd]. split; [done|]. split; [by exists n1, n2|]. split.
  - intros k [Hk|Hk].
    + destruct (decide (entry_of sep (lit "output") k)) as [Hin|Hout].
      * by apply Hgone2.
      * rewrite Hkept2 by done. by apply Hgone1.
    + by apply Hgone2.
  - intros k Hk1 Hk2. rewrite Hkept2, Hkept1; done.
Qed.

(** When uploads is missing or is a regular file, the shutdown handler
    removes nothing, also not from output: it logs the error and ends. *)
Theorem on_SIGTERM_without_uploads (env : Env) (sep : N) order (w : World) :
  fs w !! lit "uploads" ≠ Some Dir →
  on_SIGTERM env sep order w
  = (Ok tt,
     with_fs w (fs w)
       [EvLog (lit "SIGTERM received. Cleaning up...");
        EvLog (lit "Cleanup error during shutdown:")]).
Proof.
  intros Hu. rewrite on_SIGTERM_run.
  unfold try_catch, mbind, M_bind, bind, sweep, bind.
  rewrite fs_readdirSync_run, fs_with_fs.
  destruct (fs w !! lit "uploads") as [[c|]|]; [|done|];
    unfold console_error; by rewrite emit_with_fs.
Qed.

(** A directory inside uploads makes the shutdown handler give up: the
    error is logged, the directory stays, and nothing below output is
    removed. *)
Theorem on_SIGTERM_subdirectory_blocks_output (env : Env) (sep : N) order
    (w : World) (k0 : list N) :
  lists_each_once order →
  fs w !! lit "uploads" = Some Dir →
  entry_of sep (lit "uploads") k0 →
  fs w !! k0 = Some Dir →
  (∃ tried,
     trace (on_SIGTERM env sep order w).2
     = trace w ++ EvLog (lit "SIGTERM received. Cleaning up...")
         :: unlink_events sep (lit "uploads") tried
         ++ [EvLog (lit "Cleanup error during shutdown:")])
  ∧ fs (on_SIGTERM env sep order w).2 !! k0 = Some Dir
  ∧ (∀ k, below sep (lit "output") k →
          fs (on_SIGTERM env sep order w).2 !! k = fs w !! k).
Proof.
  intros Horder Hu Hk0 Hd. rewrite on_SIGTERM_run.
  unfold try_catch, mbind, M_bind, bind.
  set (w0 := with_fs w (fs w) [EvLog (lit "SIGTERM received. Cleaning up...")]).
  destruct (sweep_throws env sep order (lit "uploads") k0 w0 Horder Hu Hk0 Hd)
    as [e He].
  destruct (sweep_shrinks env sep order (lit "uploads") w0) as ([t1 Ht1] & Hr1).
  destruct (sweep env sep order (lit "uploads") w0) as [[[]|e'] w1];
    cbn [fst snd] in *; [done|].
  cbn. split; [|split].
  - exists t1. rewrite Ht1. subst w0. cbn [with_fs trace].
    by rewrite <- !app_assoc.
  - destruct (Hr1 k0) as [E|(_ & [c Hc] & _)]; [by rewrite E|].
    subst w0. rewrite fs_with_fs in Hc. congruence.
  - intros k Hk. destruct (Hr1 k) as [E|(_ & _ & Hb)]; [done|].
    destruct (below_disjoint sep k Hb Hk).
Qed.

Lemma map_order_lists_each_once : lists_each_once map_order.
Proof. intros dir names. reflexivity. Qed.

Lemma on_SIGTERM_empties_directories_witness :
  (on_SIGTERM env_steady SLASH map_order world_leftovers).1 = Ok tt
  ∧ (∃ names1 names2,
       trace (on_SIGTERM env_steady SLASH map_order world_leftovers).2
       = trace world_leftovers
           ++ EvLog (lit "SIGTERM received. Cleaning up...")
           :: unlink_events SLASH (lit "uploads") names1
           ++ unlink_events SLASH (lit "output") names2)
  ∧ (∀ k, entry_of SLASH (lit "uploads") k ∨ entry_of SLASH (lit "output") k →
          fs (on_SIGTERM env_steady SLASH map_order world_leftovers).2 !! k
          = None)
  ∧ (∀ k, ¬ entry_of SLASH (lit "uploads") k →
          ¬ entry_of SLASH (lit "output") k →
          fs (on_SIGTERM env_steady SLASH map_order world_leftovers).2 !! k
          = fs world_leftovers !! k).
Proof.
  apply (on_SIGTERM_empties_directories env_steady SLASH map_order
           world_leftovers).
  - exact map_order_lists_each_once.
  - vm_compute. reflexivity.
  - vm_compute. reflexivity.
  - reflexivity.
  - reflexivity.
  - unfold only_files. apply (bool_decide_unpack _). vm_compute. exact I.
  - unfold only_files. apply (bool_decide_unpack _). vm_compute. exact I.
Defined.

Lemma on_SIGTERM_without_uploads_witness :
  on_SIGTERM env_steady SLASH map_order world_no_uploads
  = (Ok tt,
     with_fs world_no_uploads (fs world_no_uploads)
       [EvLog (lit "SIGTERM received. Cleaning up...");
        EvLog (lit "Cleanup error during shutdown:")]).
Proof.
  apply (on_SIGTERM_without_uploads env_steady SLASH map_order
           world_no_uploads).
  vm_compute. discriminate.
Defined.

Lemma on_SIGTERM_subdirectory_blocks_output_witness :
  (∃ tried,
     trace (on_SIGTERM env_steady SLASH map_order world_subdir).2
     = trace world_subdir ++ EvLog (lit "SIGTERM received. Cleaning up...")
         :: unlink_events SLASH (lit "uploads") tried
         ++ [EvLog (lit "Cleanup error during shutdown:")])
  ∧ fs (on_SIGTERM env_steady SLASH map_order world_subdir).2
      !! lit "uploads/old" = Some Dir
  ∧ (∀ k, below SLASH (lit "output") k →
          fs (on_SIGTERM env_steady SLASH map_order world_subdir).2 !! k
          = fs world_subdir !! k).
Proof.
  apply (on_SIGTERM_subdirectory_blocks_output env_steady SLASH map_order
           world_subdir (lit "uploads/old")).
  - exact map_order_lists_each_once.
  - vm_compute. reflexivity.
  - apply (bool_decide_unpack _). vm_compute. exact I.
  - vm_compute. reflexivity.
Defined.

(** ** Staged files and the shutdown handler *)

Lemma number_to_string_chars z :
  Forall (λ c, is_digit c = true ∨ c = 45%N) (number_to_string z).
Proof.
  assert (∀ ds, Forall (λ c, is_digit c = true) ds →
                Forall (λ c, is_digit c = true ∨ c = 45%N) ds) as Hd.
  { intros ds Hds. eapply Forall_impl; [exact Hds|]. cbn. auto. }
  unfold number_to_string. destruct z as [|p|p].
  - change (lit (pretty 0)) with [48%N]. by repeat constructor.
  - change (pretty (Z.pos p)) with (pretty_N_go (N.pos p) "").
    destruct (pretty_N_go_digits (N.pos p) "") as (ds & -> & Hdig & _ & _).
    rewrite app_nil_r. by apply Hd.
  - change (pretty (Z.neg p)) with ("-" +:+ pretty_N_go (N.pos p) "").
    change (lit ("-" +:+ pretty_N_go (N.pos p) ""))
      with (45%N :: lit (pretty_N_go (N.pos p) "")).
    destruct (pretty_N_go_digits (N.pos p) "") as (ds & -> & Hdig & _ & _).
    rewrite app_nil_r. constructor; [by right|by apply Hd].
Qed.

Lemma separator_not_in_number (sep : N) z :
  sep = 47%N ∨ sep = 92%N → sep ∉ number_to_string z.
Proof.
  intros Hsep Hin.
  pose proof (number_to_string_chars z) as Hc. rewrite Forall_forall in Hc.
  destruct (Hc _ Hin) as [Hd| ->]; [|by destruct Hsep].
  destruct Hsep as [-> | ->]; discriminate.
Qed.

(** With either separator of the path module, the three paths of a request
    are entries of uploads and of output. *)
Lemma staged_paths_are_entries (sep : N) (env : Env) (w : World) :
  sep = 47%N ∨ sep = 92%N →
  entry_of sep (lit "uploads") (imagePath_at sep env w)
  ∧ entry_of sep (lit "output") (outputPath_at sep env w ++ lit ".txt")
  ∧ entry_of sep (lit "output") (outputPath_at sep env w ++ lit ".tsv").
Proof.
  intros Hsep.
  assert ((sep ∉ lit "image_") ∧ (sep ∉ lit ".png") ∧ (sep ∉ lit ".txt")
          ∧ (sep ∉ lit ".tsv")) as (Hi & Hp & Ht & Hs).
  { destruct Hsep as [-> | ->]; repeat split;
      apply (bool_decide_unpack _); vm_compute; exact I. }
  unfold entry_of, imagePath_at, outputPath_at, path_join.
  rewrite <- !app_assoc, <- !app_comm_cons.
  split; [|split]; eexists; apply child_name_Some;
    (split; [reflexivity|]); (split; [done|]);
    rewrite !not_elem_of_app; rewrite <- ?app_assoc;
    repeat split; auto using separator_not_in_number.
Qed.

(** What a request leaves behind, the shutdown handler removes. With either
    separator of the path module, the image and the two output files that
    a request stages (in any world and with any clock) are entries of
    uploads and of output. So a shutdown handler whose two sweeps go
    through (both directories can be listed, each entry once, and every
    entry can be unlinked) returns with none of the three paths left, and
    each of the three that was there has been named by [readdirSync] and
    unlinked. *)
Theorem staged_files_are_directory_entries (env env' : Env) (sep : N) order
    (w w' : World) :
  sep = 47%N ∨ sep = 92%N →
  lists_each_once order →
  fs w !! lit "uploads" = Some Dir →
  fs w !! lit "output" = Some Dir →
  readdir_denied env (lit "uploads") = false →
  readdir_denied env (lit "output") = false →
  only_files env sep (lit "uploads") (fs w) →
  only_files env sep (lit "output") (fs w) →
  Forall2 (entry_of sep) [lit "uploads"; lit "output"; lit "output"]
    (staged_paths (imagePath_at sep env' w') (outputPath_at sep env' w'))
  ∧ (on_SIGTERM env sep order w).1 = Ok tt
  ∧ Forall (λ p, fs (on_SIGTERM env sep order w).2 !! p = None
                 ∧ (is_Some (fs w !! p) →
                    EvUnlink p ∈ trace (on_SIGTERM env sep order w).2))
      (staged_paths (imagePath_at sep env' w') (outputPath_at sep env' w')).
Proof.
  intros Hsep Horder Hu Ho Hru Hro Hfu Hfo.
  destruct (on_SIGTERM_two_sweeps env sep order w Horder Hu Ho Hru Hro Hfu Hfo)
    as (w1 & w2 & n1 & n2 & -> & Ht & Hn1 & Hn2 & Hgone1 & _ & Hgone2
        & Hkept2).
  destruct (staged_paths_are_entries sep env' w' Hsep) as (H1 & H2 & H3).
  cbn [fst snd]. unfold staged_paths.
  split; [by repeat constructor|]. split; [done|].
  assert (∀ dir names p,
            entry_of sep dir p →
            (∀ n, n ∈ names ↔
                  is_Some (fs w !! (dir ++ sep :: n)) ∧ n ≠ [] ∧ sep ∉ n) →
            is_Some (fs w !! p) → EvUnlink p ∈ unlink_events sep dir names)
    as Hev.
  { intros dir names p [n Hn] Hnames Hp.
    apply child_name_Some in Hn as (-> & Hne & Hs).
    unfold unlink_events. apply list_elem_of_fmap. exists n.
    split; [done|]. by apply Hnames. }
  rewrite Ht.
  repeat constructor; try (by apply Hgone2).
  - destruct (decide (entry_of sep (lit "output") (imagePath_at sep env' w')))
      as [Hin|Hout]; [by apply Hgone2|].
    rewrite Hkept2 by done. by apply Hgone1.
  - intros Hp. rewrite elem_of_app. right. right.
    rewrite elem_of_app. left. by apply (Hev _ _ _ H1 Hn1).
  - intros Hp. rewrite elem_of_app. right. right.
    rewrite elem_of_app. right. by apply (Hev _ _ _ H2 Hn2).
  - intros Hp. rewrite elem_of_app. right. right.
    rewrite elem_of_app. right. by apply (Hev _ _ _ H3 Hn2).
Qed.

Lemma staged_files_are_directory_entries_witness :
  Forall2 (entry_of SLASH) [lit "uploads"; lit "output"; lit "output"]
    (staged_paths (imagePath_at SLASH env_steady empty_world)
       (outputPath_at SLASH env_steady empty_world))
  ∧ (on_SIGTERM env_steady SLASH map_order world_request_left).1 = Ok tt
  ∧ Forall (λ p, fs (on_SIGTERM env_steady SLASH map_order
                       world_request_left).2 !! p = None
                 ∧ (is_Some (fs world_request_left !! p) →
                    EvUnlink p ∈ trace (on_SIGTERM env_steady SLASH map_order
                                          world_request_left).2))
      (staged_paths (imagePath_at SLASH env_steady empty_world)
         (outputPath_at SLASH env_steady empty_world)).
Proof.
  apply (staged_files_are_directory_entries env_steady env_steady SLASH
           map_order world_request_left empty_world).
  - left. reflexivity.
  - exact map_order_lists_each_once.
  - vm_compute. reflexivity.
  - vm_compute. reflexivity.
  - reflexivity.
  - reflexivity.
  - unfold only_files. apply (bool_decide_unpack _). vm_compute. exact I.
  - unfold only_files. apply (bool_decide_unpack _). vm_compute. exact I.
Defined.
